(** * robusta_krr.core.abstract.strategies

    A shallow embedding of [robusta_krr/core/abstract/strategies.py]: the
    recommendation value, the settings schema, and the strategy registry
    ([BaseStrategy.get_all], [BaseStrategy.find],
    [BaseStrategy.get_settings_type]), together with the fragments of the
    Python runtime that these few lines rely on (str methods, the
    insertion-ordered dict, class objects and their linearization,
    pydantic's field validation, [datetime.timedelta]).

    Strings are Rocq strings. The methods of [str] are modelled on ASCII
    text ([Str.is_ascii]), where a character is a byte; what is proved
    through [lower] uses only that it is idempotent, what is proved through
    [title] is stated for ASCII text. *)

From Stdlib Require Import ZArith Lia Ascii String.
From Stdlib Require Import Floats.SpecFloat.
From stdpp Require Import base strings list gmap.

Set Warnings "-register-all".
Local Open Scope list_scope.

(** ** Exceptions and results *)

(** The error records pydantic collects while validating a model. *)
Inductive PydanticError : Type :=
| MissingError                     (* value_error.missing *)
| NoneIsNotAllowedError            (* type_error.none.not_allowed *)
| FloatError                       (* type_error.float *)
| NumberNotGeError (limit_value : Z). (* value_error.number.not_ge *)

(** Exceptions, by class. The message is kept where this module composes it;
    [ValidationError] carries pydantic's list of (field, error). *)
Inductive PyExc : Type :=
| ValueError (msg : string)
| KeyError (key : string)
| IndexError
| AttributeError (attr : string)
| TypeError
| OverflowError
| InvalidOperation
| ValidationError (errors : list (string * PydanticError)).

Inductive Result (A : Type) : Type :=
| Ok (a : A)
| Raise (e : PyExc).
Arguments Ok {A} a.
Arguments Raise {A} e.

#[export] Instance result_ret : MRet Result := λ A a, Ok a.
#[export] Instance result_bind : MBind Result :=
  λ A B k r, match r with Ok a => k a | Raise e => Raise e end.

(** ** str *)

Module Str.

(** [c.lower()] for one character: the letters [A]..[Z] move to [a]..[z]. *)
Definition lower_ascii (c : ascii) : ascii :=
  let n := nat_of_ascii c in
  if (65 <=? n)%nat && (n <=? 90)%nat then ascii_of_nat (n + 32) else c.

Fixpoint lower (s : string) : string :=
  match s with
  | EmptyString => EmptyString
  | String c s' => String (lower_ascii c) (lower s')
  end.

(** [sep.join(l)] *)
Fixpoint join (sep : string) (l : list string) : string :=
  match l with
  | [] => ""
  | [x] => x
  | x :: xs => x +:+ sep +:+ join sep xs
  end.

(** [sub in s] *)
Definition contains (s sub : string) : Prop :=
  ∃ pre post, s = pre +:+ sub +:+ post.

(** [c.upper()] for one character: the letters [a]..[z] move to [A]..[Z]. *)
Definition upper_ascii (c : ascii) : ascii :=
  let n := nat_of_ascii c in
  if (97 <=? n)%nat && (n <=? 122)%nat then ascii_of_nat (n - 32) else c.

(** a cased character: an ASCII letter *)
Definition is_cased (c : ascii) : bool :=
  let n := nat_of_ascii c in
  ((65 <=? n)%nat && (n <=? 90)%nat) || ((97 <=? n)%nat && (n <=? 122)%nat).

(** [s.title()]: a character that follows a cased one is lower-cased, any
    other one is upper-cased. *)
Fixpoint title_from (previous_is_cased : bool) (s : string) : string :=
  match s with
  | EmptyString => EmptyString
  | String c s' =>
      String (if previous_is_cased then lower_ascii c else upper_ascii c)
             (title_from (is_cased c) s')
  end.

Definition title (s : string) : string := title_from false s.

(** [s.isascii()] *)
Fixpoint is_ascii (s : string) : bool :=
  match s with
  | EmptyString => true
  | String c s' => (nat_of_ascii c <? 128)%nat && is_ascii s'
  end.

(** [s.endswith(suffix)] *)
Definition endswith (s suffix : string) : bool :=
  let n := String.length s in
  let k := String.length suffix in
  (k <=? n)%nat && bool_decide (substring (n - k) k s = suffix).

End Str.

(** ** dict

    A Python [dict] keeps its keys in insertion order, and assigning to a key
    that is already present replaces the value where the key stands. *)

Module Dict.

Abbreviation t V := (list (string * V)) (only parsing).

Definition empty {V} : t V := [].

(** [d[k] = v] *)
Fixpoint setitem {V} (k : string) (v : V) (d : t V) : t V :=
  match d with
  | [] => [(k, v)]
  | (k', v') :: d' =>
      if decide (k' = k) then (k', v) :: d' else (k', v') :: setitem k v d'
  end.

Fixpoint get {V} (k : string) (d : t V) : option V :=
  match d with
  | [] => None
  | (k', v') :: d' => if decide (k' = k) then Some v' else get k d'
  end.

(** [k in d] *)
Definition mem {V} (k : string) (d : t V) : bool :=
  match get k d with Some _ => true | None => false end.

(** [d[k]] *)
Definition getitem {V} (d : t V) (k : string) : Result V :=
  match get k d with
  | Some v => Ok v
  | None => Raise (KeyError k)
  end.

(** iterating a dict yields its keys *)
Definition keys {V} (d : t V) : list string := d.*1.

Definition values {V} (d : t V) : list V := d.*2.

(** [{key(x): val(x) for x in l}] *)
Definition comprehension {A V} (key : A → string) (val : A → V) (l : list A) : t V :=
  fold_left (λ d x, setitem (key x) (val x) d) l empty.

End Dict.

(** ** Class objects *)

(** A type expression as it can stand in a class statement's bases or in a
    subscript: a class object (with the bases it was declared with, as
    written), a type variable, or a subscripted generic [origin[args]]. *)
Inductive PyType : Type :=
| TClass (uid : positive) (name : string) (bases : list PyType)
| TVar (name : string)
| TAlias (origin : PyType) (args : list PyType).

(** [object] and [typing.Generic] *)
Definition object : PyType := TClass 1 "object" [].
Definition Generic : PyType := TClass 3 "Generic" [object].

Module Class.

(** [a is b] on class objects *)
Definition same (a b : PyType) : bool :=
  match a, b with
  | TClass u _ _, TClass v _ _ => Pos.eqb u v
  | _, _ => false
  end.

Definition is_alias (t : PyType) : bool :=
  match t with TAlias _ _ => true | _ => false end.

(** What a written base contributes to the bases of the class
    ([__mro_entries__], given the bases written after it): a class stands
    for itself, a subscripted generic for its origin; but [Generic[...]]
    contributes nothing when a subscripted generic follows it, whose origin
    already derives from [Generic]. *)
Definition mro_entries (b : PyType) (later : list PyType) : list PyType :=
  match b with
  | TAlias o _ => if same o Generic && existsb is_alias later then [] else [o]
  | _ => [b]
  end.

(** [types.resolve_bases] *)
Fixpoint resolve_bases (bs : list PyType) : list PyType :=
  match bs with
  | [] => []
  | b :: later => mro_entries b later ++ resolve_bases later
  end.

Definition declared_bases (c : PyType) : list PyType :=
  match c with TClass _ _ bs => bs | _ => [] end.

(** [c.__bases__] *)
Definition bases (c : PyType) : list PyType := resolve_bases (declared_bases c).

(** [typing.get_args] *)
Definition get_args (t : PyType) : list PyType :=
  match t with TAlias _ args => args | _ => [] end.

(** The [__orig_bases__] entry the class statement leaves in the class's own
    namespace: the bases as written, when one of them is a subscripted
    generic; nothing otherwise. *)
Definition own_orig_bases (c : PyType) : option (list PyType) :=
  match c with
  | TClass _ _ bs => if existsb is_alias bs then Some bs else None
  | _ => None
  end.

(** *** C3 linearization ([type.mro]) *)

Definition in_tail (c : PyType) (s : list PyType) : bool :=
  match s with [] => false | _ :: tl => existsb (same c) tl end.

Definition good_head (seqs : list (list PyType)) (c : PyType) : bool :=
  negb (existsb (in_tail c) seqs).

Fixpoint pick_head (all seqs : list (list PyType)) : option PyType :=
  match seqs with
  | [] => None
  | [] :: rest => pick_head all rest
  | (c :: _) :: rest => if good_head all c then Some c else pick_head all rest
  end.

Definition drop_head (c : PyType) (s : list PyType) : list PyType :=
  match s with
  | [] => []
  | h :: tl => if same h c then tl else s
  end.

Definition nonempty {A} (l : list A) : bool :=
  match l with [] => false | _ => true end.

Fixpoint merge (fuel : nat) (seqs : list (list PyType)) : option (list PyType) :=
  let seqs := filter (λ s, nonempty s = true) seqs in
  match seqs with
  | [] => Some []
  | _ =>
      match fuel with
      | O => None
      | S fuel' =>
          match pick_head seqs seqs with
          | None => None     (* no consistent method resolution order *)
          | Some c => cons c <$> merge fuel' (drop_head c <$> seqs)
          end
      end
  end.

Definition total_length (seqs : list (list PyType)) : nat :=
  foldr (λ s n, length s + n)%nat 0%nat seqs.

Definition all_some {A} (l : list (option A)) : option (list A) :=
  foldr (λ o acc, match o, acc with Some x, Some xs => Some (x :: xs) | _, _ => None end)
        (Some []) l.

(** [c.__mro__], merging the linearizations of the resolved bases with the
    list of these bases; [None] when there is no linearization (the class
    statement then raises and no class object comes to exist). *)
Fixpoint mro (c : PyType) : option (list PyType) :=
  match c with
  | TClass _ _ bs =>
      let linearizations :=
        (fix go (bs : list PyType) : list (option (list PyType)) :=
           match bs with
           | [] => []
           | b :: later =>
               match b with
               | TAlias o _ =>
                   if same o Generic && existsb is_alias later then go later
                   else mro o :: go later
               | TClass _ _ _ => mro b :: go later
               | TVar _ => None :: go later
               end
           end) bs in
      ls ← all_some linearizations;
      let seqs := ls ++ [resolve_bases bs] in
      cons c <$> merge (S (total_length seqs)) seqs
  | _ => None
  end.

(** [c.__orig_bases__]: the first class along the linearization whose own
    namespace holds the attribute. *)
Definition getattr_orig_bases (c : PyType) : Result (list PyType) :=
  match mro c with
  | None => Raise TypeError
  | Some l =>
      match omap own_orig_bases l with
      | ob :: _ => Ok ob
      | [] => Raise (AttributeError "__orig_bases__")
      end
  end.

(** [t[i]] on a tuple *)
Definition tuple_getitem {A} (t : list A) (i : nat) : Result A :=
  match t !! i with
  | Some x => Ok x
  | None => Raise IndexError
  end.

(** No class object stands twice in the list. *)
Fixpoint distinct (l : list PyType) : bool :=
  match l with
  | [] => true
  | c :: tl => same c c && negb (existsb (same c) tl) && distinct tl
  end.

End Class.

(** The other classes the module builds on. *)
Definition ABC : PyType := TClass 2 "ABC" [object].
Definition BaseModel : PyType := TClass 4 "BaseModel" [object].
Definition StrategySettings_cls : PyType := TClass 5 "StrategySettings" [BaseModel].
Definition _StrategySettings : PyType := TVar "_StrategySettings".

(** [class BaseStrategy(abc.ABC, Generic[_StrategySettings])] *)
Definition BaseStrategy : PyType :=
  TClass 6 "BaseStrategy" [ABC; TAlias Generic [_StrategySettings]].

(** ** The interpreter state the registry reads *)

(** What [get_all] can observe of the running interpreter: the class objects
    created so far, in creation order; whether the package
    [robusta_krr.strategies] has been imported; and the class objects that
    package creates when it is first imported. *)
Record World : Type := mkWorld {
  classes : list PyType;
  strategies_imported : bool;
  strategies_package : list PyType;
}.

(** A computation that may raise and may change the interpreter state. *)
Definition Py (A : Type) : Type := World → Result A * World.

#[export] Instance py_ret : MRet Py := λ A a w, (Ok a, w).
#[export] Instance py_bind : MBind Py :=
  λ A B k m w, match m w with
               | (Ok a, w') => k a w'
               | (Raise e, w') => (Raise e, w')
               end.

Definition raise {A} (e : PyExc) : Py A := λ w, (Raise e, w).
Definition lift {A} (r : Result A) : Py A := λ w, (r, w).

(** [from robusta_krr import strategies as _]: the first import runs the
    package, which defines the built-in strategies; later ones find it in
    [sys.modules]. *)
Definition import_strategies : Py unit := λ w,
  if strategies_imported w then (Ok tt, w)
  else (Ok tt, {| classes := classes w ++ strategies_package w;
                  strategies_imported := true;
                  strategies_package := strategies_package w |}).

(** [cls.__subclasses__()]: the classes that name [cls] among their bases, in
    the order they were created. *)
Definition subclasses (cls : PyType) : Py (list PyType) := λ w,
  (Ok (filter (λ c, existsb (Class.same cls) (Class.bases c) = true) (classes w)), w).

(** ** BaseStrategy *)

Module BaseStrategy.

(** An instance of a strategy class: its class and the one attribute
    [__init__] sets. *)
Record Strategy (S : Type) : Type := mkStrategy {
  type_of : PyType;
  settings : S;
}.
Arguments mkStrategy {S}.
Arguments type_of {S}.
Arguments settings {S}.

(** [cls(settings)]: [__init__] stores the settings it is given. *)
Definition __init__ {S} (cls : PyType) (settings : S) : Strategy S :=
  {| type_of := cls; settings := settings |}.

Section Registry.

(** [sub_cls.__display_name__], as the descriptor installed by
    [add_display_name(postfix="Strategy")] (robusta_krr.utils.display_name)
    computes it for a class. *)
Variable display_name : PyType → string.

(** [{sub_cls.__display_name__.lower(): sub_cls for sub_cls in cls.__subclasses__()}] *)
Definition get_all (cls : PyType) : Py (Dict.t PyType) :=
  import_strategies;;
  subs ← subclasses cls;
  mret (Dict.comprehension (λ sub_cls, Str.lower (display_name sub_cls))
                           (λ sub_cls, sub_cls) subs).

Definition unknown_strategy_message (name : string) (strategies : Dict.t PyType) : string :=
  "Unknown strategy name: " +:+ name +:+ ". Available strategies: "
    +:+ Str.join ", " (Dict.keys strategies).

Definition find (cls : PyType) (name : string) : Py PyType :=
  strategies ← get_all cls;
  if Dict.mem (Str.lower name) strategies
  then lift (Dict.getitem strategies (Str.lower name))
  else raise (ValueError (unknown_strategy_message name strategies)).

(** [self.__display_name__.title()] *)
Definition __str__ {S} (self : Strategy S) : string :=
  Str.title (display_name (type_of self)).

End Registry.

(** [get_args(cls.__orig_bases__[0])[0]] *)
Definition get_settings_type (cls : PyType) : Result PyType :=
  orig_bases ← Class.getattr_orig_bases cls;
  b ← Class.tuple_getitem orig_bases 0;
  Class.tuple_getitem (Class.get_args b) 0.

End BaseStrategy.

(** ** Numbers *)

(** [decimal.Decimal]: sign, coefficient and exponent, or a special value. *)
Inductive Decimal : Type :=
| DFinite (sign : bool) (coefficient : N) (exponent : Z)
| DInfinity (sign : bool)
| DNaN (sign : bool) (signaling : bool).

Module Dec.

(** [d >= 0]; an ordering comparison with a NaN signals. *)
Definition ge_zero (d : Decimal) : Result bool :=
  match d with
  | DFinite s c _ => Ok (negb s || N.eqb c 0)
  | DInfinity s => Ok (negb s)
  | DNaN _ _ => Raise InvalidOperation
  end.

End Dec.

(** [float]: IEEE 754 binary64, as [spec_float] with 53 bits of precision. *)
Module Float.

Definition t : Type := spec_float.

Definition prec : Z := 53.
Definition emax : Z := 1024.

(** the float nearest to an integer *)
Definition of_Z (n : Z) : t := binary_normalize prec emax n 0 false.

(** [float(n)] on an int: the float nearest to [n]; [OverflowError] when
    that is beyond the largest float. *)
Definition of_int (n : Z) : Result t :=
  match of_Z n with
  | S754_infinity _ => Raise OverflowError
  | x => Ok x
  end.

(** [float(d)] on a [Decimal]: the decimal is printed and the string
    converted, which gives the float nearest to [coefficient * 10^exponent]
    (an infinity beyond the largest float); a quiet NaN gives a NaN, a
    signaling one raises [ValueError]. *)
Definition of_decimal (d : Decimal) : Result t :=
  match d with
  | DNaN _ true => Raise (ValueError "cannot convert signaling NaN to float")
  | DNaN _ false => Ok S754_nan
  | DInfinity s => Ok (S754_infinity s)
  | DFinite s 0%N _ => Ok (S754_zero s)
  | DFinite s (Npos c) e =>
      if (0 <=? e)%Z
      then Ok (binary_normalize prec emax (cond_Zopp s (Zpos c * 10 ^ e)) 0 s)
      else
        let '(m, e', l) := SFdiv_core_binary prec emax (Zpos c) 0 (10 ^ (- e)) 0 in
        Ok (binary_round_aux prec emax s m e' l)
  end.

Definition mul (x y : t) : t := SFmul prec emax x y.
Definition add (x y : t) : t := SFadd prec emax x y.

(** [x >= n] for an int [n] that a float holds exactly *)
Definition ge_int (x : t) (n : Z) : bool := SFleb (of_Z n) x.
Definition lt_int (x : t) (n : Z) : bool := SFltb x (of_Z n).

(** [x == 0.0] *)
Definition is_zero (x : t) : bool :=
  match x with S754_zero _ => true | _ => false end.

(** C's [modf], second result, converted by [PyLong_FromDouble]: the
    integral part of [x], truncated toward zero. *)
Definition trunc (x : t) : Result Z :=
  match x with
  | S754_nan => Raise (ValueError "cannot convert float NaN to integer")
  | S754_infinity _ => Raise OverflowError
  | S754_zero _ => Ok 0%Z
  | S754_finite s m e =>
      Ok (cond_Zopp s (if (0 <=? e)%Z then Z.shiftl (Zpos m) e
                       else Z.shiftr (Zpos m) (- e)))
  end.

(** C's [modf], first result: the fractional part, with the sign of [x]. *)
Definition frac (x : t) : t :=
  match x with
  | S754_nan => S754_nan
  | S754_infinity s => S754_zero s
  | S754_zero s => S754_zero s
  | S754_finite s m e =>
      if (0 <=? e)%Z then S754_zero s
      else binary_normalize prec emax
             (cond_Zopp s (Z.land (Zpos m) (Z.ones (- e)))) e s
  end.

(** C's [round], as an integer: nearest, halfway cases away from zero. *)
Definition round_half_away (x : t) : Z :=
  match x with
  | S754_finite s m e =>
      if (0 <=? e)%Z then cond_Zopp s (Z.shiftl (Zpos m) e)
      else
        let q := Z.shiftr (Zpos m) (- e) in
        let r := Z.land (Zpos m) (Z.ones (- e)) in
        cond_Zopp s (if (Z.shiftl 1 (- e) <=? 2 * r)%Z then q + 1 else q)%Z
  | _ => 0%Z
  end.

(** [fabs(round(x) - x) == 0.5] *)
Definition is_halfway (x : t) : bool :=
  match x with
  | S754_finite s m e =>
      if (0 <=? e)%Z then false
      else (2 * Z.land (Zpos m) (Z.ones (- e)) =? Z.shiftl 1 (- e))%Z
  | _ => false
  end.

(** The float of sign [s] with mantissa [m] at exponent [e]: a zero, an
    infinity past the largest exponent. *)
Definition rounded (s : bool) (m e : Z) : t :=
  match m with
  | Z0 => S754_zero s
  | Zpos p => if (e <=? 971)%Z then S754_finite s p e else S754_infinity s
  | Zneg _ => S754_nan
  end.

(** [count] is [x * factor] rounded to a nearest whole number, up to the
    rounding of one float product: no more than [1/2 + 2^-19] away from
    [x * factor], in exact arithmetic on the number [x] stands for,
    [m * 2^e] with its sign. *)
Definition close (count : Z) (x : t) (factor : Z) : Prop :=
  match x with
  | S754_zero _ => count = 0%Z
  | S754_finite s m e =>
      if (0 <=? e)%Z then (count = cond_Zopp s (Zpos m * 2 ^ e) * factor)%Z
      else (2 ^ 19 * Z.abs (count * 2 ^ (- e) - cond_Zopp s (Zpos m) * factor)
            ≤ (2 ^ 18 + 1) * 2 ^ (- e))%Z
  | _ => False
  end.

(** [x * factor] is the whole number [count]. *)
Definition exactly (count : Z) (x : t) (factor : Z) : Prop :=
  match x with
  | S754_zero _ => count = 0%Z
  | S754_finite s m e =>
      if (0 <=? e)%Z then (count = cond_Zopp s (Zpos m * 2 ^ e) * factor)%Z
      else (count * 2 ^ (- e) = cond_Zopp s (Zpos m) * factor)%Z
  | _ => False
  end.

(** Magnitude bounds: [m * 2^e < 2^K], and the same for a float that is zero
    or finite. *)
Definition below (K : Z) (m : positive) (e : Z) : Prop := (Zpos m < 2 ^ (K - e))%Z.

Definition fbelow (K : Z) (f : t) : Prop :=
  match f with
  | S754_zero _ => True
  | S754_finite _ m e => below K m e
  | _ => False
  end.

End Float.

(** A number as a settings object can hold it: the defaults of the schema are
    ints, validated input is a float. *)
Inductive PyNum : Type :=
| NInt (n : Z)
| NFloat (x : Float.t).

(** [int(v)] *)
Definition num_trunc (v : PyNum) : Result Z :=
  match v with
  | NInt z => Ok z
  | NFloat x => Float.trunc x
  end.

(** [v] is the whole number [n]: the int [n], or a float without fractional
    part whose integral part is [n]. *)
Definition num_is_whole (v : PyNum) (n : Z) : Prop :=
  match v with
  | NInt z => z = n
  | NFloat x => Float.trunc x = Ok n ∧ Float.is_zero (Float.frac x) = true
  end.

(** [v] is a binary64 value (as every Python float is). *)
Definition num_binary64 (v : PyNum) : Prop :=
  match v with
  | NInt _ => True
  | NFloat x => valid_binary Float.prec Float.emax x = true
  end.

(** [count] is [v * factor] rounded to a nearest whole number
    ([Float.close]). *)
Definition num_close (count : Z) (v : PyNum) (factor : Z) : Prop :=
  match v with
  | NInt n => count = (n * factor)%Z
  | NFloat x => Float.close count x factor
  end.

(** [v * factor] is the whole number [count]. *)
Definition num_exactly (count : Z) (v : PyNum) (factor : Z) : Prop :=
  match v with
  | NInt n => count = (n * factor)%Z
  | NFloat x => Float.exactly count x factor
  end.

(** ** datetime.timedelta *)

Module Timedelta.

Record t : Type := mk { days : Z; seconds : Z; microseconds : Z }.

Definition us_per_second : Z := 1000000.
Definition us_per_minute : Z := 60000000.
Definition us_per_hour : Z := 3600000000.
Definition seconds_per_day : Z := 86400.
Definition MAX_DELTA_DAYS : Z := 999999999.

Definition total_microseconds (d : t) : Z :=
  (days d * seconds_per_day + seconds d) * us_per_second + microseconds d.

(** Adds [num * factor] microseconds to [sofar]; what a float leaves below
    one microsecond goes to [leftover]. *)
Definition accum (sofar : Z) (num : PyNum) (factor : Z) (leftover : Float.t)
  : Result (Z * Float.t) :=
  match num with
  | NInt n => Ok (sofar + n * factor, leftover)%Z
  | NFloat dnum =>
      x ← Float.trunc dnum;
      let sum := (sofar + x * factor)%Z in
      let fracpart := Float.frac dnum in
      if Float.is_zero fracpart then Ok (sum, leftover)
      else
        let dnum := Float.mul (Float.of_Z factor) fracpart in
        x ← Float.trunc dnum;
        Ok ((sum + x)%Z, Float.add leftover (Float.frac dnum))
  end.

(** The whole microseconds [leftover_us] rounds to, halfway cases going to
    the side that makes [x] even. *)
Definition round_leftover (x : Z) (leftover_us : Float.t) : Z :=
  if Float.is_zero leftover_us then 0%Z
  else if Float.is_halfway leftover_us then
    let x_is_odd := (if Z.odd x then 1 else 0)%Z in
    (2 * Float.round_half_away
           (Float.mul (Float.add leftover_us (Float.of_Z x_is_odd))
                      (S754_finite false 4503599627370496 (-53)))
     - x_is_odd)%Z
  else Float.round_half_away leftover_us.

(** Splits a count of microseconds into days, seconds and microseconds and
    checks the range of the days. *)
Definition of_microseconds (us : Z) : Result t :=
  let s := (us `div` us_per_second)%Z in
  let us := (us `mod` us_per_second)%Z in
  let d := (s `div` seconds_per_day)%Z in
  let s := (s `mod` seconds_per_day)%Z in
  if ((- MAX_DELTA_DAYS <=? d) && (d <=? MAX_DELTA_DAYS))%Z
  then Ok (mk d s us)
  else Raise OverflowError.

Definition new_with (num : PyNum) (factor : Z) : Result t :=
  '(x, leftover_us) ← accum 0 num factor (S754_zero false);
  of_microseconds (x + round_leftover x leftover_us).

(** [datetime.timedelta(hours=h)] *)
Definition of_hours (h : PyNum) : Result t := new_with h us_per_hour.

(** [datetime.timedelta(minutes=m)] *)
Definition of_minutes (m : PyNum) : Result t := new_with m us_per_minute.

End Timedelta.

(** ** pydantic.BaseModel *)

Module Pydantic.

(** The outcome of a field's validators on one raw value: the validated
    value; an error, which the model collects (a validator raised
    [ValueError], [TypeError] or [AssertionError]); or any other exception
    raised by a validator, which nothing catches. *)
Inductive Validated (O : Type) : Type :=
| Valid (v : O)
| Invalid (e : PydanticError)
| Uncaught (exc : PyExc).
Arguments Valid {O} v.
Arguments Invalid {O} e.
Arguments Uncaught {O} exc.

(** A declared field: raw values of type [I] are validated into stored
    values of type [O]. A field that is not required has a default, which
    is stored as it stands. *)
Record ModelField (I O : Type) : Type := mkField {
  name : string;
  required : bool;
  default : O;
  validate : I → Validated O;
}.
Arguments mkField {I O}.
Arguments name {I O}.
Arguments required {I O}.
Arguments default {I O}.
Arguments validate {I O}.

(** One turn of the loop of [validate_model]: the field is looked up in the
    input; a missing one takes its default (or is an error when required),
    a present one goes through the validators. *)
Definition validate_field {I O} (input_data : gmap string I)
    (acc : gmap string O * list (string * PydanticError)) (field : ModelField I O)
  : Result (gmap string O * list (string * PydanticError)) :=
  let '(values, errors) := acc in
  match input_data !! name field with
  | None =>
      if required field then Ok (values, errors ++ [(name field, MissingError)])
      else Ok (<[name field := default field]> values, errors)
  | Some v =>
      match validate field v with
      | Valid v' => Ok (<[name field := v']> values, errors)
      | Invalid e => Ok (values, errors ++ [(name field, e)])
      | Uncaught exc => Raise exc
      end
  end.

(** The loop itself: the declared fields are visited in declaration order,
    and an exception that a validator lets through ends the loop. *)
Fixpoint validate_fields {I O} (fields : list (ModelField I O)) (input_data : gmap string I)
    (acc : gmap string O * list (string * PydanticError))
  : Result (gmap string O * list (string * PydanticError)) :=
  match fields with
  | [] => Ok acc
  | field :: fields' =>
      acc' ← validate_field input_data acc field;
      validate_fields fields' input_data acc'
  end.

(** [validate_model]. Keys of the input that no field declares are not
    looked at ([Config.extra] is [ignore]). Returns the values of the fields
    and the errors met. *)
Definition validate_model {I O} (fields : list (ModelField I O)) (input_data : gmap string I)
  : Result (gmap string O * list (string * PydanticError)) :=
  validate_fields fields input_data (∅, []).

(** [BaseModel.__init__] on keyword arguments [data]: the new object's [__dict__] holds the
    validated values; any error raises [ValidationError]. *)
Definition init {I O} (fields : list (ModelField I O)) (data : gmap string I)
  : Result (gmap string O) :=
  '(values, errors) ← validate_model fields data;
  match errors with
  | [] => Ok values
  | _ => Raise (ValidationError errors)
  end.

(** [obj.attr] for a field of a model object *)
Definition getattr {O} (obj : gmap string O) (attr : string) : Result O :=
  match obj !! attr with
  | Some v => Ok v
  | None => Raise (AttributeError attr)
  end.

End Pydantic.

(** ** ResourceRecommendation *)

Module ResourceRecommendation.

(** A keyword argument for an [Optional[Decimal]] field: [None] or a
    [Decimal]. Both are stored as given. *)
Definition optional_decimal (v : option Decimal) : Pydantic.Validated (option Decimal) :=
  Pydantic.Valid v.

(** [request: Optional[Decimal]] and [limit: Optional[Decimal]]: an
    [Optional] annotation without a default makes the field not required,
    with default [None]. *)
Definition fields : list (Pydantic.ModelField (option Decimal) (option Decimal)) :=
  [ Pydantic.mkField "request" false None optional_decimal;
    Pydantic.mkField "limit" false None optional_decimal ].

Abbreviation t := (gmap string (option Decimal)) (only parsing).

(** [ResourceRecommendation(...)] on keyword arguments [data] *)
Definition new (data : gmap string (option Decimal)) : Result t :=
  Pydantic.init fields data.

Definition request (self : t) : Result (option Decimal) := Pydantic.getattr self "request".
Definition limit (self : t) : Result (option Decimal) := Pydantic.getattr self "limit".

End ResourceRecommendation.

(** ** StrategySettings *)

(** What [float(v)] does on an object [v]: it returns a float, or raises. *)
Inductive FloatCall : Type :=
| FloatReturns (x : Float.t)
| FloatRaises (exc : PyExc).

(** A raw settings value: [None], a float, an int (a bool is the int 0 or
    1), a [Decimal], or an object of any other type (a str, say), which
    validation knows only through the call [float(v)]. *)
Inductive PyVal : Type :=
| VNone
| VFloat (x : Float.t)
| VInt (n : Z)
| VDecimal (d : Decimal)
| VObject (float_call : FloatCall).

Module StrategySettings.

(** [v >= 1] on a stored number *)
Definition num_ge (v : PyNum) (n : Z) : bool :=
  match v with
  | NInt z => (n <=? z)%Z
  | NFloat x => Float.ge_int x n
  end.

(** [float(v)] *)
Definition float_call (v : PyVal) : Result Float.t :=
  match v with
  | VNone => Raise TypeError
  | VFloat x => Ok x
  | VInt n => Float.of_int n
  | VDecimal d => Float.of_decimal d
  | VObject (FloatReturns x) => Ok x
  | VObject (FloatRaises exc) => Raise exc
  end.

(** [except (TypeError, ValueError)] *)
Definition caught (exc : PyExc) : bool :=
  match exc with
  | TypeError | ValueError _ => true
  | _ => false
  end.

(** [float_validator]: a float is taken as it is, anything else is
    converted by [float(v)]; a [TypeError] or [ValueError] of the conversion
    is a validation error, any other exception goes through. *)
Definition float_validator (v : PyVal) : Pydantic.Validated Float.t :=
  match v with
  | VFloat x => Pydantic.Valid x
  | _ =>
      match float_call v with
      | Ok x => Pydantic.Valid x
      | Raise exc =>
          if caught exc then Pydantic.Invalid FloatError else Pydantic.Uncaught exc
      end
  end.

(** A [float] field declared with [ge=limit]: [None] is not allowed; the
    value is converted to a float, which must not be below the limit. *)
Definition float_ge (limit : Z) (v : PyVal) : Pydantic.Validated PyNum :=
  match v with
  | VNone => Pydantic.Invalid NoneIsNotAllowedError
  | _ =>
      match float_validator v with
      | Pydantic.Valid x =>
          if negb (Float.ge_int x limit) then Pydantic.Invalid (NumberNotGeError limit)
          else Pydantic.Valid (NFloat x)
      | Pydantic.Invalid e => Pydantic.Invalid e
      | Pydantic.Uncaught exc => Pydantic.Uncaught exc
      end
  end.

Definition fields : list (Pydantic.ModelField PyVal PyNum) :=
  [ Pydantic.mkField "history_duration" false (NInt (24 * 7 * 2)) (float_ge 1);
    Pydantic.mkField "timeframe_duration" false (NInt 15) (float_ge 1) ].

Abbreviation t := (gmap string PyNum) (only parsing).

(** [StrategySettings(...)] on keyword arguments [data] *)
Definition new (data : gmap string PyVal) : Result t :=
  Pydantic.init fields data.

Definition history_duration (self : t) : Result PyNum :=
  Pydantic.getattr self "history_duration".
Definition timeframe_duration (self : t) : Result PyNum :=
  Pydantic.getattr self "timeframe_duration".

(** [datetime.timedelta(hours=self.history_duration)] *)
Definition history_timedelta (self : t) : Result Timedelta.t :=
  h ← history_duration self;
  Timedelta.of_hours h.

(** [datetime.timedelta(minutes=self.timeframe_duration)] *)
Definition timeframe_timedelta (self : t) : Result Timedelta.t :=
  m ← timeframe_duration self;
  Timedelta.of_minutes m.

End StrategySettings.

(** ** A registry to run the definitions on

    The scenario of the specification: the strategies "simple" and "margin",
    defined by the package [robusta_krr.strategies]; and a third class,
    defined afterwards, whose display name differs from "Simple" in case
    only. *)

Module Example.

Definition SimpleStrategySettings : PyType :=
  TClass 20 "SimpleStrategySettings" [StrategySettings_cls].
Definition MarginSettings : PyType :=
  TClass 21 "MarginSettings" [StrategySettings_cls].

(** [class SimpleStrategy(BaseStrategy[SimpleStrategySettings])] *)
Definition SimpleStrategy : PyType :=
  TClass 22 "SimpleStrategy" [TAlias BaseStrategy [SimpleStrategySettings]].
(** [class MarginStrategy(BaseStrategy[MarginSettings])] *)
Definition MarginStrategy : PyType :=
  TClass 23 "MarginStrategy" [TAlias BaseStrategy [MarginSettings]].
(** [class SIMPLEStrategy(BaseStrategy[SimpleStrategySettings])] *)
Definition SIMPLEStrategy : PyType :=
  TClass 24 "SIMPLEStrategy" [TAlias BaseStrategy [SimpleStrategySettings]].
(** [class BrokenStrategy(BaseStrategy)] *)
Definition BrokenStrategy : PyType :=
  TClass 25 "BrokenStrategy" [BaseStrategy].
(** [class AuditMixin] *)
Definition AuditMixin : PyType := TClass 26 "AuditMixin" [object].

(** [class GMixin(Generic[T])] and [int] *)
Definition GMixin : PyType := TClass 27 "GMixin" [TAlias Generic [TVar "T"]].
Definition int : PyType := TClass 28 "int" [object].

(** The display name as the descriptor of [add_display_name] computes it
    from the name of the class: without the postfix "Strategy" when the name
    ends with it, whatever the case of the letters. *)
Definition display_name (c : PyType) : string :=
  match c with
  | TClass _ name _ =>
      if Str.endswith (Str.lower name) "strategy"
      then substring 0 (String.length name - 8) name
      else name
  | _ => ""
  end.

Definition builtin : list PyType :=
  [object; ABC; Generic; BaseModel; StrategySettings_cls; BaseStrategy].

Definition package : list PyType :=
  [SimpleStrategySettings; SimpleStrategy; MarginSettings; MarginStrategy].

(** before and after the first import of the package *)
Definition fresh : World := mkWorld builtin false package.
Definition loaded : World := mkWorld (builtin ++ package) true package.

(** after a plugin has defined [SIMPLEStrategy] *)
Definition extended : World :=
  mkWorld (builtin ++ package ++ [SIMPLEStrategy]) true package.

Definition strategies : Dict.t PyType :=
  [("simple", SimpleStrategy); ("margin", MarginStrategy)].

End Example.

(** * Properties *)

(** ** str *)

Lemma lower_ascii_idemp (c : ascii) :
  Str.lower_ascii (Str.lower_ascii c) = Str.lower_ascii c.
Proof. destruct c as [[] [] [] [] [] [] [] []]; reflexivity. Qed.

Lemma lower_idemp (s : string) : Str.lower (Str.lower s) = Str.lower s.
Proof.
  induction s as [|c s IH]; simpl; [done|].
  by rewrite lower_ascii_idemp, IH.
Qed.

Lemma string_app_nil_r (s : string) : s +:+ "" = s.
Proof.
  induction s as [|c s IH]; [done|].
  change (String c (s +:+ "") = String c s). by rewrite IH.
Qed.

Lemma string_app_assoc (a b c : string) : (a +:+ b) +:+ c = a +:+ (b +:+ c).
Proof.
  induction a as [|x a IH]; [done|].
  change (String x ((a +:+ b) +:+ c) = String x (a +:+ (b +:+ c))). by rewrite IH.
Qed.

Lemma contains_refl (s : string) : Str.contains s s.
Proof. exists "", "". change (s = s +:+ ""). by rewrite string_app_nil_r. Qed.

Lemma contains_app_l (a b sub : string) : Str.contains a sub → Str.contains (a +:+ b) sub.
Proof.
  intros (pre & post & ->). exists pre, (post +:+ b).
  by rewrite !string_app_assoc.
Qed.

Lemma contains_app_r (a b sub : string) : Str.contains b sub → Str.contains (a +:+ b) sub.
Proof.
  intros (pre & post & ->). exists (a +:+ pre), post.
  by rewrite !string_app_assoc.
Qed.

Lemma join_contains (sep : string) (l : list string) (k : string) :
  k ∈ l → Str.contains (Str.join sep l) k.
Proof.
  induction l as [|x [|y l] IH]; intros Hk.
  - by apply elem_of_nil in Hk.
  - apply list_elem_of_singleton in Hk as ->. apply contains_refl.
  - apply elem_of_cons in Hk as [->|Hk].
    + change (Str.join sep (x :: y :: l)) with (x +:+ sep +:+ Str.join sep (y :: l)).
      apply contains_app_l, contains_refl.
    + change (Str.join sep (x :: y :: l)) with (x +:+ sep +:+ Str.join sep (y :: l)).
      apply contains_app_r, contains_app_r, IH, Hk.
Qed.

(** ** dict *)

Section DictFacts.
Context {V : Type}.
Implicit Types (d : Dict.t V) (k : string) (v : V).

Lemma dict_get_setitem_eq d k v : Dict.get k (Dict.setitem k v d) = Some v.
Proof.
  induction d as [|[k' v'] d IH]; simpl.
  - by rewrite decide_True.
  - destruct (decide (k' = k)) as [->|Hne]; simpl.
    + by rewrite decide_True.
    + by rewrite decide_False.
Qed.

Lemma dict_get_setitem_ne d k k' v :
  k ≠ k' → Dict.get k' (Dict.setitem k v d) = Dict.get k' d.
Proof.
  intros Hne. induction d as [|[k0 v0] d IH]; simpl.
  - by rewrite decide_False.
  - destruct (decide (k0 = k)) as [->|Hne0]; simpl.
    + by rewrite !decide_False.
    + by rewrite IH.
Qed.

Lemma dict_get_None_keys d k : Dict.get k d = None ↔ k ∉ Dict.keys d.
Proof.
  unfold Dict.keys. induction d as [|[k' v'] d IH]; simpl.
  - split; [intros _; apply not_elem_of_nil | done].
  - rewrite not_elem_of_cons. destruct (decide (k' = k)) as [->|Hne].
    + split; [done | intros [? _]; done].
    + rewrite IH. split; [intros ?; split; [congruence | done] | intros [_ ?]; done].
Qed.

Lemma dict_mem_keys d k : Dict.mem k d = true ↔ k ∈ Dict.keys d.
Proof.
  unfold Dict.mem. destruct (Dict.get k d) eqn:Hg.
  - split; [intros _ | done].
    destruct (decide (k ∈ Dict.keys d)) as [|Hn]; [done|].
    apply dict_get_None_keys in Hn. congruence.
  - apply dict_get_None_keys in Hg. split; [done | intros ?; done].
Qed.

(** Assigning to a key keeps the order of the keys: a new key goes last, a
    present one stays where it is. *)
Lemma dict_keys_setitem d k v :
  Dict.keys (Dict.setitem k v d) =
    if decide (k ∈ Dict.keys d) then Dict.keys d else Dict.keys d ++ [k].
Proof.
  unfold Dict.keys. induction d as [|[k' v'] d IH]; [done|].
  cbn [Dict.setitem]. destruct (decide (k' = k)) as [->|Hne]; csimpl.
  - rewrite decide_True; [done | apply list_elem_of_here].
  - rewrite IH. destruct (decide (k ∈ d.*1)) as [Hin|Hnin].
    + rewrite decide_True; [done | by apply list_elem_of_further].
    + rewrite decide_False; [done|].
      rewrite not_elem_of_cons. split; [congruence | done].
Qed.

Lemma dict_keys_setitem_NoDup d k v :
  NoDup (Dict.keys d) → NoDup (Dict.keys (Dict.setitem k v d)).
Proof.
  intros Hnd. rewrite dict_keys_setitem. case_decide; [done|].
  apply NoDup_app. split_and!; [done | | apply NoDup_singleton].
  intros x Hx ->%list_elem_of_singleton. done.
Qed.

Lemma dict_elem_of_setitem d k v k' v' :
  (k', v') ∈ Dict.setitem k v d → (k' = k ∧ v' = v) ∨ (k', v') ∈ d.
Proof.
  induction d as [|[k0 v0] d IH]; simpl.
  - intros [= -> ->]%list_elem_of_singleton. by left.
  - destruct (decide (k0 = k)) as [->|Hne].
    + intros [[= -> ->]|H]%elem_of_cons; [by left|].
      right. by apply list_elem_of_further.
    + intros [[= -> ->]|H]%elem_of_cons; [right; apply list_elem_of_here|].
      destruct (IH H) as [?|?]; [by left|].
      right. by apply list_elem_of_further.
Qed.

Lemma dict_NoDup_elem_of_get d k v :
  NoDup (Dict.keys d) → (k, v) ∈ d → Dict.get k d = Some v.
Proof.
  unfold Dict.keys. induction d as [|[k' v'] d IH]; simpl.
  - intros _ H. by apply elem_of_nil in H.
  - intros [Hk Hnd]%NoDup_cons [[= -> ->]|H]%elem_of_cons.
    + by rewrite decide_True.
    + rewrite decide_False; [by apply IH|].
      intros ->. apply Hk. apply list_elem_of_fmap. by exists (k, v).
Qed.

(** Under distinct keys, a key that is present heads exactly one entry. *)
Lemma dict_NoDup_one_entry d k :
  NoDup (Dict.keys d) → k ∈ Dict.keys d →
  length (filter (λ kv, kv.1 = k) d) = 1%nat.
Proof.
  unfold Dict.keys. induction d as [|[k' v'] d IH].
  - intros _ H. by apply elem_of_nil in H.
  - rewrite fmap_cons. intros [Hk Hnd]%NoDup_cons Hin.
    rewrite filter_cons. cbn [fst].
    destruct (decide (k' = k)) as [->|Hne].
    + cbn [length]. f_equal. apply length_zero_iff_nil.
      destruct (filter (λ kv : string * V, kv.1 = k) d) as [|[k0 v0] rest] eqn:Hf; [done|].
      assert (Hin0 : (k0, v0) ∈ filter (λ kv : string * V, kv.1 = k) d)
        by (rewrite Hf; apply list_elem_of_here).
      apply list_elem_of_filter in Hin0 as [Hk0 Hd]. cbn [fst] in Hk0. subst k0.
      exfalso. apply Hk. apply list_elem_of_fmap. by exists (k, v0).
    + apply IH; [done|]. apply elem_of_cons in Hin as [->|?]; done.
Qed.

End DictFacts.

Section ComprehensionFacts.
Context {A V : Type} (key : A → string) (val : A → V).

Let step : Dict.t V → A → Dict.t V := λ d x, Dict.setitem (key x) (val x) d.

Lemma dict_fold_NoDup (l : list A) (d : Dict.t V) :
  NoDup (Dict.keys d) → NoDup (Dict.keys (fold_left step l d)).
Proof.
  revert d. induction l as [|x l IH]; intros d Hd; simpl; [done|].
  apply IH, dict_keys_setitem_NoDup, Hd.
Qed.

Lemma dict_fold_elem_of (l : list A) (d : Dict.t V) k v :
  (k, v) ∈ fold_left step l d →
  (k, v) ∈ d ∨ ∃ x, x ∈ l ∧ k = key x ∧ v = val x.
Proof.
  revert d. induction l as [|x l IH]; intros d H; simpl in H; [by left|].
  destruct (IH _ H) as [H'|(y & Hy & -> & ->)].
  - destruct (dict_elem_of_setitem _ _ _ _ _ H') as [[-> ->]|?]; [|by left].
    right. exists x. split_and!; [apply list_elem_of_here | done | done].
  - right. exists y. split_and!; [by apply list_elem_of_further | done | done].
Qed.

Lemma dict_fold_get_other (l : list A) (d : Dict.t V) k :
  (∀ y, y ∈ l → key y ≠ k) →
  Dict.get k (fold_left step l d) = Dict.get k d.
Proof.
  revert d. induction l as [|x l IH]; intros d Hl; simpl; [done|].
  rewrite IH.
  - apply dict_get_setitem_ne, Hl, list_elem_of_here.
  - intros y Hy. by apply Hl, list_elem_of_further.
Qed.

Lemma dict_fold_keys_incl (l : list A) (d : Dict.t V) k :
  k ∈ Dict.keys d → k ∈ Dict.keys (fold_left step l d).
Proof.
  revert d. induction l as [|x l IH]; intros d Hk; simpl; [done|].
  apply IH. unfold step. rewrite dict_keys_setitem. case_decide; [done|].
  apply elem_of_app. by left.
Qed.

Lemma comprehension_NoDup (l : list A) : NoDup (Dict.keys (Dict.comprehension key val l)).
Proof. apply dict_fold_NoDup, NoDup_nil_2. Qed.

Lemma comprehension_elem_of (l : list A) k v :
  (k, v) ∈ Dict.comprehension key val l → ∃ x, x ∈ l ∧ k = key x ∧ v = val x.
Proof.
  intros [H|H]%dict_fold_elem_of; [by apply elem_of_nil in H | done].
Qed.

(** The value under a key is the one of the last element that produced it. *)
Lemma comprehension_get_last (l1 l2 : list A) (x : A) :
  (∀ y, y ∈ l2 → key y ≠ key x) →
  Dict.get (key x) (Dict.comprehension key val (l1 ++ x :: l2)) = Some (val x).
Proof.
  intros Hl2. unfold Dict.comprehension.
  rewrite fold_left_app. simpl.
  rewrite dict_fold_get_other by done.
  apply dict_get_setitem_eq.
Qed.

Lemma comprehension_keys (l : list A) (x : A) :
  x ∈ l → key x ∈ Dict.keys (Dict.comprehension key val l).
Proof.
  intros (l1 & l2 & ->)%list_elem_of_split. unfold Dict.comprehension.
  rewrite fold_left_app. simpl. apply dict_fold_keys_incl.
  rewrite dict_keys_setitem. case_decide; [done|].
  apply elem_of_app. right. apply list_elem_of_here.
Qed.

End ComprehensionFacts.

(** ** The registry *)

Section RegistryFacts.
Variable display_name : PyType → string.

Let key : PyType → string := λ sub_cls, Str.lower (display_name sub_cls).
Let ident : PyType → PyType := λ sub_cls, sub_cls.

Lemma import_strategies_twice (w w' : World) :
  import_strategies w = (Ok tt, w') → import_strategies w' = (Ok tt, w').
Proof.
  unfold import_strategies. destruct (strategies_imported w) eqn:Hw.
  - intros [= <-]. by rewrite Hw.
  - by intros [= <-].
Qed.

Lemma import_strategies_ok (w : World) : ∃ w', import_strategies w = (Ok tt, w').
Proof. unfold import_strategies. destruct (strategies_imported w); eauto. Qed.

(** [get_all] never raises: it returns the comprehension over the
    subclasses found once the built-in strategies are loaded. *)
Lemma get_all_inv (cls : PyType) (w : World) :
  ∃ w' subs,
    import_strategies w = (Ok tt, w') ∧
    subclasses cls w' = (Ok subs, w') ∧
    BaseStrategy.get_all display_name cls w = (Ok (Dict.comprehension key ident subs), w').
Proof.
  destruct (import_strategies_ok w) as [w' Hw].
  exists w', (filter (λ c, existsb (Class.same cls) (Class.bases c) = true) (classes w')).
  split_and!; [done | done |].
  unfold BaseStrategy.get_all, mbind, py_bind. by rewrite Hw.
Qed.

Lemma get_all_subclasses (cls : PyType) (w w' : World) (strategies : Dict.t PyType) :
  BaseStrategy.get_all display_name cls w = (Ok strategies, w') →
  ∃ subs, subclasses cls w' = (Ok subs, w') ∧
          strategies = Dict.comprehension key ident subs.
Proof.
  destruct (get_all_inv cls w) as (w1 & subs & _ & Hs & ->).
  intros [= <- <-]. by exists subs.
Qed.

(** The import is a one-time trigger: asking again in the resulting state
    gives the same mapping and leaves the state as it is. *)
Lemma get_all_again (cls : PyType) (w w' : World) (strategies : Dict.t PyType) :
  BaseStrategy.get_all display_name cls w = (Ok strategies, w') →
  BaseStrategy.get_all display_name cls w' = (Ok strategies, w').
Proof.
  destruct (get_all_inv cls w) as (w1 & subs & Hi & Hs & ->).
  intros [= <- <-]. apply import_strategies_twice in Hi.
  unfold BaseStrategy.get_all, mbind, py_bind. rewrite Hi.
  unfold subclasses in *. by injection Hs as <-.
Qed.

Lemma find_unfold (cls : PyType) (name : string) (w w' : World) (strategies : Dict.t PyType) :
  BaseStrategy.get_all display_name cls w = (Ok strategies, w') →
  BaseStrategy.find display_name cls name w =
    if Dict.mem (Str.lower name) strategies
    then (Dict.getitem strategies (Str.lower name), w')
    else (Raise (ValueError (BaseStrategy.unknown_strategy_message name strategies)), w').
Proof.
  intros Hget. unfold BaseStrategy.find, mbind, py_bind at 1. rewrite Hget.
  by destruct (Dict.mem (Str.lower name) strategies).
Qed.

Lemma get_all_keys_NoDup (cls : PyType) (w w' : World) (strategies : Dict.t PyType) :
  BaseStrategy.get_all display_name cls w = (Ok strategies, w') →
  NoDup (Dict.keys strategies).
Proof.
  intros (subs & _ & ->)%get_all_subclasses. apply comprehension_NoDup.
Qed.

(** Every value of the mapping sits under its own lower-cased display name. *)
Lemma get_all_values (cls : PyType) (w w' : World) (strategies : Dict.t PyType) (T : PyType) :
  BaseStrategy.get_all display_name cls w = (Ok strategies, w') →
  T ∈ Dict.values strategies →
  Dict.get (Str.lower (display_name T)) strategies = Some T.
Proof.
  intros Hget HT. pose proof (get_all_keys_NoDup _ _ _ _ Hget) as Hnd.
  apply get_all_subclasses in Hget as (subs & _ & ->).
  unfold Dict.values in HT. apply list_elem_of_fmap in HT as ([k v] & -> & Hkv).
  pose proof Hkv as (x & _ & -> & ->)%comprehension_elem_of.
  by apply dict_NoDup_elem_of_get.
Qed.

Lemma find_hit (cls : PyType) (name : string) (w w' : World)
    (strategies : Dict.t PyType) (T : PyType) :
  BaseStrategy.get_all display_name cls w = (Ok strategies, w') →
  Dict.get (Str.lower name) strategies = Some T →
  BaseStrategy.find display_name cls name w = (Ok T, w').
Proof.
  intros Hget HT. rewrite (find_unfold _ _ _ _ _ Hget).
  unfold Dict.mem, Dict.getitem. by rewrite HT.
Qed.

(** C1. Round-trip lookup: for every type [T] that is a value of the mapping
    returned by [get_all()], [find] called with the lower-cased display name
    of [T] returns exactly [T] (whether it is called in the state [get_all]
    was called in, or in the state [get_all] left). *)
Theorem find_roundtrip (cls : PyType) (w w' : World) (strategies : Dict.t PyType) (T : PyType) :
  BaseStrategy.get_all display_name cls w = (Ok strategies, w') →
  T ∈ Dict.values strategies →
  BaseStrategy.find display_name cls (Str.lower (display_name T)) w = (Ok T, w') ∧
  BaseStrategy.find display_name cls (Str.lower (display_name T)) w' = (Ok T, w').
Proof.
  intros Hget HT. pose proof (get_all_values _ _ _ _ _ Hget HT) as Hv.
  split.
  - apply (find_hit _ _ _ _ strategies); [done|]. by rewrite lower_idemp.
  - apply (find_hit _ _ _ _ strategies); [by apply get_all_again in Hget|].
    by rewrite lower_idemp.
Qed.

(** C3. Unknown-name error: when the lower-cased form of [name] is not a key
    of [get_all()], [find(name)] raises [ValueError] (the unknown strategy
    name error), and every key of [get_all()] occurs in its message. *)
Theorem find_unknown_name (cls : PyType) (name : string) (w w' : World)
    (strategies : Dict.t PyType) :
  BaseStrategy.get_all display_name cls w = (Ok strategies, w') →
  Str.lower name ∉ Dict.keys strategies →
  ∃ msg,
    BaseStrategy.find display_name cls name w = (Raise (ValueError msg), w') ∧
    msg = "Unknown strategy name: " +:+ name +:+ ". Available strategies: "
            +:+ Str.join ", " (Dict.keys strategies) ∧
    ∀ k, k ∈ Dict.keys strategies → Str.contains msg k.
Proof.
  intros Hget Hk. exists (BaseStrategy.unknown_strategy_message name strategies).
  split_and!.
  - rewrite (find_unfold _ _ _ _ _ Hget).
    destruct (Dict.mem (Str.lower name) strategies) eqn:Hm; [|done].
    by apply dict_mem_keys in Hm.
  - done.
  - intros k Hin. unfold BaseStrategy.unknown_strategy_message.
    do 3 apply contains_app_r. by apply join_contains.
Qed.

(** C4. Case-insensitive lookup: [find(name)] and [find(name.lower())] end
    alike: either both return the same type, or both raise the unknown
    strategy name [ValueError] (each message echoing the name it was given,
    followed by the same list of available names). In particular a name
    that differs from the display name of a type in the mapping only in
    letter case resolves to that type. *)
Theorem find_case_insensitive (cls : PyType) (name : string) (w w' : World)
    (strategies : Dict.t PyType) :
  BaseStrategy.get_all display_name cls w = (Ok strategies, w') →
  ((∃ T, BaseStrategy.find display_name cls name w = (Ok T, w') ∧
         BaseStrategy.find display_name cls (Str.lower name) w = (Ok T, w'))
   ∨ (BaseStrategy.find display_name cls name w =
        (Raise (ValueError (BaseStrategy.unknown_strategy_message name strategies)), w') ∧
      BaseStrategy.find display_name cls (Str.lower name) w =
        (Raise (ValueError (BaseStrategy.unknown_strategy_message (Str.lower name) strategies)), w')))
  ∧ (∀ T, T ∈ Dict.values strategies →
          Str.lower name = Str.lower (display_name T) →
          BaseStrategy.find display_name cls name w = (Ok T, w')).
Proof.
  intros Hget. split.
  - rewrite !(find_unfold _ _ _ _ _ Hget), lower_idemp.
    unfold Dict.mem, Dict.getitem.
    destruct (Dict.get (Str.lower name) strategies) as [T|]; [left; by exists T | by right].
  - intros T HT Hname. apply (find_hit _ _ _ _ strategies); [done|].
    rewrite Hname. by apply (get_all_values cls w w').
Qed.

(** C7. Name collision: when two subclasses [A] (earlier) and [B] (later)
    have the same lower-cased display name, and no subclass enumerated after
    [B] has it, the mapping holds exactly one entry under that name, and its
    value is [B]. *)
Theorem get_all_collision (cls : PyType) (w w' : World) (strategies : Dict.t PyType)
    (A B : PyType) (l1 l2 l3 : list PyType) :
  BaseStrategy.get_all display_name cls w = (Ok strategies, w') →
  subclasses cls w' = (Ok (l1 ++ A :: l2 ++ B :: l3), w') →
  Str.lower (display_name A) = Str.lower (display_name B) →
  (∀ C, C ∈ l3 → Str.lower (display_name C) ≠ Str.lower (display_name B)) →
  Dict.get (Str.lower (display_name B)) strategies = Some B ∧
  length (filter (λ kv, kv.1 = Str.lower (display_name B)) strategies) = 1%nat.
Proof.
  intros Hget Hsubs HAB Hl3.
  pose proof (get_all_keys_NoDup _ _ _ _ Hget) as Hnd.
  apply get_all_subclasses in Hget as (subs & Hs & ->).
  rewrite Hs in Hsubs. injection Hsubs as ->.
  assert (Hget : Dict.get (key B)
            (Dict.comprehension key ident (l1 ++ A :: l2 ++ B :: l3)) = Some B).
  { replace (l1 ++ A :: l2 ++ B :: l3) with ((l1 ++ A :: l2) ++ B :: l3)
      by (by rewrite <- app_assoc).
    by apply (comprehension_get_last key ident). }
  split; [done|].
  apply dict_NoDup_one_entry; [done|].
  apply (comprehension_keys key ident).
  rewrite elem_of_app, elem_of_cons, elem_of_app, elem_of_cons. auto.
Qed.

End RegistryFacts.

Ltac elem_of_concrete :=
  vm_compute; repeat (first [apply list_elem_of_here | apply list_elem_of_further]).

Lemma find_roundtrip_witness :
  BaseStrategy.get_all Example.display_name BaseStrategy Example.fresh
    = (Ok Example.strategies, Example.loaded) ∧
  Example.MarginStrategy ∈ Dict.values Example.strategies ∧
  BaseStrategy.find Example.display_name BaseStrategy "margin" Example.fresh
    = (Ok Example.MarginStrategy, Example.loaded) ∧
  BaseStrategy.find Example.display_name BaseStrategy "margin" Example.loaded
    = (Ok Example.MarginStrategy, Example.loaded).
Proof.
  assert (Hget : BaseStrategy.get_all Example.display_name BaseStrategy Example.fresh
                 = (Ok Example.strategies, Example.loaded)) by reflexivity.
  assert (Hin : Example.MarginStrategy ∈ Dict.values Example.strategies) by elem_of_concrete.
  split; [exact Hget|]. split; [exact Hin|].
  exact (find_roundtrip Example.display_name BaseStrategy Example.fresh Example.loaded
           Example.strategies Example.MarginStrategy Hget Hin).
Defined.

Lemma find_unknown_name_witness :
  BaseStrategy.get_all Example.display_name BaseStrategy Example.fresh
    = (Ok Example.strategies, Example.loaded) ∧
  (Str.lower "does-not-exist" ∉ Dict.keys Example.strategies) ∧
  ∃ msg,
    BaseStrategy.find Example.display_name BaseStrategy "does-not-exist" Example.fresh
      = (Raise (ValueError msg), Example.loaded) ∧
    msg = "Unknown strategy name: does-not-exist. Available strategies: simple, margin" ∧
    ∀ k, k ∈ Dict.keys Example.strategies → Str.contains msg k.
Proof.
  assert (Hget : BaseStrategy.get_all Example.display_name BaseStrategy Example.fresh
                 = (Ok Example.strategies, Example.loaded)) by reflexivity.
  assert (Hk : Str.lower "does-not-exist" ∉ Dict.keys Example.strategies).
  { apply (bool_decide_unpack _). vm_compute. exact I. }
  split; [exact Hget|]. split; [exact Hk|].
  exact (find_unknown_name Example.display_name BaseStrategy "does-not-exist"
           Example.fresh Example.loaded Example.strategies Hget Hk).
Defined.

Lemma find_case_insensitive_witness :
  BaseStrategy.get_all Example.display_name BaseStrategy Example.fresh
    = (Ok Example.strategies, Example.loaded) ∧
  Example.SimpleStrategy ∈ Dict.values Example.strategies ∧
  Str.lower "Simple" = Str.lower (Example.display_name Example.SimpleStrategy) ∧
  BaseStrategy.find Example.display_name BaseStrategy "Simple" Example.fresh
    = (Ok Example.SimpleStrategy, Example.loaded).
Proof.
  assert (Hget : BaseStrategy.get_all Example.display_name BaseStrategy Example.fresh
                 = (Ok Example.strategies, Example.loaded)) by reflexivity.
  assert (Hin : Example.SimpleStrategy ∈ Dict.values Example.strategies) by elem_of_concrete.
  assert (Hname : Str.lower "Simple" = Str.lower (Example.display_name Example.SimpleStrategy))
    by reflexivity.
  split; [exact Hget|]. split; [exact Hin|]. split; [exact Hname|].
  exact (proj2 (find_case_insensitive Example.display_name BaseStrategy "Simple"
                  Example.fresh Example.loaded Example.strategies Hget)
           Example.SimpleStrategy Hin Hname).
Defined.

Lemma get_all_collision_witness :
  BaseStrategy.get_all Example.display_name BaseStrategy Example.extended
    = (Ok [("simple", Example.SIMPLEStrategy); ("margin", Example.MarginStrategy)],
       Example.extended) ∧
  subclasses BaseStrategy Example.extended
    = (Ok ([] ++ Example.SimpleStrategy :: [Example.MarginStrategy]
              ++ Example.SIMPLEStrategy :: []), Example.extended) ∧
  Str.lower (Example.display_name Example.SimpleStrategy)
    = Str.lower (Example.display_name Example.SIMPLEStrategy) ∧
  Dict.get "simple" [("simple", Example.SIMPLEStrategy); ("margin", Example.MarginStrategy)]
    = Some Example.SIMPLEStrategy ∧
  length (filter (λ kv, kv.1 = "simple")
            [("simple", Example.SIMPLEStrategy); ("margin", Example.MarginStrategy)]) = 1%nat.
Proof.
  assert (Hget : BaseStrategy.get_all Example.display_name BaseStrategy Example.extended
    = (Ok [("simple", Example.SIMPLEStrategy); ("margin", Example.MarginStrategy)],
       Example.extended)) by reflexivity.
  assert (Hsubs : subclasses BaseStrategy Example.extended
    = (Ok ([] ++ Example.SimpleStrategy :: [Example.MarginStrategy]
              ++ Example.SIMPLEStrategy :: []), Example.extended)) by reflexivity.
  assert (Hname : Str.lower (Example.display_name Example.SimpleStrategy)
    = Str.lower (Example.display_name Example.SIMPLEStrategy)) by reflexivity.
  split; [exact Hget|]. split; [exact Hsubs|]. split; [exact Hname|].
  refine (get_all_collision Example.display_name BaseStrategy Example.extended Example.extended
            _ Example.SimpleStrategy Example.SIMPLEStrategy [] [Example.MarginStrategy] []
            Hget Hsubs Hname _).
  intros C HC. exfalso. exact (proj1 (elem_of_nil C) HC).
Defined.

(** ** get_settings_type *)

Lemma mro_head (c : PyType) (l : list PyType) :
  Class.mro c = Some l → ∃ tl, l = c :: tl.
Proof.
  destruct c as [uid name bs| |]; [|done..].
  cbn [Class.mro]. intros H.
  apply bind_Some in H as (ls & _ & H).
  apply fmap_Some in H as (tl & _ & ->). by exists tl.
Qed.

(** A class whose own statement has a subscripted base answers
    [__orig_bases__] with its bases as written. *)
Lemma getattr_orig_bases_own (c : PyType) (bs : list PyType) :
  Class.own_orig_bases c = Some bs →
  is_Some (Class.mro c) →
  Class.getattr_orig_bases c = Ok bs.
Proof.
  intros Hown [l Hl]. unfold Class.getattr_orig_bases. rewrite Hl.
  apply mro_head in Hl as [tl ->]. simpl. by rewrite Hown.
Qed.

(** C5 (as amended). Settings-type extraction: on a class whose first
    written base is the specialized generic [BaseStrategy[S]],
    [get_settings_type()] returns exactly [S], whatever bases follow (as long
    as the class has a linearization); on a class declared with the plain
    [BaseStrategy] as its only base it fails, with [IndexError] (the
    attribute is then the one of [BaseStrategy] itself, whose first entry,
    [abc.ABC], has no arguments). *)
Theorem get_settings_type_spec (uid : positive) (name : string) :
  (∀ S, BaseStrategy.get_settings_type (TClass uid name [TAlias BaseStrategy [S]]) = Ok S)
  ∧ (∀ S rest,
       is_Some (Class.mro (TClass uid name (TAlias BaseStrategy [S] :: rest))) →
       BaseStrategy.get_settings_type (TClass uid name (TAlias BaseStrategy [S] :: rest)) = Ok S)
  ∧ BaseStrategy.get_settings_type (TClass uid name [BaseStrategy]) = Raise IndexError.
Proof.
  split_and!.
  - intros S. reflexivity.
  - intros S rest Hmro. unfold BaseStrategy.get_settings_type.
    rewrite (getattr_orig_bases_own _ (TAlias BaseStrategy [S] :: rest)); done.
  - reflexivity.
Qed.

(** Only the first written base is looked at.
    [class AuditedStrategy(AuditMixin, BaseStrategy[MarginSettings])] is
    declared with the specialized generic, and [get_settings_type()] raises
    [IndexError]; [class CountingStrategy(GMixin[int], BaseStrategy)] does
    not specialize [BaseStrategy], and [get_settings_type()] returns [int]. *)
Lemma get_settings_type_spec_counterexample :
  let audited :=
    TClass 40 "AuditedStrategy"
      [Example.AuditMixin; TAlias BaseStrategy [Example.MarginSettings]] in
  let counting :=
    TClass 41 "CountingStrategy" [TAlias Example.GMixin [Example.int]; BaseStrategy] in
  (Class.mro audited
     = Some [audited; Example.AuditMixin; BaseStrategy; ABC; Generic; object] ∧
   Class.bases audited = [Example.AuditMixin; BaseStrategy] ∧
   BaseStrategy.get_settings_type audited = Raise IndexError)
  ∧ (Class.mro counting
       = Some [counting; Example.GMixin; BaseStrategy; ABC; Generic; object] ∧
     Class.bases counting = [Example.GMixin; BaseStrategy] ∧
     BaseStrategy.get_settings_type counting = Ok Example.int).
Proof. intros audited counting. split_and!; reflexivity. Qed.

Example get_settings_type_margin :
  BaseStrategy.get_settings_type Example.MarginStrategy = Ok Example.MarginSettings.
Proof. reflexivity. Qed.

Example get_settings_type_broken :
  BaseStrategy.get_settings_type Example.BrokenStrategy = Raise IndexError.
Proof. reflexivity. Qed.

Lemma get_settings_type_spec_witness :
  is_Some (Class.mro (TClass 23 "MarginStrategy"
                        [TAlias BaseStrategy [Example.MarginSettings]; Example.AuditMixin])) ∧
  BaseStrategy.get_settings_type
    (TClass 23 "MarginStrategy"
       [TAlias BaseStrategy [Example.MarginSettings]; Example.AuditMixin])
    = Ok Example.MarginSettings.
Proof.
  assert (Hmro : is_Some (Class.mro (TClass 23 "MarginStrategy"
                        [TAlias BaseStrategy [Example.MarginSettings]; Example.AuditMixin]))).
  { vm_compute. eexists. reflexivity. }
  split; [exact Hmro|].
  exact (proj1 (proj2 (get_settings_type_spec 23 "MarginStrategy"))
           Example.MarginSettings [Example.AuditMixin] Hmro).
Defined.

(** ** float comparison *)

Lemma SFcompare_Lt_Gt (x y : spec_float) :
  SFcompare x y = Some Lt → SFcompare y x = Some Gt.
Proof.
  destruct x as [sx|sx| |sx mx ex], y as [sy|sy| |sy my ey]; simpl;
    try destruct sx; try destruct sy; try done.
  - rewrite (Z.compare_antisym ex ey).
    destruct (ex ?= ey)%Z; simpl; try done.
    pose proof (Pos.compare_cont_antisym mx my Eq) as Hanti. simpl in Hanti.
    rewrite <- Hanti. destruct (Pos.compare_cont Eq mx my); simpl; congruence.
  - rewrite (Z.compare_antisym ex ey).
    destruct (ex ?= ey)%Z; simpl; try done.
    pose proof (Pos.compare_cont_antisym mx my Eq) as Hanti. simpl in Hanti.
    rewrite <- Hanti. destruct (Pos.compare_cont Eq mx my); simpl; congruence.
Qed.

(** A float below an int is not at least that int. *)
Lemma float_lt_not_ge (x : Float.t) (n : Z) :
  Float.lt_int x n = true → Float.ge_int x n = false.
Proof.
  unfold Float.lt_int, Float.ge_int, SFltb, SFleb.
  destruct (SFcompare x (Float.of_Z n)) as [[]|] eqn:Hc; try done.
  intros _. by rewrite (SFcompare_Lt_Gt _ _ Hc).
Qed.

Section GeOneCases.
Local Open Scope Z_scope.

(** A float that passes [ge=1] is positive infinity or positive and finite. *)
Lemma ge_1_cases (x : Float.t) :
  Float.ge_int x 1 = true →
  x = S754_infinity false ∨ ∃ m e, x = S754_finite false m e.
Proof.
  unfold Float.ge_int.
  change (Float.of_Z 1) with (S754_finite false 4503599627370496 (-52)).
  destruct x as [s|[]| |[] m e]; simpl; try done; eauto.
Qed.

Lemma ge_1_finite (m : positive) (e : Z) :
  Float.ge_int (S754_finite false m e) 1 = true ↔
  -52 < e ∨ (e = -52 ∧ 4503599627370496 ≤ Zpos m).
Proof.
  unfold Float.ge_int.
  change (Float.of_Z 1) with (S754_finite false 4503599627370496 (-52)).
  unfold SFleb, SFcompare.
  destruct (Z.compare_spec (-52) e) as [<-|Hlt|Hgt].
  - change (Pos.compare_cont Eq 4503599627370496 m) with (4503599627370496 ?= Zpos m).
    destruct (Z.compare_spec 4503599627370496 (Zpos m)) as [<-|Hlt|Hgt].
    + split; [right; lia | reflexivity].
    + split; [right; lia | reflexivity].
    + split; [intros [=] | lia].
  - split; [left; lia | reflexivity].
  - split; [intros [=] | lia].
Qed.

End GeOneCases.

(** ** Rounding keeps magnitudes bounded *)

Section RoundingBounds.
Local Open Scope Z_scope.

Lemma digits2_pos_spec (p : positive) :
  2 ^ (Zpos (digits2_pos p) - 1) ≤ Zpos p < 2 ^ Zpos (digits2_pos p).
Proof.
  induction p as [p IH|p IH|]; cbn [digits2_pos]; [| |done].
  - rewrite Pos2Z.inj_succ.
    replace (Z.succ (Zpos (digits2_pos p)) - 1) with (Z.succ (Zpos (digits2_pos p) - 1)) by lia.
    rewrite !Z.pow_succ_r by lia. lia.
  - rewrite Pos2Z.inj_succ.
    replace (Z.succ (Zpos (digits2_pos p)) - 1) with (Z.succ (Zpos (digits2_pos p) - 1)) by lia.
    rewrite !Z.pow_succ_r by lia. lia.
Qed.

Lemma pow2_pos (a : Z) : 0 ≤ a → 0 < 2 ^ a.
Proof. intros. by apply Z.pow_pos_nonneg. Qed.

Lemma div_pow2_lt (m a b : Z) : 0 ≤ a → 0 ≤ b → m < 2 ^ (a + b) → m / 2 ^ a < 2 ^ b.
Proof.
  intros Ha Hb Hm. apply Z.div_lt_upper_bound; [by apply pow2_pos|].
  by rewrite <- Z.pow_add_r.
Qed.

Lemma div_pow2_le (m a b : Z) : 0 ≤ a → 0 ≤ b → m ≤ 2 ^ (a + b) → m / 2 ^ a ≤ 2 ^ b.
Proof.
  intros Ha Hb Hm. apply Z.div_le_upper_bound; [by apply pow2_pos|].
  by rewrite <- Z.pow_add_r.
Qed.

(** A positive number Float.below a power of two: the exponent is positive, and the
    digits fit. *)
Lemma below_digits (m : positive) (k : Z) :
  Zpos m < 2 ^ k → 0 < k ∧ Zpos (digits2_pos m) ≤ k.
Proof.
  intros Hm. assert (0 < k).
  { destruct (Z.lt_trichotomy k 0) as [Hk|[->|Hk]]; [|simpl in Hm; lia|done].
    rewrite Z.pow_neg_r in Hm by done. lia. }
  split; [done|].
  destruct (digits2_pos_spec m) as [Hlo _].
  assert (2 ^ (Zpos (digits2_pos m) - 1) < 2 ^ k) as Hlt by lia.
  apply Z.pow_lt_mono_r_iff in Hlt; lia.
Qed.

Lemma shr_1_m (mrs : shr_record) :
  0 ≤ shr_m mrs → shr_m (shr_1 mrs) = shr_m mrs / 2.
Proof.
  destruct mrs as [m r s]. destruct m as [|p|p]; simpl; [done| |lia].
  intros _. destruct p as [p|p|]; simpl.
  - apply (Z.div_unique _ _ _ 1); lia.
  - apply (Z.div_unique _ _ _ 0); lia.
  - done.
Qed.

Lemma iter_shr_1_m (p : positive) (mrs : shr_record) :
  0 ≤ shr_m mrs → shr_m (SpecFloat.iter_pos shr_1 p mrs) = shr_m mrs / 2 ^ Zpos p.
Proof.
  revert mrs. induction p as [p IH|p IH|]; intros mrs Hm; cbn [SpecFloat.iter_pos].
  - assert (0 ≤ shr_m (shr_1 mrs)) by (rewrite shr_1_m by done; by apply Z.div_pos).
    assert (0 ≤ shr_m (SpecFloat.iter_pos shr_1 p (shr_1 mrs)))
      by (rewrite IH by done; apply Z.div_pos; [done | by apply pow2_pos]).
    rewrite !IH, shr_1_m by done.
    rewrite !Z.div_div by (try done; try apply pow2_pos; lia).
    f_equal.
    replace (Zpos p~1) with (1 + Zpos p + Zpos p) by lia.
    rewrite !Z.pow_add_r by lia. lia.
  - assert (0 ≤ shr_m (SpecFloat.iter_pos shr_1 p mrs))
      by (rewrite IH by done; apply Z.div_pos; [done | by apply pow2_pos]).
    rewrite !IH by done.
    rewrite !Z.div_div by (try done; try apply pow2_pos; lia).
    f_equal.
    replace (Zpos p~0) with (Zpos p + Zpos p) by lia.
    rewrite !Z.pow_add_r by lia. lia.
  - by apply shr_1_m.
Qed.

Lemma shr_record_of_loc_m (m : Z) (l : location) : shr_m (shr_record_of_loc m l) = m.
Proof. by destruct l as [|[]]. Qed.

Lemma shr_fexp_spec (m e : Z) (l : location) :
  0 ≤ m →
  ∃ mrs' e', shr_fexp Float.prec Float.emax m e l = (mrs', e') ∧
    e ≤ e' ∧ shr_m mrs' = m / 2 ^ (e' - e) ∧
    (e' = e ∨ e' = fexp Float.prec Float.emax (Zdigits2 m + e)).
Proof.
  intros Hm. unfold shr_fexp, shr.
  destruct (fexp Float.prec Float.emax (Zdigits2 m + e) - e) as [|p|p] eqn:Hk.
  - eexists _, _. split; [done|]. rewrite shr_record_of_loc_m, Z.sub_diag, Z.div_1_r.
    split_and!; [lia | done | by left].
  - eexists _, _. split; [done|].
    rewrite iter_shr_1_m by (by rewrite shr_record_of_loc_m).
    rewrite shr_record_of_loc_m.
    replace (e + Zpos p - e) with (Zpos p) by lia.
    split_and!; [lia | done | right; lia].
  - eexists _, _. split; [done|]. rewrite shr_record_of_loc_m, Z.sub_diag, Z.div_1_r.
    split_and!; [lia | done | by left].
Qed.

Lemma round_nearest_even_bounds (m : Z) (l : location) :
  m ≤ round_nearest_even m l ≤ m + 1.
Proof. destruct l as [|[]]; simpl; try lia. destruct (Z.even m); lia. Qed.

Lemma fexp_le (z K : Z) : z ≤ K + 53 → -1074 ≤ K → fexp Float.prec Float.emax z ≤ K.
Proof. unfold fexp, emin, Float.prec, Float.emax. lia. Qed.

Lemma Zdigits2_le (m k : Z) : 0 ≤ m → 0 ≤ k → m ≤ 2 ^ k → Zdigits2 m ≤ k + 1.
Proof.
  intros Hm Hk Hle. destruct m as [|p|p]; simpl; [lia| |lia].
  destruct (digits2_pos_spec p) as [Hlo _].
  assert (2 ^ (Zpos (digits2_pos p) - 1) < 2 ^ (k + 1)) as Hlt.
  { rewrite (Z.pow_add_r 2 k 1) by lia. lia. }
  apply Z.pow_lt_mono_r_iff in Hlt; lia.
Qed.

(** Rounding to nearest raises the magnitude by at most one binade, and
    stays finite Float.below the largest exponent. *)
Lemma binary_round_aux_below (s : bool) (mx : positive) (ex K : Z) :
  Float.below K mx ex → -1074 ≤ K ≤ 971 →
  Float.fbelow (K + 1) (binary_round_aux Float.prec Float.emax s (Zpos mx) ex loc_Exact).
Proof.
  unfold Float.below. intros Hmx HK.
  destruct (below_digits _ _ Hmx) as [HKex Hd].
  unfold binary_round_aux.
  destruct (shr_fexp_spec (Zpos mx) ex loc_Exact ltac:(done))
    as (mrs' & e' & -> & He' & Hm1 & He'eq).
  assert (He'K : e' ≤ K).
  { destruct He'eq as [->| ->]; [lia|]. apply fexp_le; simpl; lia. }
  assert (Hm1lt : shr_m mrs' < 2 ^ (K - e')).
  { rewrite Hm1. apply div_pow2_lt; [lia..|]. by replace (e' - ex + (K - e')) with (K - ex) by lia. }
  assert (Hm1pos : 0 ≤ shr_m mrs').
  { rewrite Hm1. apply Z.div_pos; [done | apply pow2_pos; lia]. }
  pose proof (round_nearest_even_bounds (shr_m mrs') (loc_of_shr_record mrs')) as Hm2.
  set (m2 := round_nearest_even (shr_m mrs') (loc_of_shr_record mrs')) in *.
  destruct (shr_fexp_spec m2 e' loc_Exact ltac:(lia))
    as (mrs'' & e'' & -> & He'' & Hm3 & He''eq).
  assert (He''K : e'' ≤ K).
  { destruct He''eq as [->| ->]; [lia|]. apply fexp_le; [|lia].
    pose proof (Zdigits2_le m2 (K - e') ltac:(lia) ltac:(lia) ltac:(lia)). lia. }
  assert (Hm3le : shr_m mrs'' ≤ 2 ^ (K - e'')).
  { rewrite Hm3. apply div_pow2_le; [lia..|].
    replace (e'' - e' + (K - e'')) with (K - e') by lia. lia. }
  destruct (shr_m mrs'') as [|m3|m3] eqn:Hm3eq; simpl.
  - done.
  - assert ((e'' <=? Float.emax - Float.prec) = true) as ->
      by (apply Z.leb_le; unfold Float.emax, Float.prec; lia).
    simpl. unfold Float.below.
    replace (K + 1 - e'') with (Z.succ (K - e'')) by lia.
    rewrite Z.pow_succ_r by lia. pose proof (pow2_pos (K - e'') ltac:(lia)). lia.
  - assert (0 ≤ Zneg m3); [|lia].
    rewrite Hm3. apply Z.div_pos; [lia | apply pow2_pos; lia].
Qed.

Lemma fbelow_mono (K K' : Z) (f : spec_float) : K ≤ K' → Float.fbelow K f → Float.fbelow K' f.
Proof.
  intros HK. destruct f as [| | |s m e]; simpl; try done. unfold Float.below. intros Hm.
  destruct (below_digits _ _ Hm) as [Hpos _].
  assert (2 ^ (K - e) ≤ 2 ^ (K' - e)) by (apply Z.pow_le_mono_r; lia). lia.
Qed.

Lemma pos_iter_xO (m d : positive) : Zpos (Pos.iter xO m d) = Zpos m * 2 ^ Zpos d.
Proof.
  induction d as [|d IH] using Pos.peano_ind; [simpl; lia|].
  rewrite Pos.iter_succ, Pos2Z.inj_succ, Z.pow_succ_r by lia.
  change (Zpos (Pos.iter xO m d)~0) with (2 * Zpos (Pos.iter xO m d)). lia.
Qed.

Lemma binary_round_below (s : bool) (m : positive) (e K : Z) :
  Float.below K m e → -1074 ≤ K ≤ 971 →
  Float.fbelow (K + 1) (binary_round Float.prec Float.emax s m e).
Proof.
  intros Hm HK. unfold binary_round, shl_align.
  destruct (fexp Float.prec Float.emax (Zpos (digits2_pos m) + e) - e) as [|p|p] eqn:Hk;
    [by apply binary_round_aux_below..|].
  apply binary_round_aux_below; [|done].
  unfold Float.below in *. rewrite pos_iter_xO.
  destruct (below_digits _ _ Hm) as [Hpos _].
  replace (K - fexp Float.prec Float.emax (Zpos (digits2_pos m) + e))
    with (K - e + Zpos p) by lia.
  rewrite Z.pow_add_r by lia. pose proof (pow2_pos (Zpos p) ltac:(lia)). nia.
Qed.

Lemma binary_normalize_below (m e K : Z) (szero : bool) :
  Z.abs m < 2 ^ (K - e) → -1074 ≤ K ≤ 971 →
  Float.fbelow (K + 1) (binary_normalize Float.prec Float.emax m e szero).
Proof.
  intros Hm HK. destruct m as [|p|p]; simpl; [done|by apply binary_round_below..].
Qed.

Lemma frac_below (x : Float.t) (n : Z) :
  Float.trunc x = Ok n → Float.fbelow 1 (Float.frac x).
Proof.
  destruct x as [s|s| |s m e]; simpl; try done.
  intros _. destruct (Z.leb_spec 0 e) as [He|He]; [done|].
  apply (binary_normalize_below _ _ 0); [|lia].
  rewrite Z.land_ones by lia.
  pose proof (Z.mod_pos_bound (Zpos m) (2 ^ (- e)) ltac:(apply pow2_pos; lia)).
  replace (0 - e) with (- e) by lia. destruct s; simpl; lia.
Qed.

Lemma mul_below (a b : Float.t) (Ka Kb : Z) :
  Float.fbelow Ka a → Float.fbelow Kb b → -1074 ≤ Ka + Kb ≤ 971 →
  Float.fbelow (Ka + Kb + 1) (Float.mul a b).
Proof.
  destruct a as [sa|sa| |sa ma ea], b as [sb|sb| |sb mb eb]; simpl; try done.
  intros Ha Hb HK. apply binary_round_aux_below; [|done].
  unfold Float.below in *.
  destruct (below_digits _ _ Ha) as [Hpa _], (below_digits _ _ Hb) as [Hpb _].
  replace (Ka + Kb - (ea + eb)) with ((Ka - ea) + (Kb - eb)) by lia.
  rewrite Z.pow_add_r, Pos2Z.inj_mul by lia. nia.
Qed.

Lemma shl_align_fst (m : positive) (e e' : Z) (K : Z) :
  e' ≤ e → Float.below K m e → Float.below K (shl_align m e e').1 e'.
Proof.
  intros He Hm. unfold shl_align. destruct (e' - e) as [|p|p] eqn:Hd; simpl; [| lia |].
  - by replace e' with e by lia.
  - unfold Float.below in *. rewrite pos_iter_xO.
    destruct (below_digits _ _ Hm) as [Hpos _].
    replace (K - e') with (K - e + Zpos p) by lia.
    rewrite Z.pow_add_r by lia. pose proof (pow2_pos (Zpos p) ltac:(lia)). nia.
Qed.

Lemma add_below (a b : Float.t) (K : Z) :
  Float.fbelow K a → Float.fbelow K b → -1074 ≤ K + 1 ≤ 971 →
  Float.fbelow (K + 2) (Float.add a b).
Proof.
  destruct a as [sa|sa| |sa ma ea], b as [sb|sb| |sb mb eb]; simpl; try done.
  - intros _ _ _. by destruct sa, sb.
  - intros _ Hb _. apply (fbelow_mono K (K + 2) (S754_finite sb mb eb)); [lia | done].
  - intros Ha _ _. apply (fbelow_mono K (K + 2) (S754_finite sa ma ea)); [lia | done].
  - intros Ha Hb HK.
    replace (K + 2) with (K + 1 + 1) by lia. apply binary_normalize_below; [|done].
    pose proof (shl_align_fst ma ea (Z.min ea eb) K ltac:(lia) Ha) as Ha'.
    pose proof (shl_align_fst mb eb (Z.min ea eb) K ltac:(lia) Hb) as Hb'.
    unfold Float.below in *.
    destruct (below_digits _ _ Ha') as [Hpos _].
    replace (K + 1 - Z.min ea eb) with (Z.succ (K - Z.min ea eb)) by lia.
    rewrite Z.pow_succ_r by lia.
    pose proof (Pos2Z.is_pos (shl_align ma ea (Z.min ea eb)).1) as HA.
    pose proof (Pos2Z.is_pos (shl_align mb eb (Z.min ea eb)).1) as HB.
    revert Ha' Hb' HA HB.
    generalize (Zpos (shl_align ma ea (Z.min ea eb)).1).
    generalize (Zpos (shl_align mb eb (Z.min ea eb)).1).
    generalize (2 ^ (K - Z.min ea eb)).
    intros P B A. destruct sa, sb; unfold cond_Zopp; lia.
Qed.

Lemma add_zero_below (b : Float.t) (K : Z) :
  Float.fbelow K b → Float.fbelow K (Float.add (S754_zero false) b).
Proof. destruct b as [sb|sb| |sb mb eb]; simpl; try done. by destruct sb. Qed.

Lemma trunc_below (f : Float.t) (K : Z) :
  Float.fbelow K f → 0 ≤ K → ∃ n, Float.trunc f = Ok n ∧ Z.abs n < 2 ^ K.
Proof.
  destruct f as [s|s| |s m e]; simpl; try done.
  - intros _ HK. exists 0. split; [done|]. simpl. by apply pow2_pos.
  - unfold Float.below. intros Hm HK. eexists. split; [done|].
    destruct (below_digits _ _ Hm) as [Hpos _].
    assert (Habs : ∀ z, Z.abs (cond_Zopp s z) = Z.abs z) by (intros z; destruct s; simpl; lia).
    rewrite Habs. destruct (Z.leb_spec 0 e) as [He|He].
    + rewrite Z.shiftl_mul_pow2 by done.
      replace (K - e) with (K - e) in Hm by done.
      assert (2 ^ K = 2 ^ (K - e) * 2 ^ e) as -> by (rewrite <- Z.pow_add_r by lia; f_equal; lia).
      pose proof (pow2_pos e He). rewrite Z.abs_eq by lia. nia.
    + rewrite Z.shiftr_div_pow2 by lia.
      assert (0 ≤ Zpos m / 2 ^ (- e)) by (apply Z.div_pos; [lia | apply pow2_pos; lia]).
      rewrite Z.abs_eq by done. apply div_pow2_lt; [lia..|].
      by replace (- e + K) with (K - e) by lia.
Qed.

Lemma round_half_away_below (f : Float.t) (K : Z) :
  Float.fbelow K f → 0 ≤ K → Z.abs (Float.round_half_away f) ≤ 2 ^ K.
Proof.
  destruct f as [s|s| |s m e]; simpl; try done.
  - intros _ HK. pose proof (pow2_pos K HK). lia.
  - unfold Float.below. intros Hm HK.
    destruct (below_digits _ _ Hm) as [Hpos _].
    assert (Habs : ∀ z, Z.abs (cond_Zopp s z) = Z.abs z) by (intros z; destruct s; simpl; lia).
    destruct (Z.leb_spec 0 e) as [He|He]; rewrite Habs.
    + rewrite Z.shiftl_mul_pow2 by done.
      assert (2 ^ K = 2 ^ (K - e) * 2 ^ e) as -> by (rewrite <- Z.pow_add_r by lia; f_equal; lia).
      pose proof (pow2_pos e He). rewrite Z.abs_eq by lia. nia.
    + rewrite Z.shiftr_div_pow2 by lia.
      assert (0 ≤ Zpos m / 2 ^ (- e)) by (apply Z.div_pos; [lia | apply pow2_pos; lia]).
      assert (Zpos m / 2 ^ (- e) < 2 ^ K).
      { apply div_pow2_lt; [lia..|]. by replace (- e + K) with (K - e) by lia. }
      case_match; lia.
Qed.

(** What a float argument leaves [accum] with: the sum moved by less than
    [2^34] from [n * factor], and a leftover Float.below 2. *)
Lemma accum_float (x : Float.t) (n factor : Z) :
  Float.trunc x = Ok n → Float.fbelow 32 (Float.of_Z factor) →
  ∃ y l, Timedelta.accum 0 (NFloat x) factor (S754_zero false) = Ok (y, l) ∧
         Z.abs (y - n * factor) < 2 ^ 34 ∧ Float.fbelow 1 l.
Proof.
  intros Hn Hf. unfold Timedelta.accum. rewrite Hn. cbn [mbind result_bind].
  destruct (Float.is_zero (Float.frac x)).
  { eexists _, _. split; [done|]. split; [|done].
    replace (0 + n * factor - n * factor) with 0 by lia. done. }
  pose proof (mul_below _ _ 32 1 Hf (frac_below x n Hn) ltac:(lia)) as Hd.
  destruct (trunc_below _ 34 Hd ltac:(lia)) as (x2 & Hx2 & Hx2lt).
  rewrite Hx2. cbn [mbind result_bind].
  eexists _, _. split; [done|]. split.
  - by replace (0 + n * factor + x2 - n * factor) with x2 by lia.
  - apply add_zero_below, (frac_below _ x2 Hx2).
Qed.

Lemma of_Z_bit_below (b : bool) : Float.fbelow 1 (Float.of_Z (if b then 1 else 0)).
Proof. destruct b; vm_compute; done. Qed.

Lemma round_leftover_bound (x : Z) (l : Float.t) :
  Float.fbelow 1 l → Z.abs (Timedelta.round_leftover x l) ≤ 33.
Proof.
  intros Hl. unfold Timedelta.round_leftover.
  destruct (Float.is_zero l); [done|].
  destruct (Float.is_halfway l).
  - pose proof (add_below _ _ 1 Hl (of_Z_bit_below (Z.odd x)) ltac:(lia)) as Ha.
    pose proof (mul_below _ (S754_finite false 4503599627370496 (-53)) 3 0 Ha
                  ltac:(vm_compute; done) ltac:(lia)) as Hm.
    pose proof (round_half_away_below _ 4 Hm ltac:(lia)) as Hr.
    change (2 ^ 4) with 16 in Hr. destruct (Z.odd x); lia.
  - pose proof (round_half_away_below _ 1 Hl ltac:(lia)) as Hr.
    change (2 ^ 1) with 2 in Hr. lia.
Qed.

(** A number with an integral part is converted without failure, up to the
    range check on the days. *)
Lemma new_with_close (num : PyNum) (n factor : Z) :
  num_trunc num = Ok n → Float.fbelow 32 (Float.of_Z factor) →
  ∃ us, Timedelta.new_with num factor = Timedelta.of_microseconds us ∧
        Z.abs (us - n * factor) < 2 ^ 35.
Proof.
  intros Hn Hf. unfold Timedelta.new_with. destruct num as [z|x]; simpl in Hn.
  - injection Hn as ->. eexists. split; [reflexivity|].
    unfold Timedelta.round_leftover. simpl.
    replace (0 + n * factor + 0 - n * factor) with 0 by lia. done.
  - destruct (accum_float x n factor Hn Hf) as (y & l & -> & Hy & Hl).
    cbn [mbind result_bind]. eexists. split; [reflexivity|].
    pose proof (round_leftover_bound y l Hl).
    change (2 ^ 34) with 17179869184 in Hy. change (2 ^ 35) with 34359738368. lia.
Qed.

End RoundingBounds.

(** ** Rounding, exactly *)

Section RoundingExact.
Local Open Scope Z_scope.

Lemma fexp_unfold (z : Z) : fexp Float.prec Float.emax z = Z.max (z - 53) (-1074).
Proof. reflexivity. Qed.

Lemma Zdigits2_spec (m : Z) :
  0 < m → 2 ^ (Zdigits2 m - 1) ≤ m < 2 ^ Zdigits2 m.
Proof. destruct m as [|p|p]; [lia| |lia]. intros _. apply digits2_pos_spec. Qed.

Lemma Zdigits2_pos (m : Z) : 0 < m → 0 < Zdigits2 m.
Proof. destruct m; simpl; lia. Qed.

Lemma Zdigits2_unique (m d : Z) : 0 < m → 2 ^ (d - 1) ≤ m < 2 ^ d → Zdigits2 m = d.
Proof.
  intros Hm [Hlo Hhi]. destruct (Zdigits2_spec m Hm) as [Hlo' Hhi'].
  pose proof (Zdigits2_pos m Hm).
  assert (0 ≤ d).
  { destruct (Z.lt_ge_cases d 0) as [Hd|Hd]; [|done]. rewrite Z.pow_neg_r in Hhi by done. lia. }
  assert (d - 1 < Zdigits2 m) by (apply (Z.pow_lt_mono_r_iff 2); lia).
  assert (Zdigits2 m - 1 < d) by (apply (Z.pow_lt_mono_r_iff 2); lia).
  lia.
Qed.

Lemma Zdigits2_div (m k : Z) :
  0 ≤ k → 2 ^ k ≤ m → Zdigits2 (m / 2 ^ k) = Zdigits2 m - k.
Proof.
  intros Hk Hkm. pose proof (pow2_pos k Hk) as Hpk.
  assert (Hm : 0 < m) by lia.
  destruct (Zdigits2_spec m Hm) as [Hlo Hhi]. pose proof (Zdigits2_pos m Hm).
  assert (Hkd : k < Zdigits2 m) by (apply (Z.pow_lt_mono_r_iff 2); lia).
  assert (0 < m / 2 ^ k) by (apply Z.div_str_pos; lia).
  apply Zdigits2_unique; [done|]. split.
  - apply Z.div_le_lower_bound; [done|]. rewrite <- Z.pow_add_r by lia.
    by replace (k + (Zdigits2 m - k - 1)) with (Zdigits2 m - 1) by lia.
  - apply div_pow2_lt; [lia..|]. by replace (k + (Zdigits2 m - k)) with (Zdigits2 m) by lia.
Qed.

Lemma Zdigits2_mul_pow2 (m k : Z) :
  0 < m → 0 ≤ k → Zdigits2 (m * 2 ^ k) = Zdigits2 m + k.
Proof.
  intros Hm Hk. pose proof (pow2_pos k Hk) as Hpk.
  destruct (Zdigits2_spec m Hm) as [Hlo Hhi]. pose proof (Zdigits2_pos m Hm).
  apply Zdigits2_unique; [nia|].
  replace (Zdigits2 m + k - 1) with (Zdigits2 m - 1 + k) by lia.
  rewrite !Z.pow_add_r by lia. nia.
Qed.

Lemma Zdigits2_mono (a b : Z) : 0 ≤ a ≤ b → Zdigits2 a ≤ Zdigits2 b.
Proof.
  intros [Ha Hab]. destruct (Z.eq_dec a 0) as [->|Hne].
  { destruct b; simpl; lia. }
  destruct (Zdigits2_spec a ltac:(lia)) as [Hlo _].
  destruct (Zdigits2_spec b ltac:(lia)) as [_ Hhi].
  pose proof (Zdigits2_pos b ltac:(lia)).
  assert (Zdigits2 a - 1 < Zdigits2 b) by (apply (Z.pow_lt_mono_r_iff 2); lia).
  lia.
Qed.

Lemma Zdigits2_succ (m : Z) : 0 ≤ m → Zdigits2 (m + 1) ≤ Zdigits2 m + 1.
Proof.
  intros Hm. destruct (Z.eq_dec m 0) as [->|Hne]; [done|].
  destruct (Zdigits2_spec m ltac:(lia)) as [_ Hhi]. pose proof (Zdigits2_pos m ltac:(lia)).
  apply Zdigits2_le; lia.
Qed.

Lemma divide_pow2_split (m a b : Z) :
  0 ≤ a → 0 ≤ b → (2 ^ (a + b) | m) → (2 ^ a | m) ∧ (2 ^ b | m / 2 ^ a).
Proof.
  intros Ha Hb [q ->]. pose proof (pow2_pos a Ha). rewrite Z.pow_add_r by done. split.
  - exists (q * 2 ^ b). lia.
  - exists q. replace (q * (2 ^ a * 2 ^ b)) with (q * 2 ^ b * 2 ^ a) by lia.
    by rewrite Z.div_mul by lia.
Qed.

Lemma shr_1_exact (mrs : shr_record) :
  0 ≤ shr_m mrs → shr_r mrs = false → shr_s mrs = false → (2 ^ 1 | shr_m mrs) →
  shr_r (shr_1 mrs) = false ∧ shr_s (shr_1 mrs) = false.
Proof.
  destruct mrs as [m r s]. simpl. intros Hm -> -> [q Hq].
  destruct m as [|[p|p|]|p]; simpl; try done; lia.
Qed.

Lemma iter_shr_1_exact (p : positive) (mrs : shr_record) :
  0 ≤ shr_m mrs → shr_r mrs = false → shr_s mrs = false → (2 ^ Zpos p | shr_m mrs) →
  shr_r (SpecFloat.iter_pos shr_1 p mrs) = false ∧
  shr_s (SpecFloat.iter_pos shr_1 p mrs) = false.
Proof.
  revert mrs. induction p as [p IH|p IH|]; intros mrs Hm Hr Hs Hdiv; cbn [SpecFloat.iter_pos].
  - replace (Zpos p~1) with (1 + (Zpos p + Zpos p)) in Hdiv by lia.
    apply divide_pow2_split in Hdiv as [Hd1 Hd2]; [|lia..].
    destruct (shr_1_exact mrs Hm Hr Hs Hd1) as [Hr1 Hs1].
    assert (Hm1 : 0 ≤ shr_m (shr_1 mrs)) by (rewrite shr_1_m by done; by apply Z.div_pos).
    change (2 ^ 1) with 2 in Hd2. rewrite <- (shr_1_m mrs Hm) in Hd2.
    apply divide_pow2_split in Hd2 as [Hd2 Hd3]; [|lia..].
    destruct (IH _ Hm1 Hr1 Hs1 Hd2) as [Hr2 Hs2].
    apply IH; [|done..|].
    + rewrite iter_shr_1_m by done. apply Z.div_pos; [done | by apply pow2_pos].
    + by rewrite iter_shr_1_m.
  - replace (Zpos p~0) with (Zpos p + Zpos p) in Hdiv by lia.
    apply divide_pow2_split in Hdiv as [Hd1 Hd2]; [|lia..].
    destruct (IH _ Hm Hr Hs Hd1) as [Hr1 Hs1].
    apply IH; [|done..|].
    + rewrite iter_shr_1_m by done. apply Z.div_pos; [done | by apply pow2_pos].
    + by rewrite iter_shr_1_m.
  - by apply shr_1_exact.
Qed.

(** What one alignment step does to an exactly known mantissa. *)
Lemma shr_fexp_exact (m e : Z) :
  0 ≤ m →
  let e' := Z.max e (fexp Float.prec Float.emax (Zdigits2 m + e)) in
  ∃ mrs', shr_fexp Float.prec Float.emax m e loc_Exact = (mrs', e') ∧
    shr_m mrs' = m / 2 ^ (e' - e) ∧
    ((2 ^ (e' - e) | m) → loc_of_shr_record mrs' = loc_Exact).
Proof.
  intros Hm e'. subst e'. unfold shr_fexp, shr.
  destruct (fexp Float.prec Float.emax (Zdigits2 m + e) - e) as [|p|p] eqn:Hk.
  - rewrite Z.max_l by lia. eexists. split; [done|].
    rewrite Z.sub_diag, Z.div_1_r. done.
  - rewrite Z.max_r by lia. eexists. split; [f_equal; lia|].
    rewrite iter_shr_1_m by done. simpl shr_m. rewrite Hk. split; [done|].
    intros Hdiv.
    destruct (iter_shr_1_exact p (shr_record_of_loc m loc_Exact) Hm eq_refl eq_refl Hdiv)
      as [Hr Hs].
    destruct (SpecFloat.iter_pos shr_1 p (shr_record_of_loc m loc_Exact)) as [m' r' s'].
    simpl in Hr, Hs. by subst.
  - rewrite Z.max_l by lia. eexists. split; [done|].
    rewrite Z.sub_diag, Z.div_1_r. done.
Qed.

Lemma div_pow2_bounds (m k : Z) :
  0 ≤ k → m / 2 ^ k * 2 ^ k ≤ m < (m / 2 ^ k + 1) * 2 ^ k.
Proof.
  intros Hk. pose proof (pow2_pos k Hk) as Hp.
  pose proof (Z.mul_div_le m (2 ^ k) Hp). pose proof (Z.mul_succ_div_gt m (2 ^ k) Hp). lia.
Qed.

Lemma div_pow2_zero_digits (m k : Z) :
  0 < m → 0 ≤ k → m / 2 ^ k = 0 → Zdigits2 m ≤ k.
Proof.
  intros Hm Hk Hz. destruct (div_pow2_bounds m k Hk) as [_ Hhi]. rewrite Hz in Hhi.
  destruct (Zdigits2_spec m Hm) as [Hlo _]. pose proof (Zdigits2_pos m Hm).
  assert (Zdigits2 m - 1 < k) by (apply (Z.pow_lt_mono_r_iff 2); lia). lia.
Qed.

Lemma div_pow2_pos_le (m k : Z) : 0 ≤ k → 0 < m / 2 ^ k → 2 ^ k ≤ m.
Proof.
  intros Hk Hq. destruct (div_pow2_bounds m k Hk) as [Hlo _].
  pose proof (pow2_pos k Hk). nia.
Qed.

(** Rounding a positive mantissa to nearest: the exponent reached, the
    distance covered, and when nothing is lost. *)
Lemma binary_round_aux_spec (s : bool) (mx ex : Z) :
  0 < mx →
  ∃ m e,
    binary_round_aux Float.prec Float.emax s mx ex loc_Exact = Float.rounded s m e ∧
    0 ≤ m ∧
    Z.max ex (fexp Float.prec Float.emax (Zdigits2 mx + ex)) ≤ e
      ≤ Z.max ex (fexp Float.prec Float.emax (Zdigits2 mx + ex)) + 1 ∧
    m * 2 ^ (e - ex) ≤ mx + 2 ^ (e - ex) ∧
    mx < m * 2 ^ (e - ex) + 2 * 2 ^ (e - ex) ∧
    (0 < m → ex ≤ fexp Float.prec Float.emax (Zdigits2 mx + ex) →
     fexp Float.prec Float.emax (Zdigits2 m + e) = e) ∧
    ((2 ^ (Z.max ex (fexp Float.prec Float.emax (Zdigits2 mx + ex)) - ex) | mx) →
     e = Z.max ex (fexp Float.prec Float.emax (Zdigits2 mx + ex)) ∧ m * 2 ^ (e - ex) = mx).
Proof.
  intros Hmx. unfold binary_round_aux.
  destruct (shr_fexp_exact mx ex ltac:(lia)) as (mrs' & -> & Hm1 & Hloc1).
  set (d := Zdigits2 mx) in *.
  set (e1 := Z.max ex (fexp Float.prec Float.emax (d + ex))) in *.
  assert (Hk1 : 0 ≤ e1 - ex) by lia.
  pose proof (pow2_pos _ Hk1) as Hp1.
  destruct (div_pow2_bounds mx (e1 - ex) Hk1) as [Hlo1 Hhi1]. rewrite <- Hm1 in Hlo1, Hhi1.
  assert (Hm1pos : 0 ≤ shr_m mrs').
  { rewrite Hm1. apply Z.div_pos; lia. }
  pose proof (round_nearest_even_bounds (shr_m mrs') (loc_of_shr_record mrs')) as Hm2.
  set (m1 := shr_m mrs') in *.
  set (m2 := round_nearest_even m1 (loc_of_shr_record mrs')) in *.
  destruct (shr_fexp_exact m2 e1 ltac:(lia)) as (mrs'' & -> & Hm3 & _).
  set (e2 := Z.max e1 (fexp Float.prec Float.emax (Zdigits2 m2 + e1))) in *.
  (* the first alignment leaves at most 53 digits *)
  assert (Hd1 : m1 = 0 ∨ (0 < m1 ∧ Zdigits2 m1 + e1 = d + ex)).
  { destruct (Z.eq_dec m1 0) as [?|Hne]; [by left|right]. split; [lia|].
    rewrite Hm1, Zdigits2_div; [unfold d; lia | lia |].
    apply div_pow2_pos_le; [done|]. rewrite <- Hm1. lia. }
  assert (HF1 : fexp Float.prec Float.emax (Zdigits2 m1 + e1) ≤ e1).
  { destruct Hd1 as [->|[_ ->]]; [|lia].
    unfold e1. rewrite !fexp_unfold. simpl Zdigits2. lia. }
  assert (Hd2 : Zdigits2 m1 ≤ Zdigits2 m2 ≤ Zdigits2 m1 + 1).
  { split; [apply Zdigits2_mono; lia|].
    etrans; [apply (Zdigits2_mono m2 (m1 + 1)); lia | by apply Zdigits2_succ]. }
  assert (He2 : e1 ≤ e2 ≤ e1 + 1).
  { unfold e2. rewrite !fexp_unfold in *. lia. }
  assert (Hk2 : 0 ≤ e2 - e1) by lia.
  pose proof (pow2_pos _ Hk2) as Hp2.
  destruct (div_pow2_bounds m2 (e2 - e1) Hk2) as [Hlo2 Hhi2]. rewrite <- Hm3 in Hlo2, Hhi2.
  assert (Hm3pos : 0 ≤ shr_m mrs'').
  { rewrite Hm3. apply Z.div_pos; lia. }
  set (m3 := shr_m mrs'') in *.
  assert (Hpow : 2 ^ (e2 - ex) = 2 ^ (e1 - ex) * 2 ^ (e2 - e1)).
  { rewrite <- Z.pow_add_r by lia. f_equal. lia. }
  exists m3, e2. split_and!.
  - unfold Float.rounded. by destruct m3.
  - done.
  - lia.
  - lia.
  - rewrite Hpow. nia.
  - rewrite Hpow. nia.
  - intros Hm3lt Hex.
    assert (He1 : e1 = fexp Float.prec Float.emax (d + ex)) by lia.
    destruct (Z.eq_dec e2 e1) as [Heq|Hne].
    + (* no second shift *)
      assert (m3 = m2) as -> by (rewrite Hm3, Heq, Z.sub_diag, Z.div_1_r; done).
      rewrite Heq.
      assert (fexp Float.prec Float.emax (Zdigits2 m2 + e1) ≤ e1) by lia.
      assert (e1 ≤ fexp Float.prec Float.emax (Zdigits2 m2 + e1)); [|lia].
      destruct Hd1 as [Hz|[_ Hd]].
      * assert (Zdigits2 mx ≤ e1 - ex).
        { apply div_pow2_zero_digits; [done..|]. rewrite <- Hm1. done. }
        fold d in H0. rewrite !fexp_unfold in *. lia.
      * rewrite !fexp_unfold in *. lia.
    + assert (He2eq : e2 = fexp Float.prec Float.emax (Zdigits2 m2 + e1)) by lia.
      rewrite He2eq at 2. f_equal.
      rewrite Hm3, Zdigits2_div; [lia | lia |].
      apply div_pow2_pos_le; [done|]. rewrite <- Hm3. done.
  - intros Hdiv. pose proof (Hloc1 Hdiv) as Hloc.
    assert (Hm21 : m2 = m1) by (unfold m2; by rewrite Hloc).
    destruct Hdiv as [q Hq].
    assert (Hq1 : m1 = q) by (rewrite Hm1, Hq, Z.div_mul; lia).
    assert (0 < m1) by nia.
    destruct Hd1 as [?|[_ Hd]]; [lia|].
    assert (Heq : e2 = e1).
    { unfold e2. rewrite Hm21, Hd. lia. }
    split; [done|]. rewrite Heq. rewrite Hm3, Heq, Z.sub_diag, Z.div_1_r.
    rewrite Hm21. lia.
Qed.

(** A number that fits the format is rounded to itself, aligned on the
    exponent of the format. *)
Lemma binary_round_exact (s : bool) (m : positive) (e : Z) :
  fexp Float.prec Float.emax (Zpos (digits2_pos m) + e) ≤ e →
  fexp Float.prec Float.emax (Zpos (digits2_pos m) + e) ≤ 971 →
  ∃ m', binary_round Float.prec Float.emax s m e
          = S754_finite s m' (fexp Float.prec Float.emax (Zpos (digits2_pos m) + e)) ∧
        Zpos m' = Zpos m * 2 ^ (e - fexp Float.prec Float.emax (Zpos (digits2_pos m) + e)) ∧
        fexp Float.prec Float.emax
          (Zpos (digits2_pos m') + fexp Float.prec Float.emax (Zpos (digits2_pos m) + e))
        = fexp Float.prec Float.emax (Zpos (digits2_pos m) + e).
Proof.
  set (e0 := fexp Float.prec Float.emax (Zpos (digits2_pos m) + e)).
  intros He0 Hmax. unfold binary_round, shl_align. fold e0.
  assert (Haux : ∀ mz : positive,
            Zpos mz = Zpos m * 2 ^ (e - e0) →
            ∃ m', binary_round_aux Float.prec Float.emax s (Zpos mz) e0 loc_Exact
                    = S754_finite s m' e0 ∧
                  Zpos m' = Zpos m * 2 ^ (e - e0) ∧
                  fexp Float.prec Float.emax (Zpos (digits2_pos m') + e0) = e0).
  { intros mz Hmz.
    assert (Hdz : Zdigits2 (Zpos mz) + e0 = Zpos (digits2_pos m) + e).
    { rewrite Hmz, Zdigits2_mul_pow2 by lia. simpl. lia. }
    destruct (binary_round_aux_spec s (Zpos mz) e0 ltac:(lia))
      as (m' & e' & -> & Hm' & _ & _ & _ & _ & Hexact).
    rewrite Hdz in Hexact. fold e0 in Hexact. rewrite Z.max_id, Z.sub_diag in Hexact.
    destruct (Hexact ltac:(exists (Zpos mz); simpl; lia)) as [-> Heq].
    rewrite Z.sub_diag, Z.mul_1_r in Heq. subst m'.
    exists mz. unfold Float.rounded.
    assert ((e0 <=? 971) = true) as -> by (apply Z.leb_le; lia).
    split; [done|]. split; [done|].
    change (Zpos (digits2_pos mz)) with (Zdigits2 (Zpos mz)). by rewrite Hdz. }
  destruct (e0 - e) as [|p|p] eqn:Hk.
  - assert (e0 = e) as Heq by lia. cbn beta iota.
    replace (binary_round_aux Float.prec Float.emax s (Zpos m) e loc_Exact)
      with (binary_round_aux Float.prec Float.emax s (Zpos m) e0 loc_Exact)
      by (f_equal; lia).
    apply Haux. rewrite Heq, Z.sub_diag. lia.
  - lia.
  - apply Haux. rewrite pos_iter_xO. f_equal. f_equal. lia.
Qed.

(** A binary64 value has at most 53 digits above the least exponent. *)
Lemma valid_binary_finite (s : bool) (m : positive) (e : Z) :
  valid_binary Float.prec Float.emax (S754_finite s m e) = true →
  fexp Float.prec Float.emax (Zpos (digits2_pos m) + e) = e ∧ e ≤ 971 ∧
  -1074 ≤ e ∧ Zpos (digits2_pos m) ≤ 53 ∧ Zpos m < 2 ^ 53.
Proof.
  simpl. unfold bounded, canonical_mantissa.
  intros [Hc Hb]%andb_true_iff. apply Z.eqb_eq in Hc. apply Z.leb_le in Hb.
  pose proof Hc as Hc'. rewrite fexp_unfold in Hc'.
  assert (Hd : Zpos (digits2_pos m) ≤ 53) by lia.
  split_and!; [done | exact Hb | lia | done |].
  destruct (digits2_pos_spec m) as [_ Hhi].
  assert (2 ^ Zpos (digits2_pos m) ≤ 2 ^ 53) by (apply Z.pow_le_mono_r; lia). lia.
Qed.

(** The fractional part of a binary64 value is exact. *)
Lemma frac_exact (m : positive) (e : Z) :
  valid_binary Float.prec Float.emax (S754_finite false m e) = true → e < 0 →
  (Zpos m `mod` 2 ^ (- e) = 0 ∧ Float.frac (S754_finite false m e) = S754_zero false) ∨
  (∃ m' e', Float.frac (S754_finite false m e) = S754_finite false m' e' ∧
            valid_binary Float.prec Float.emax (S754_finite false m' e') = true ∧
            e' ≤ e ∧ Zpos m' = Zpos m `mod` 2 ^ (- e) * 2 ^ (e - e')).
Proof.
  intros (Hc & Hb & Hmin & Hd & Hm53)%valid_binary_finite He.
  cbn [Float.frac]. destruct (Z.leb_spec 0 e) as [?|_]; [lia|].
  rewrite Z.land_ones by lia. cbn [cond_Zopp].
  pose proof (Z.mod_pos_bound (Zpos m) (2 ^ (- e)) ltac:(apply pow2_pos; lia)) as [Hr0 Hr1].
  pose proof (Z.mod_le (Zpos m) (2 ^ (- e)) ltac:(lia) ltac:(apply pow2_pos; lia)) as Hrm.
  destruct (Zpos m `mod` 2 ^ (- e)) as [|r|r] eqn:Hr; [by left | right | lia].
  cbn [binary_normalize].
  assert (Hdr : Zpos (digits2_pos r) ≤ 53).
  { change (Zdigits2 (Zpos r) ≤ 53). etrans; [apply (Zdigits2_mono _ (Zpos m)); lia|done]. }
  assert (He0 : fexp Float.prec Float.emax (Zpos (digits2_pos r) + e) ≤ e)
    by (rewrite fexp_unfold; lia).
  destruct (binary_round_exact false r e He0 ltac:(lia)) as (m' & Hm' & Hval & Hcanon).
  eexists m', _. split; [exact Hm'|]. split_and!; [|done|done].
  cbn [valid_binary]. unfold bounded, canonical_mantissa. apply andb_true_iff. split.
  - by apply Z.eqb_eq.
  - apply Z.leb_le. change (Float.emax - Float.prec) with 971. lia.
Qed.

(** The product of a 53-digit factor and a float, below [2^32]: it is
    rounded at an exponent of at most [-20], within two units of that
    exponent, to a binary64 value. *)
Lemma mul_spec (Fm mz : positive) (Fe ez : Z) :
  Zpos (digits2_pos Fm) = 53 →
  Zpos Fm * Zpos mz < 2 ^ (32 - (Fe + ez)) →
  ∃ mP eP,
    Float.mul (S754_finite false Fm Fe) (S754_finite false mz ez) = Float.rounded false mP eP ∧
    0 ≤ mP ∧ Fe + ez ≤ eP ≤ -20 ∧
    mP * 2 ^ (eP - (Fe + ez)) ≤ Zpos Fm * Zpos mz + 2 ^ (eP - (Fe + ez)) ∧
    Zpos Fm * Zpos mz < mP * 2 ^ (eP - (Fe + ez)) + 2 * 2 ^ (eP - (Fe + ez)) ∧
    (0 < mP → fexp Float.prec Float.emax (Zdigits2 mP + eP) = eP).
Proof.
  intros HFd Hlt. unfold Float.mul, SFmul. cbn [xorb].
  destruct (binary_round_aux_spec false (Zpos (Fm * mz)) (Fe + ez) ltac:(lia))
    as (mP & eP & -> & HmP & HeP & Hup & Hlo & Hcanon & _).
  rewrite Pos2Z.inj_mul in *.
  set (d := Zdigits2 (Zpos Fm * Zpos mz)) in *.
  assert (Hd53 : 53 ≤ d).
  { rewrite <- HFd. change (Zpos (digits2_pos Fm)) with (Zdigits2 (Zpos Fm)).
    apply Zdigits2_mono. nia. }
  assert (Hd32 : d + (Fe + ez) ≤ 32).
  { change (Zpos Fm * Zpos mz) with (Zpos (Fm * mz)) in Hlt.
    destruct (below_digits _ _ Hlt) as [_ Hd]. unfold d. rewrite <- Pos2Z.inj_mul.
    simpl Zdigits2. lia. }
  rewrite fexp_unfold in HeP, Hcanon.
  exists mP, eP. split_and!; try done; try lia.
Qed.

(** What is left below one microsecond is rounded to the nearest whole
    number, zero or one. *)
Lemma round_leftover_spec (y : Z) (mL : positive) (eL : Z) :
  valid_binary Float.prec Float.emax (S754_finite false mL eL) = true →
  Zpos mL < 2 ^ (- eL) →
  (Timedelta.round_leftover y (S754_finite false mL eL) = 0 ∧ 2 * Zpos mL ≤ 2 ^ (- eL)) ∨
  (Timedelta.round_leftover y (S754_finite false mL eL) = 1 ∧ 2 ^ (- eL) ≤ 2 * Zpos mL).
Proof.
  intros (Hc & _ & _ & _ & _)%valid_binary_finite Hlt.
  destruct (below_digits _ _ Hlt) as [HeL _].
  unfold Timedelta.round_leftover, Float.is_zero, Float.is_halfway, Float.round_half_away.
  destruct (Z.leb_spec 0 eL) as [?|_]; [lia|].
  rewrite Z.land_ones, Z.shiftl_1_l, Z.shiftr_div_pow2 by lia.
  rewrite Z.mod_small, Z.div_small by lia. cbn [cond_Zopp].
  destruct (Z.eqb_spec (2 * Zpos mL) (2 ^ (- eL))) as [Hhalf|Hne].
  - (* the one float that is a half *)
    assert (Hpow : 2 ^ (- eL) = 2 * 2 ^ (- eL - 1)).
    { rewrite <- Z.pow_succ_r by lia. f_equal. lia. }
    assert (Hd : Zdigits2 (Zpos mL) = - eL).
    { apply Zdigits2_unique; lia. }
    simpl Zdigits2 in Hd. rewrite Hd, fexp_unfold in Hc.
    assert (eL = -53) as -> by lia.
    assert (mL = 4503599627370496%positive) as ->.
    { apply Pos2Z.inj. change (- -53 - 1) with 52 in Hpow. change (- -53) with 53 in Hpow, Hhalf.
      change (2 ^ 52) with 4503599627370496 in Hpow.
      change (2 ^ 53) with 9007199254740992 in Hhalf. lia. }
    destruct (Z.odd y); [right | left]; split; vm_compute; done.
  - destruct (Z.leb_spec (2 ^ (- eL)) (2 * Zpos mL)); [right | left]; split; lia.
Qed.

(** The arithmetic of [accum] on a fractional part [r / E], with the
    product [FM / (E * G * S)] rounded to [mP / UP] and then to the whole
    number [x2 + w]. *)
Lemma accum_arith (r factor E G S D UP x2 rP w mP FM : Z) :
  0 < E → 0 < G → 0 < S → 0 < D → 1048576 ≤ UP →
  E * G * S = D * UP →
  FM = factor * G * (r * S) →
  mP * D ≤ FM + D → FM < mP * D + 2 * D →
  mP = x2 * UP + rP →
  (w = 0 ∧ 2 * rP ≤ UP) ∨ (w = 1 ∧ UP ≤ 2 * rP) →
  0 ≤ rP < UP →
  524288 * Z.abs ((x2 + w) * E - r * factor) ≤ 262145 * E.
Proof.
  intros HE HG HS HD HUP HU HFM Hup Hlo HmP Hw HrP.
  assert (HGS : 0 < G * S) by nia.
  assert (Hkey : 524288 * Z.abs (((x2 + w) * E - r * factor) * (G * S))
                 ≤ 262145 * (E * (G * S))).
  { replace (((x2 + w) * E - r * factor) * (G * S))
      with ((x2 + w) * (E * G * S) - FM) by (subst FM; ring).
    replace (E * (G * S)) with (E * G * S) by ring. rewrite HU.
    replace ((x2 + w) * (D * UP) - FM)
      with ((mP * D - FM) + (w * UP - rP) * D) by (subst mP; ring).
    assert (-2 * D < mP * D - FM ≤ D) by lia.
    assert (- (UP * D) ≤ 2 * ((w * UP - rP) * D) ≤ UP * D).
    { destruct Hw as [[-> ?]|[-> ?]]; nia. }
    assert (1048576 * D ≤ UP * D) by (apply Z.mul_le_mono_nonneg_r; lia).
    replace (D * UP) with (UP * D) by ring.
    destruct (Z.abs_spec (mP * D - FM + (w * UP - rP) * D)) as [[_ ->]|[_ ->]]; lia. }
  rewrite Z.abs_mul, (Z.abs_eq (G * S)) in Hkey by lia.
  apply (Z.mul_le_mono_pos_r _ _ (G * S)); [done|]. lia.
Qed.

(** [timedelta] on a binary64 number of units that has a fractional part:
    the microseconds counted are the number times the factor, rounded to a
    nearest whole number up to the rounding of the float product. *)
Lemma new_with_float_close (m : positive) (e : Z) (factor : Z) (Fm : positive) (Fe : Z) :
  valid_binary Float.prec Float.emax (S754_finite false m e) = true → e < 0 →
  Float.of_Z factor = S754_finite false Fm Fe →
  Zpos (digits2_pos Fm) = 53 → Fe ≤ 0 → Zpos Fm = factor * 2 ^ (- Fe) →
  0 < factor < 2 ^ 32 →
  ∃ us, Timedelta.new_with (NFloat (S754_finite false m e)) factor
          = Timedelta.of_microseconds us ∧
        2 ^ 19 * Z.abs (us * 2 ^ (- e) - Zpos m * factor) ≤ (2 ^ 18 + 1) * 2 ^ (- e).
Proof.
  intros Hvalid He HF HFd HFe HFm Hfactor.
  pose proof (pow2_pos (- e) ltac:(lia)) as HE.
  pose proof (Z.div_mod (Zpos m) (2 ^ (- e)) ltac:(lia)) as Hdm.
  pose proof (Z.mod_pos_bound (Zpos m) (2 ^ (- e)) HE) as Hr.
  unfold Timedelta.new_with, Timedelta.accum.
  cbn [Float.trunc cond_Zopp]. destruct (Z.leb_spec 0 e) as [?|_]; [lia|].
  rewrite Z.shiftr_div_pow2 by lia. cbn [mbind result_bind].
  set (n := Zpos m / 2 ^ (- e)) in *.
  destruct (frac_exact m e Hvalid He) as [[Hr0 ->]|(mz & ez & -> & Hvz & Hez & Hmz)].
  { cbn [Float.is_zero]. eexists. split; [reflexivity|].
    unfold Timedelta.round_leftover. cbn [Float.is_zero].
    rewrite Hr0 in Hdm.
    replace ((0 + n * factor + 0) * 2 ^ (- e) - Zpos m * factor) with 0 by nia.
    simpl. lia. }
  change (2 ^ 19) with 524288. change (2 ^ 18 + 1) with 262145.
  cbn [Float.is_zero]. rewrite HF.
  set (r := Zpos m `mod` 2 ^ (- e)) in *. clearbody n r.
  pose proof (pow2_pos (e - ez) ltac:(lia)) as HS.
  pose proof (pow2_pos (- Fe) ltac:(lia)) as HG.
  assert (HU0 : 2 ^ (- (Fe + ez)) = 2 ^ (- e) * 2 ^ (- Fe) * 2 ^ (e - ez)).
  { rewrite <- !Z.pow_add_r by lia. f_equal. lia. }
  assert (Hprod : Zpos Fm * Zpos mz < 2 ^ (32 - (Fe + ez))).
  { replace (32 - (Fe + ez)) with (32 + - (Fe + ez)) by lia.
    rewrite Z.pow_add_r, HU0, HFm, Hmz by lia.
    assert (factor * r < 2 ^ 32 * 2 ^ (- e)) by nia.
    assert (0 < 2 ^ (- Fe) * 2 ^ (e - ez)) by nia.
    replace (factor * 2 ^ (- Fe) * (r * 2 ^ (e - ez)))
      with (factor * r * (2 ^ (- Fe) * 2 ^ (e - ez))) by ring.
    replace (2 ^ 32 * (2 ^ (- e) * 2 ^ (- Fe) * 2 ^ (e - ez)))
      with (2 ^ 32 * 2 ^ (- e) * (2 ^ (- Fe) * 2 ^ (e - ez))) by ring.
    by apply Z.mul_lt_mono_pos_r. }
  destruct (mul_spec Fm mz Fe ez HFd Hprod) as (mP & eP & -> & HmP & HeP & Hup & Hlo & Hcanon).
  pose proof (pow2_pos (eP - (Fe + ez)) ltac:(lia)) as HD.
  pose proof (pow2_pos (- eP) ltac:(lia)) as HUP.
  assert (HUP4 : 1048576 ≤ 2 ^ (- eP)).
  { change 1048576 with (2 ^ 20). apply Z.pow_le_mono_r; lia. }
  assert (HU : 2 ^ (- e) * 2 ^ (- Fe) * 2 ^ (e - ez) = 2 ^ (eP - (Fe + ez)) * 2 ^ (- eP)).
  { rewrite <- HU0, <- Z.pow_add_r by lia. f_equal. lia. }
  assert (HFM : Zpos Fm * Zpos mz = factor * 2 ^ (- Fe) * (r * 2 ^ (e - ez)))
    by (by rewrite HFm, Hmz).
  (* what remains is to read off the whole part and the rounded leftover *)
  assert (Hgoal : ∀ x2 rP w,
            mP = x2 * 2 ^ (- eP) + rP →
            (w = 0 ∧ 2 * rP ≤ 2 ^ (- eP)) ∨ (w = 1 ∧ 2 ^ (- eP) ≤ 2 * rP) →
            0 ≤ rP < 2 ^ (- eP) →
            524288 * Z.abs ((0 + n * factor + x2 + w) * 2 ^ (- e) - Zpos m * factor)
            ≤ 262145 * 2 ^ (- e)).
  { intros x2 rP w HmPeq Hw HrP.
    replace ((0 + n * factor + x2 + w) * 2 ^ (- e) - Zpos m * factor)
      with ((x2 + w) * 2 ^ (- e) - r * factor) by (rewrite Hdm; ring).
    apply (accum_arith r factor (2 ^ (- e)) (2 ^ (- Fe)) (2 ^ (e - ez))
             (2 ^ (eP - (Fe + ez))) (2 ^ (- eP)) x2 rP w mP (Zpos Fm * Zpos mz));
      done. }
  destruct mP as [|pP|pP]; [| |lia].
  - (* the product rounds to zero *)
    cbn [Float.rounded Float.trunc Float.frac mbind result_bind Float.add SFadd].
    eexists. split; [reflexivity|].
    unfold Timedelta.round_leftover. cbn [Float.is_zero].
    apply (Hgoal 0 0 0); lia.
  - unfold Float.rounded.
    assert ((eP <=? 971) = true) as -> by (apply Z.leb_le; lia).
    assert (HvP : valid_binary Float.prec Float.emax (S754_finite false pP eP) = true).
    { cbn [valid_binary]. unfold bounded, canonical_mantissa. apply andb_true_iff. split.
      - apply Z.eqb_eq. by apply Hcanon.
      - apply Z.leb_le. change (Float.emax - Float.prec) with 971. lia. }
    cbn [Float.trunc cond_Zopp]. destruct (Z.leb_spec 0 eP) as [?|_]; [lia|].
    rewrite Z.shiftr_div_pow2 by lia. cbn [mbind result_bind].
    pose proof (Z.div_mod (Zpos pP) (2 ^ (- eP)) ltac:(lia)) as HdmP.
    pose proof (Z.mod_pos_bound (Zpos pP) (2 ^ (- eP)) HUP) as HrP.
    destruct (frac_exact pP eP HvP ltac:(lia)) as [[HrP0 ->]|(mL & eL & -> & HvL & HeL & HmL)].
    + cbn [Float.add SFadd]. eexists. split; [reflexivity|].
      unfold Timedelta.round_leftover. cbn [Float.is_zero].
      apply (Hgoal _ 0 0); lia.
    + cbn [Float.add SFadd]. eexists. split; [reflexivity|].
      pose proof (pow2_pos (eP - eL) ltac:(lia)) as HT.
      assert (HUL : 2 ^ (- eL) = 2 ^ (- eP) * 2 ^ (eP - eL)).
      { rewrite <- Z.pow_add_r by lia. f_equal. lia. }
      assert (HmLlt : Zpos mL < 2 ^ (- eL)) by (rewrite HUL, HmL; nia).
      apply (Hgoal _ (Zpos pP `mod` 2 ^ (- eP))); [lia| |lia].
      destruct (round_leftover_spec
                  (0 + n * factor + Zpos pP `div` 2 ^ (- eP)) mL eL HvL HmLlt)
        as [[-> Hle]|[-> Hle]]; [left | right]; (split; [done|]);
        rewrite HUL, HmL in Hle; nia.
Qed.

(** An int is converted to a float of its sign, or to an infinity: of the
    least exponent that holds it when it has at most 53 digits. *)
Lemma binary_round_int (s : bool) (p : positive) :
  (∃ m e, binary_round Float.prec Float.emax s p 0 = S754_finite s m e ∧
          (-52 < e ∨ (e = -52 ∧ 2 ^ 52 ≤ Zpos m)) ∧ Zpos p < 2 ^ 1024) ∨
  (binary_round Float.prec Float.emax s p 0 = S754_infinity s ∧ 2 ^ 1023 ≤ Zpos p).
Proof.
  destruct (digits2_pos_spec p) as [Hlo Hhi].
  set (d := Zpos (digits2_pos p)) in *.
  assert (Hd : 1 ≤ d) by (unfold d; lia).
  destruct (Z.le_gt_cases d 53) as [Hsmall|Hlarge].
  - left.
    assert (He0 : fexp Float.prec Float.emax (d + 0) = d - 53) by (rewrite fexp_unfold; lia).
    destruct (binary_round_exact s p 0) as (m' & Hm' & Hval & _); fold d; rewrite ?He0; [lia..|].
    fold d in Hm', Hval. rewrite He0 in Hm', Hval.
    exists m', (d - 53). split; [done|]. split.
    + destruct (Z.eq_dec d 1) as [Hd1|?]; [right | left; lia].
      split; [lia|]. rewrite Hval, Hd1. change (2 ^ (0 - (1 - 53))) with (2 ^ 52). lia.
    + assert (2 ^ d ≤ 2 ^ 1024) by (apply Z.pow_le_mono_r; lia). lia.
  - unfold binary_round, shl_align. fold d.
    assert (He0 : fexp Float.prec Float.emax (d + 0) = d - 53) by (rewrite fexp_unfold; lia).
    rewrite He0. destruct (d - 53 - 0) as [|k|k] eqn:Hk; [lia| |lia].
    destruct (binary_round_aux_spec s (Zpos p) 0 ltac:(lia))
      as (m & e & -> & Hm & He & _ & Hlow & _ & _).
    simpl Zdigits2 in He. fold d in He. rewrite He0 in He.
    rewrite Z.sub_0_r in Hlow.
    assert (Hmpos : 0 < m).
    { destruct (Z.eq_dec m 0) as [->|?]; [|lia]. exfalso.
      assert (2 * 2 ^ e ≤ 2 ^ (d - 1)); [|lia].
      rewrite <- Z.pow_succ_r by lia. apply Z.pow_le_mono_r; lia. }
    destruct m as [|m|m]; [lia| |lia]. unfold Float.rounded.
    destruct (Z.leb_spec e 971) as [He971|He971].
    + left. exists m, e. split; [done|]. split; [left; lia|].
      assert (2 ^ d ≤ 2 ^ 1024) by (apply Z.pow_le_mono_r; lia). lia.
    + right. split; [done|].
      assert (2 ^ 1023 ≤ 2 ^ (d - 1)) by (apply Z.pow_le_mono_r; lia). lia.
Qed.

Lemma shr_1_r (mrs : shr_record) :
  0 ≤ shr_m mrs → shr_r (shr_1 mrs) = Z.testbit (shr_m mrs) 0.
Proof. destruct mrs as [[|[p|p|]|p] r s]; simpl; try done; lia. Qed.

(** The rounding bit after a shift is the last bit shifted out. *)
Lemma iter_shr_1_r (p : positive) (mrs : shr_record) :
  0 ≤ shr_m mrs →
  shr_r (SpecFloat.iter_pos shr_1 p mrs) = Z.testbit (shr_m mrs) (Zpos p - 1).
Proof.
  revert mrs. induction p as [p IH|p IH|]; intros mrs Hm; cbn [SpecFloat.iter_pos].
  - assert (Hm1 : 0 ≤ shr_m (shr_1 mrs)) by (rewrite shr_1_m by done; by apply Z.div_pos).
    assert (0 ≤ shr_m (SpecFloat.iter_pos shr_1 p (shr_1 mrs)))
      by (rewrite iter_shr_1_m by done; apply Z.div_pos; [done | by apply pow2_pos]).
    rewrite IH, iter_shr_1_m, shr_1_m by done.
    rewrite Z.div_pow2_bits by lia.
    change 2 with (2 ^ 1) at 1. rewrite Z.div_pow2_bits by lia.
    f_equal. lia.
  - assert (0 ≤ shr_m (SpecFloat.iter_pos shr_1 p mrs))
      by (rewrite iter_shr_1_m by done; apply Z.div_pos; [done | by apply pow2_pos]).
    rewrite IH, iter_shr_1_m by done.
    rewrite Z.div_pow2_bits by lia. f_equal. lia.
  - by apply shr_1_r.
Qed.

Lemma shr_fexp_round_bit (m e : Z) :
  0 ≤ m → e < fexp Float.prec Float.emax (Zdigits2 m + e) →
  shr_r (shr_fexp Float.prec Float.emax m e loc_Exact).1
  = Z.testbit m (fexp Float.prec Float.emax (Zdigits2 m + e) - e - 1).
Proof.
  intros Hm He. unfold shr_fexp, shr.
  destruct (fexp Float.prec Float.emax (Zdigits2 m + e) - e) as [|p|p] eqn:Hk; [lia| |lia].
  cbn [fst]. rewrite iter_shr_1_r by done. done.
Qed.

(** Rounding moves up only on a set rounding bit, and does so on an odd
    mantissa. *)
Lemma round_nearest_even_bit (mrs : shr_record) :
  (shr_r mrs = false → round_nearest_even (shr_m mrs) (loc_of_shr_record mrs) = shr_m mrs) ∧
  (shr_r mrs = true → Z.odd (shr_m mrs) = true →
   round_nearest_even (shr_m mrs) (loc_of_shr_record mrs) = shr_m mrs + 1).
Proof.
  destruct mrs as [m [] []]; simpl; split; try done.
  intros _ Hodd. rewrite <- Z.negb_odd, Hodd. done.
Qed.

(** The largest ints that have a float: [float(n)] overflows exactly from
    [2^1024 - 2^970] on. *)
Lemma binary_round_int_overflow (s : bool) (p : positive) :
  binary_round Float.prec Float.emax s p 0 = S754_infinity s ↔ 2 ^ 1024 - 2 ^ 970 ≤ Zpos p.
Proof.
  destruct (digits2_pos_spec p) as [Hlo Hhi].
  set (d := Zpos (digits2_pos p)) in *.
  assert (Hd : 1 ≤ d) by (unfold d; lia).
  pose proof (pow2_pos 970 ltac:(lia)) as HP.
  assert (H1024 : 2 ^ 1024 = 18014398509481984 * 2 ^ 970).
  { change 18014398509481984 with (2 ^ 54). rewrite <- Z.pow_add_r by lia. done. }
  assert (H1023 : 2 ^ 1023 = 9007199254740992 * 2 ^ 970).
  { change 9007199254740992 with (2 ^ 53). rewrite <- Z.pow_add_r by lia. done. }
  assert (H971 : 2 ^ 971 = 2 * 2 ^ 970).
  { change 2 with (2 ^ 1) at 2. rewrite <- Z.pow_add_r by lia. done. }
  destruct (Z.lt_trichotomy d 1024) as [Hsmall|[Heq|Hlarge]].
  - (* below 2^1023 *)
    assert (2 ^ d ≤ 2 ^ 1023) by (apply Z.pow_le_mono_r; lia).
    destruct (binary_round_int s p) as [(m & e & -> & _)|[_ ?]]; [|lia].
    split; [done | lia].
  - (* the last binade *)
    rewrite Heq in Hlo, Hhi. change (1024 - 1) with 1023 in Hlo.
    unfold binary_round, shl_align. fold d. rewrite Heq.
    change (fexp Float.prec Float.emax (1024 + 0) - 0) with 971. cbn beta iota.
    unfold binary_round_aux.
    pose proof (shr_fexp_round_bit (Zpos p) 0 ltac:(lia)) as Hbit.
    destruct (shr_fexp_exact (Zpos p) 0 ltac:(lia)) as (mrs' & Hshr & Hm1 & _).
    simpl Zdigits2 in Hshr, Hm1, Hbit. fold d in Hshr, Hm1, Hbit.
    rewrite Heq in Hshr, Hm1, Hbit.
    change (fexp Float.prec Float.emax (1024 + 0)) with 971 in Hshr, Hm1, Hbit.
    change (Z.max 0 971) with 971 in Hshr, Hm1. change (971 - 0) with 971 in Hm1.
    change (971 - 0 - 1) with 970 in Hbit.
    rewrite Hshr in Hbit |- *. cbn [fst] in Hbit.
    (* the mantissa and the rounding bit, in terms of [p / 2^970] *)
    assert (Hq : Zpos p / 2 ^ 971 = Zpos p / 2 ^ 970 / 2)
      by (rewrite H971, Z.mul_comm, Z.div_div by lia; done).
    assert (Hodd : shr_r mrs' = Z.odd (Zpos p / 2 ^ 970)).
    { rewrite Hbit, <- Z.bit0_odd, Z.div_pow2_bits by lia. done. }
    assert (Hqlo : 9007199254740992 ≤ Zpos p / 2 ^ 970)
      by (apply Z.div_le_lower_bound; lia).
    assert (Hqhi : Zpos p / 2 ^ 970 < 18014398509481984)
      by (apply Z.div_lt_upper_bound; lia).
    assert (Hthr : 2 ^ 1024 - 2 ^ 970 ≤ Zpos p ↔ Zpos p / 2 ^ 970 = 18014398509481983).
    { destruct (div_pow2_bounds (Zpos p) 970 ltac:(lia)) as [Hb1 Hb2]. split; intros; nia. }
    rewrite Hthr. clear Hthr.
    revert Hq Hodd Hqlo Hqhi. generalize (Zpos p / 2 ^ 970). intros q Hq Hodd Hqlo Hqhi.
    rewrite Hq in Hm1. clear Hq Hbit.
    pose proof (Z.div_mod q 2 ltac:(lia)) as Hq2.
    pose proof (Z.mod_pos_bound q 2 ltac:(lia)) as Hq2b.
    rewrite Zodd_mod in Hodd.
    destruct (round_nearest_even_bit mrs') as [Hstay Hup].
    pose proof (round_nearest_even_bounds (shr_m mrs') (loc_of_shr_record mrs')) as Hm2.
    set (m2 := round_nearest_even (shr_m mrs') (loc_of_shr_record mrs')) in *.
    destruct (shr_fexp_exact m2 971 ltac:(lia)) as (mrs'' & -> & Hm3 & _).
    assert (Hm2lo : 4503599627370496 ≤ m2) by lia.
    destruct (Z.eq_dec m2 9007199254740992) as [Hm2eq|Hm2ne].
    + (* rounded up to 2^53 *)
      rewrite Hm2eq in Hm3 |- *.
      change (Z.max 971 (fexp Float.prec Float.emax (Zdigits2 9007199254740992 + 971)))
        with 972 in Hm3 |- *.
      change (9007199254740992 / 2 ^ (972 - 971)) with 4503599627370496 in Hm3.
      rewrite Hm3. cbn. split; [intros _|done].
      destruct (shr_r mrs') eqn:Hr.
      * destruct (Z.eqb_spec (q `mod` 2) 1); [lia|done].
      * rewrite (Hstay eq_refl) in Hm2eq. lia.
    + assert (Hd2 : Zdigits2 m2 = 53).
      { apply Zdigits2_unique; [lia|]. change (2 ^ (53 - 1)) with 4503599627370496.
        change (2 ^ 53) with 9007199254740992. lia. }
      rewrite Hd2 in Hm3 |- *.
      change (Z.max 971 (fexp Float.prec Float.emax (53 + 971))) with 971 in Hm3 |- *.
      rewrite Z.sub_diag, Z.div_1_r in Hm3. rewrite Hm3.
      destruct m2 as [|m2p|m2p]; [lia| |lia]. cbn. split; [done|].
      intros Hqeq. exfalso. apply Hm2ne.
      assert (Hr : shr_r mrs' = true).
      { rewrite Hodd, Hqeq. done. }
      assert (Hm1odd : Z.odd (shr_m mrs') = true).
      { rewrite Hm1, Hqeq. done. }
      rewrite (Hup Hr Hm1odd), Hm1, Hqeq. done.
  - (* from 2^1024 on *)
    assert (2 ^ 1024 ≤ 2 ^ (d - 1)) by (apply Z.pow_le_mono_r; lia).
    destruct (binary_round_int s p) as [(m & e & _ & _ & ?)|[-> _]]; [lia|].
    split; [lia | done].
Qed.

(** [float(n)] raises exactly from [2^1024 - 2^970] on, and otherwise keeps
    the side of 1 the int [n] is on. *)
Lemma of_int_overflow (n : Z) :
  Float.of_int n = Raise OverflowError ↔ 2 ^ 1024 - 2 ^ 970 ≤ Z.abs n.
Proof.
  unfold Float.of_int, Float.of_Z. destruct n as [|p|p]; cbn [binary_normalize Z.abs].
  - split; [done|]. intros H. exfalso. revert H. by vm_compute.
  - rewrite <- (binary_round_int_overflow false p).
    destruct (binary_round_int false p) as [(m & e & -> & _)|[-> _]]; done.
  - rewrite <- (binary_round_int_overflow true p).
    destruct (binary_round_int true p) as [(m & e & -> & _)|[-> _]]; done.
Qed.

Lemma of_int_ge_1 (n : Z) :
  1 ≤ n < 2 ^ 1024 - 2 ^ 970 →
  ∃ x, Float.of_int n = Ok x ∧ Float.ge_int x 1 = true.
Proof.
  intros [Hn Hmax]. destruct n as [|p|p]; [lia| |lia].
  pose proof (binary_round_int_overflow false p) as Hover.
  unfold Float.of_int, Float.of_Z. cbn [binary_normalize].
  destruct (binary_round_int false p) as [(m & e & Heq & He & Hp)|[Heq _]].
  - rewrite Heq. exists (S754_finite false m e). split; [done|]. by apply ge_1_finite.
  - apply Hover in Heq. lia.
Qed.

Lemma of_int_lt_1 (n : Z) :
  - (2 ^ 1024 - 2 ^ 970) < n < 1 →
  ∃ x, Float.of_int n = Ok x ∧ Float.lt_int x 1 = true.
Proof.
  intros [Hmin Hn]. destruct n as [|p|p]; [|lia|].
  - by exists (S754_zero false).
  - pose proof (binary_round_int_overflow true p) as Hover.
    unfold Float.of_int, Float.of_Z. cbn [binary_normalize].
    destruct (binary_round_int true p) as [(m & e & Heq & He & Hp)|[Heq _]].
    + rewrite Heq. by exists (S754_finite true m e).
    + apply Hover in Heq. lia.
Qed.

End RoundingExact.

(** ** pydantic *)

Section PydanticFacts.
Context {I O : Type}.
Implicit Types (fields : list (Pydantic.ModelField I O)) (data : gmap string I).
Implicit Types (acc : gmap string O * list (string * PydanticError)).

(** Validation reads the input at the names of the declared fields only. *)
Lemma validate_fields_ext fields data data' acc :
  (∀ f, f ∈ fields → data !! Pydantic.name f = data' !! Pydantic.name f) →
  Pydantic.validate_fields fields data acc = Pydantic.validate_fields fields data' acc.
Proof.
  revert acc. induction fields as [|f fields IH]; intros acc Hagree; [done|].
  cbn [Pydantic.validate_fields].
  assert (Pydantic.validate_field data acc f = Pydantic.validate_field data' acc f) as ->.
  { unfold Pydantic.validate_field. by rewrite (Hagree f) by apply list_elem_of_here. }
  destruct (Pydantic.validate_field data' acc f) as [acc'|exc]; [|done].
  cbn [mbind result_bind]. apply IH. intros g Hg. by apply Hagree, list_elem_of_further.
Qed.

Lemma init_ext fields data data' :
  (∀ f, f ∈ fields → data !! Pydantic.name f = data' !! Pydantic.name f) →
  Pydantic.init fields data = Pydantic.init fields data'.
Proof.
  intros Hagree. unfold Pydantic.init, Pydantic.validate_model.
  by rewrite (validate_fields_ext _ _ _ _ Hagree).
Qed.

(** Only declared fields are stored. *)
Lemma validate_fields_stored fields data acc acc' k :
  Pydantic.validate_fields fields data acc = Ok acc' →
  is_Some (acc'.1 !! k) →
  is_Some (acc.1 !! k) ∨ k ∈ Pydantic.name <$> fields.
Proof.
  revert acc. induction fields as [|f fields IH]; intros acc; cbn [Pydantic.validate_fields].
  { intros [= <-]. by left. }
  destruct (Pydantic.validate_field data acc f) as [acc1|exc] eqn:Hf; [|done].
  cbn [mbind result_bind]. intros Hrest Hk.
  destruct (IH _ Hrest Hk) as [H|H]; [|right; by apply list_elem_of_further].
  destruct acc as [values errors]. unfold Pydantic.validate_field in Hf.
  destruct (decide (k = Pydantic.name f)) as [->|Hne].
  { right. apply list_elem_of_here. }
  left. simpl.
  destruct (data !! Pydantic.name f) as [v|].
  - destruct (Pydantic.validate f v); [| |done]; injection Hf as <-; simpl in H; [|done].
    by rewrite lookup_insert_ne in H.
  - destruct (Pydantic.required f); injection Hf as <-; simpl in H; [done|].
    by rewrite lookup_insert_ne in H.
Qed.

Lemma init_stored fields data (obj : gmap string O) k :
  Pydantic.init fields data = Ok obj →
  is_Some (obj !! k) → k ∈ Pydantic.name <$> fields.
Proof.
  unfold Pydantic.init, Pydantic.validate_model.
  destruct (Pydantic.validate_fields fields data (∅, [])) as [[values errors]|exc] eqn:Hf;
    [|done].
  cbn [mbind result_bind]. destruct errors; [|done]. intros [= <-] Hk.
  destruct (validate_fields_stored fields data (∅, []) _ k Hf Hk) as [H|H]; [|done].
  simpl in H. rewrite lookup_empty in H. by destruct H.
Qed.

End PydanticFacts.

(** ** StrategySettings *)

(** The constructor, spelled out over what the input holds for the two
    declared fields. *)
Lemma settings_new_unfold (data : gmap string PyVal) :
  StrategySettings.new data =
    match
      match data !! "history_duration" with
      | None => Pydantic.Valid (NInt 336)
      | Some v => StrategySettings.float_ge 1 v
      end
    with
    | Pydantic.Uncaught exc => Raise exc
    | Pydantic.Valid h =>
        match
          match data !! "timeframe_duration" with
          | None => Pydantic.Valid (NInt 15)
          | Some v => StrategySettings.float_ge 1 v
          end
        with
        | Pydantic.Valid t =>
            Ok (<["timeframe_duration" := t]> (<["history_duration" := h]> ∅))
        | Pydantic.Invalid e => Raise (ValidationError [("timeframe_duration", e)])
        | Pydantic.Uncaught exc => Raise exc
        end
    | Pydantic.Invalid e1 =>
        match
          match data !! "timeframe_duration" with
          | None => Pydantic.Valid (NInt 15)
          | Some v => StrategySettings.float_ge 1 v
          end
        with
        | Pydantic.Valid _ => Raise (ValidationError [("history_duration", e1)])
        | Pydantic.Invalid e2 =>
            Raise (ValidationError [("history_duration", e1); ("timeframe_duration", e2)])
        | Pydantic.Uncaught exc => Raise exc
        end
    end.
Proof.
  unfold StrategySettings.new, Pydantic.init, Pydantic.validate_model,
    StrategySettings.fields.
  cbn [Pydantic.validate_fields]. unfold Pydantic.validate_field.
  cbn [Pydantic.name Pydantic.required Pydantic.default Pydantic.validate].
  destruct (data !! "history_duration") as [vh|];
    [destruct (StrategySettings.float_ge 1 vh)|];
    cbn [mbind result_bind]; cbn beta iota; try reflexivity;
    (destruct (data !! "timeframe_duration") as [vt|];
       [destruct (StrategySettings.float_ge 1 vt)|]); reflexivity.
Qed.

Lemma settings_read (h t : PyNum) :
  StrategySettings.history_duration
    (<["timeframe_duration" := t]> (<["history_duration" := h]> ∅)) = Ok h ∧
  StrategySettings.timeframe_duration
    (<["timeframe_duration" := t]> (<["history_duration" := h]> ∅)) = Ok t.
Proof.
  unfold StrategySettings.history_duration, StrategySettings.timeframe_duration,
    Pydantic.getattr.
  rewrite lookup_insert_eq, lookup_insert_ne by done. by rewrite lookup_insert_eq.
Qed.

(** The validator is a function of what [float(v)] does. *)
Lemma float_validator_call (v : PyVal) :
  StrategySettings.float_validator v =
    match StrategySettings.float_call v with
    | Ok x => Pydantic.Valid x
    | Raise exc =>
        if StrategySettings.caught exc then Pydantic.Invalid FloatError
        else Pydantic.Uncaught exc
    end.
Proof. by destruct v. Qed.

Lemma float_ge_call (limit : Z) (v : PyVal) :
  StrategySettings.float_ge limit v =
    match StrategySettings.float_call v with
    | Ok x =>
        if Float.ge_int x limit then Pydantic.Valid (NFloat x)
        else Pydantic.Invalid (NumberNotGeError limit)
    | Raise exc =>
        if StrategySettings.caught exc
        then Pydantic.Invalid match v with VNone => NoneIsNotAllowedError | _ => FloatError end
        else Pydantic.Uncaught exc
    end.
Proof.
  destruct v as [|x|n|d|c]; [done|by simpl; destruct (Float.ge_int x limit)|..];
    unfold StrategySettings.float_ge; rewrite float_validator_call;
    (destruct (StrategySettings.float_call _) as [x|exc];
       [by destruct (Float.ge_int x limit) | by destruct (StrategySettings.caught exc)]).
Qed.

Lemma float_ge_valid (limit : Z) (v : PyVal) (n : PyNum) :
  StrategySettings.float_ge limit v = Pydantic.Valid n →
  ∃ x, StrategySettings.float_call v = Ok x ∧ n = NFloat x ∧ Float.ge_int x limit = true.
Proof.
  rewrite float_ge_call.
  destruct (StrategySettings.float_call v) as [x|exc].
  - destruct (Float.ge_int x limit) eqn:Hge; [|done]. intros [= <-]. by exists x.
  - by destruct (StrategySettings.caught exc).
Qed.

(** A constructed settings object holds exactly the two fields, each the
    default or the validated input. *)
Lemma settings_new_inv (data : gmap string PyVal) (self : gmap string PyNum) :
  StrategySettings.new data = Ok self →
  ∃ h t,
    self = <["timeframe_duration" := t]> (<["history_duration" := h]> ∅) ∧
    match data !! "history_duration" with
    | None => h = NInt 336
    | Some v => ∃ x, StrategySettings.float_call v = Ok x ∧
                     h = NFloat x ∧ Float.ge_int x 1 = true
    end ∧
    match data !! "timeframe_duration" with
    | None => t = NInt 15
    | Some v => ∃ x, StrategySettings.float_call v = Ok x ∧
                     t = NFloat x ∧ Float.ge_int x 1 = true
    end.
Proof.
  rewrite settings_new_unfold.
  destruct (data !! "history_duration") as [vh|];
    [destruct (StrategySettings.float_ge 1 vh) as [h|e|exc] eqn:Hh|];
    (destruct (data !! "timeframe_duration") as [vt|];
       [destruct (StrategySettings.float_ge 1 vt) as [t|e'|exc'] eqn:Ht|]);
    try done; intros [= <-]; eexists _, _; (split; [reflexivity|]);
    split; try done; by apply float_ge_valid.
Qed.

(** What the constructor does with a field that validation rejects, when
    the conversion of the other field raises nothing that goes through. *)
Lemma settings_new_rejects (data : gmap string PyVal) (field other : string)
    (v : PyVal) (e : PydanticError) :
  (field = "history_duration" ∧ other = "timeframe_duration") ∨
  (field = "timeframe_duration" ∧ other = "history_duration") →
  data !! field = Some v →
  StrategySettings.float_ge 1 v = Pydantic.Invalid e →
  (∀ v' exc, data !! other = Some v' → StrategySettings.float_call v' = Raise exc →
             StrategySettings.caught exc = true) →
  ∃ errors, StrategySettings.new data = Raise (ValidationError errors) ∧ (field, e) ∈ errors.
Proof.
  intros Hfield Hv Hinv Hother. rewrite settings_new_unfold.
  assert (Hcases : ∃ o : Pydantic.Validated PyNum,
            match data !! other with
            | Some v' => StrategySettings.float_ge 1 v'
            | None => o
            end = o ∧ ∀ exc, o ≠ Pydantic.Uncaught exc).
  { destruct (data !! other) as [v'|] eqn:Hv'; [|by exists (Pydantic.Valid (NInt 0))].
    exists (StrategySettings.float_ge 1 v'). split; [done|]. intros exc.
    rewrite float_ge_call.
    destruct (StrategySettings.float_call v') as [x|exc'] eqn:Hcall.
    - by destruct (Float.ge_int x 1).
    - by rewrite (Hother v' exc' eq_refl Hcall). }
  destruct Hfield as [[-> ->]|[-> ->]]; rewrite Hv, Hinv.
  - destruct (data !! "timeframe_duration") as [v'|].
    + destruct Hcases as (o & <- & Ho).
      destruct (StrategySettings.float_ge 1 v') as [t|e'|exc];
        [| |by destruct (Ho exc)]; eexists; (split; [reflexivity | apply list_elem_of_here]).
    + eexists; (split; [reflexivity | apply list_elem_of_here]).
  - destruct (data !! "history_duration") as [v'|].
    + destruct Hcases as (o & <- & Ho).
      destruct (StrategySettings.float_ge 1 v') as [t|e'|exc];
        [| |by destruct (Ho exc)]; eexists; (split; [reflexivity|]).
      * apply list_elem_of_here.
      * apply list_elem_of_further, list_elem_of_here.
    + eexists; (split; [reflexivity | apply list_elem_of_here]).
Qed.

Section SettingsBounds.
Local Open Scope Z_scope.

(** C2 (as amended). Settings bound enforcement: each field is converted by
    [float(v)], and the bound is checked on the float. When the conversion of
    [history_duration] or [timeframe_duration] gives a float below 1 (and
    that of the other field raises nothing but [TypeError] or [ValueError]),
    the construction raises [ValidationError], with a not-ge error for that
    field; when each of the two is omitted or converts to a float that is at
    least 1 the construction succeeds, and stores the floats; after any
    successful construction both fields are at least 1, an omitted one
    holding its default, 336 and 15. A float is converted to itself; an int
    of magnitude below [2^1024 - 2^970] to a float on the same side of 1;
    from there on, the conversion of an int, and with it the construction,
    raises [OverflowError]. *)
Theorem settings_bound_enforcement (data : gmap string PyVal) :
  (∀ v x, data !! "history_duration" = Some v →
          StrategySettings.float_call v = Ok x → Float.lt_int x 1 = true →
          (∀ v' exc, data !! "timeframe_duration" = Some v' →
                     StrategySettings.float_call v' = Raise exc →
                     StrategySettings.caught exc = true) →
          ∃ errors, StrategySettings.new data = Raise (ValidationError errors) ∧
                    ("history_duration", NumberNotGeError 1) ∈ errors)
  ∧ (∀ v x, data !! "timeframe_duration" = Some v →
          StrategySettings.float_call v = Ok x → Float.lt_int x 1 = true →
          (∀ v' exc, data !! "history_duration" = Some v' →
                     StrategySettings.float_call v' = Raise exc →
                     StrategySettings.caught exc = true) →
          ∃ errors, StrategySettings.new data = Raise (ValidationError errors) ∧
                    ("timeframe_duration", NumberNotGeError 1) ∈ errors)
  ∧ ((data !! "history_duration" = None ∨
      ∃ v x, data !! "history_duration" = Some v ∧
             StrategySettings.float_call v = Ok x ∧ Float.ge_int x 1 = true) →
     (data !! "timeframe_duration" = None ∨
      ∃ v x, data !! "timeframe_duration" = Some v ∧
             StrategySettings.float_call v = Ok x ∧ Float.ge_int x 1 = true) →
     ∃ self, StrategySettings.new data = Ok self)
  ∧ (∀ self, StrategySettings.new data = Ok self →
       ∃ h t, StrategySettings.history_duration self = Ok h ∧
              StrategySettings.timeframe_duration self = Ok t ∧
              StrategySettings.num_ge h 1 = true ∧
              StrategySettings.num_ge t 1 = true ∧
              (∀ v, data !! "history_duration" = Some v →
                    ∃ x, StrategySettings.float_call v = Ok x ∧ h = NFloat x) ∧
              (∀ v, data !! "timeframe_duration" = Some v →
                    ∃ x, StrategySettings.float_call v = Ok x ∧ t = NFloat x) ∧
              (data !! "history_duration" = None → h = NInt 336) ∧
              (data !! "timeframe_duration" = None → t = NInt 15))
  ∧ (∀ x, StrategySettings.float_call (VFloat x) = Ok x)
  ∧ (∀ n, 1 ≤ n < 2 ^ 1024 - 2 ^ 970 →
          ∃ x, StrategySettings.float_call (VInt n) = Ok x ∧ Float.ge_int x 1 = true)
  ∧ (∀ n, - (2 ^ 1024 - 2 ^ 970) < n < 1 →
          ∃ x, StrategySettings.float_call (VInt n) = Ok x ∧ Float.lt_int x 1 = true)
  ∧ (∀ n, 2 ^ 1024 - 2 ^ 970 ≤ Z.abs n →
          StrategySettings.float_call (VInt n) = Raise OverflowError ∧
          (data !! "history_duration" = Some (VInt n) →
           StrategySettings.new data = Raise OverflowError)).
Proof.
  split_and!.
  - intros v x Hv Hcall Hlt Hother.
    apply (settings_new_rejects data "history_duration" "timeframe_duration" v);
      [by left | done | | done].
    rewrite float_ge_call, Hcall. by rewrite (float_lt_not_ge _ _ Hlt).
  - intros v x Hv Hcall Hlt Hother.
    apply (settings_new_rejects data "timeframe_duration" "history_duration" v);
      [by right | done | | done].
    rewrite float_ge_call, Hcall. by rewrite (float_lt_not_ge _ _ Hlt).
  - rewrite settings_new_unfold.
    intros [->|(vh & h & -> & Hh & Hhge)] [->|(vt & t & -> & Ht & Htge)];
      rewrite ?float_ge_call, ?Hh, ?Ht, ?Hhge, ?Htge; eauto.
  - intros self Hnew.
    apply settings_new_inv in Hnew as (h & t & -> & Hh & Ht).
    destruct (settings_read h t) as [-> ->]. exists h, t.
    split_and!; try done.
    + destruct (data !! "history_duration") as [v|]; [|by subst].
      by destruct Hh as (x & _ & -> & Hx).
    + destruct (data !! "timeframe_duration") as [v|]; [|by subst].
      by destruct Ht as (x & _ & -> & Hx).
    + intros v Hv. rewrite Hv in Hh. destruct Hh as (x & Hx & -> & _). by exists x.
    + intros v Hv. rewrite Hv in Ht. destruct Ht as (x & Hx & -> & _). by exists x.
    + intros Hd. by rewrite Hd in Hh.
    + intros Hd. by rewrite Hd in Ht.
  - done.
  - intros n Hn. by apply of_int_ge_1.
  - intros n Hn. by apply of_int_lt_1.
  - intros n Hn. cbn [StrategySettings.float_call].
    assert (Hraise : Float.of_int n = Raise OverflowError) by (by apply of_int_overflow).
    split; [done|]. intros Hv.
    rewrite settings_new_unfold, Hv, float_ge_call. cbn [StrategySettings.float_call].
    by rewrite Hraise.
Qed.

End SettingsBounds.

Lemma settings_bound_enforcement_witness :
  let half := S754_finite false 4503599627370496 (-53) in
  let below : gmap string PyVal := {[ "history_duration" := VFloat half ]} in
  let above : gmap string PyVal :=
    {[ "history_duration" := VInt 168; "timeframe_duration" := VInt 15 ]} in
  (below !! "history_duration" = Some (VFloat half) ∧
   StrategySettings.float_call (VFloat half) = Ok half ∧
   Float.lt_int half 1 = true ∧
   (∀ v' exc, below !! "timeframe_duration" = Some v' →
              StrategySettings.float_call v' = Raise exc →
              StrategySettings.caught exc = true) ∧
   ∃ errors, StrategySettings.new below = Raise (ValidationError errors) ∧
             ("history_duration", NumberNotGeError 1) ∈ errors)
  ∧ ((above !! "history_duration" = None ∨
      ∃ v x, above !! "history_duration" = Some v ∧
             StrategySettings.float_call v = Ok x ∧ Float.ge_int x 1 = true) ∧
     (above !! "timeframe_duration" = None ∨
      ∃ v x, above !! "timeframe_duration" = Some v ∧
             StrategySettings.float_call v = Ok x ∧ Float.ge_int x 1 = true) ∧
     ∃ self, StrategySettings.new above = Ok self).
Proof.
  intros half below above. split.
  - assert (Hd : below !! "history_duration" = Some (VFloat half)) by reflexivity.
    assert (Hcall : StrategySettings.float_call (VFloat half) = Ok half) by reflexivity.
    assert (Hlt : Float.lt_int half 1 = true) by reflexivity.
    assert (Hother : ∀ v' exc, below !! "timeframe_duration" = Some v' →
              StrategySettings.float_call v' = Raise exc →
              StrategySettings.caught exc = true).
    { intros v' exc Hv'. exfalso. vm_compute in Hv'. discriminate Hv'. }
    split; [exact Hd|]. split; [exact Hcall|]. split; [exact Hlt|]. split; [exact Hother|].
    exact (proj1 (settings_bound_enforcement below) (VFloat half) half Hd Hcall Hlt Hother).
  - assert (Hh : above !! "history_duration" = None ∨
              ∃ v x, above !! "history_duration" = Some v ∧
                     StrategySettings.float_call v = Ok x ∧ Float.ge_int x 1 = true).
    { right. exists (VInt 168), (Float.of_Z 168). split_and!; reflexivity. }
    assert (Ht : above !! "timeframe_duration" = None ∨
              ∃ v x, above !! "timeframe_duration" = Some v ∧
                     StrategySettings.float_call v = Ok x ∧ Float.ge_int x 1 = true).
    { right. exists (VInt 15), (Float.of_Z 15). split_and!; reflexivity. }
    split; [exact Hh|]. split; [exact Ht|].
    exact (proj1 (proj2 (proj2 (settings_bound_enforcement above))) Hh Ht).
Defined.

(** Values on either side of 1 that the constructor does not treat as the
    claim has it: with [history_duration] the int [10**400] and
    [timeframe_duration] the int 15, both at least 1, it raises
    [OverflowError] instead of succeeding; with the int [-10**400], below 1,
    it raises [OverflowError], not [ValidationError]; and
    [Decimal('0.99999999999999999')], below 1, is accepted, as the float
    [1.0]. *)
Lemma settings_bound_enforcement_counterexample :
  let one := S754_finite false 4503599627370496 (-52) in
  ((1 ≤ 10 ^ 400)%Z ∧ (1 ≤ 15)%Z ∧
   StrategySettings.new {[ "history_duration" := VInt (10 ^ 400);
                           "timeframe_duration" := VInt 15 ]} = Raise OverflowError)
  ∧ ((- 10 ^ 400 < 1)%Z ∧
     StrategySettings.new {[ "history_duration" := VInt (- 10 ^ 400) ]} = Raise OverflowError)
  ∧ ((99999999999999999 < 10 ^ 17)%Z ∧
     ∃ self, StrategySettings.new
               {[ "history_duration" := VDecimal (DFinite false 99999999999999999 (-17)) ]}
             = Ok self ∧
             StrategySettings.history_duration self = Ok (NFloat one)).
Proof.
  intros one. split_and!.
  - by vm_compute.
  - lia.
  - vm_compute. reflexivity.
  - by vm_compute.
  - vm_compute. reflexivity.
  - by vm_compute.
  - exists (<["timeframe_duration" := NInt 15]> (<["history_duration" := NFloat one]> ∅)).
    split; vm_compute; reflexivity.
Qed.

(** ** timedelta *)

Lemma of_microseconds_total (us : Z) (td : Timedelta.t) :
  Timedelta.of_microseconds us = Ok td → Timedelta.total_microseconds td = us.
Proof.
  unfold Timedelta.of_microseconds, Timedelta.total_microseconds.
  case_match; [|done]. intros [= <-]. simpl.
  unfold Timedelta.seconds_per_day, Timedelta.us_per_second.
  pose proof (Z.div_mod us 1000000 ltac:(done)) as H1.
  pose proof (Z.div_mod (us `div` 1000000) 86400 ltac:(done)) as H2.
  lia.
Qed.

Lemma of_microseconds_in_range (us : Z) :
  (-86399999913600000000 ≤ us < 86400000000000000000)%Z →
  ∃ td, Timedelta.of_microseconds us = Ok td.
Proof.
  intros Hus. unfold Timedelta.of_microseconds.
  unfold Timedelta.seconds_per_day, Timedelta.us_per_second, Timedelta.MAX_DELTA_DAYS.
  rewrite Z.div_div by done. change (1000000 * 86400)%Z with 86400000000%Z.
  assert (-999999999 ≤ us `div` 86400000000 ≤ 999999999)%Z as [Hlo Hhi].
  { split.
    - apply Z.div_le_lower_bound; lia.
    - apply Z.lt_succ_r, Z.div_lt_upper_bound; lia. }
  destruct (Z.leb_spec (Z.opp 999999999) (us `div` 86400000000)),
    (Z.leb_spec (us `div` 86400000000) 999999999); simpl; eauto; lia.
Qed.

(** One and a half hours, and a tenth of an hour (the float nearest to 0.1). *)
Example of_hours_fractional :
  Timedelta.of_hours (NFloat (S754_finite false 6755399441055744 (-52)))
    = Ok (Timedelta.mk 0 5400 0) ∧
  Timedelta.of_hours (NFloat (S754_finite false 7205759403792794 (-56)))
    = Ok (Timedelta.mk 0 360 0).
Proof. split; vm_compute; reflexivity. Qed.

(** A whole number of units is converted without any rounding. *)
Lemma new_with_whole (num : PyNum) (n factor : Z) :
  num_is_whole num n →
  Timedelta.new_with num factor = Timedelta.of_microseconds (n * factor).
Proof.
  unfold Timedelta.new_with. destruct num as [z|x]; simpl.
  - intros ->. unfold Timedelta.round_leftover. simpl. f_equal. lia.
  - intros [-> ->]. unfold Timedelta.round_leftover. simpl. f_equal. lia.
Qed.

(** A validated number is not negative. *)
Lemma float_ge_1_trunc_nonneg (x : Float.t) (n : Z) :
  Float.ge_int x 1 = true → Float.trunc x = Ok n → (0 ≤ n)%Z.
Proof.
  unfold Float.ge_int.
  change (Float.of_Z 1) with (S754_finite false 4503599627370496 (-52)).
  destruct x as [s|s| |[] m e]; simpl; try done.
  intros _ [= <-]. destruct (0 <=? e)%Z.
  - by apply Z.shiftl_nonneg.
  - by apply Z.shiftr_nonneg.
Qed.

Lemma settings_new_nonneg (data : gmap string PyVal) (h t : PyNum) :
  StrategySettings.new data
    = Ok (<["timeframe_duration" := t]> (<["history_duration" := h]> ∅)) →
  (∀ n, num_trunc h = Ok n → (0 ≤ n)%Z) ∧ (∀ n, num_trunc t = Ok n → (0 ≤ n)%Z).
Proof.
  intros (h' & t' & Heq & Hh & Ht)%settings_new_inv.
  assert (h' = h ∧ t' = t) as [-> ->].
  { split.
    - assert (Hl : (<["timeframe_duration" := t]> (<["history_duration" := h]> ∅)
                     : gmap string PyNum) !! "history_duration" = Some h')
        by (rewrite Heq, lookup_insert_ne, lookup_insert_eq; done).
      rewrite lookup_insert_ne, lookup_insert_eq in Hl by done. congruence.
    - assert (Hl : (<["timeframe_duration" := t]> (<["history_duration" := h]> ∅)
                     : gmap string PyNum) !! "timeframe_duration" = Some t')
        by (rewrite Heq, lookup_insert_eq; done).
      rewrite lookup_insert_eq in Hl. congruence. }
  split; intros n Hn.
  - destruct (data !! "history_duration") as [v|].
    + destruct Hh as (x & _ & -> & Hx). by apply (float_ge_1_trunc_nonneg x).
    + subst h. by injection Hn as <-.
  - destruct (data !! "timeframe_duration") as [v|].
    + destruct Ht as (x & _ & -> & Hx). by apply (float_ge_1_trunc_nonneg x).
    + subst t. by injection Hn as <-.
Qed.

Lemma num_is_whole_trunc (v : PyNum) (n : Z) : num_is_whole v n → num_trunc v = Ok n.
Proof. destruct v as [z|x]; simpl; [by intros -> | by intros [-> _]]. Qed.

Section TimedeltaBinary64.
Local Open Scope Z_scope.

(** A whole number less than one away from a whole number is that number. *)
Lemma close_exactly (count us : Z) (x : Float.t) (factor : Z) :
  Float.close count x factor → Float.exactly us x factor → count = us.
Proof.
  destruct x as [s|s| |s m e]; simpl; try done; [congruence|].
  destruct (Z.leb_spec 0 e) as [He|He]; [congruence|].
  intros Hc Hu. rewrite <- Hu in Hc. pose proof (pow2_pos (- e) ltac:(lia)).
  replace (count * 2 ^ (- e) - us * 2 ^ (- e)) with ((count - us) * 2 ^ (- e)) in Hc by ring.
  change (2 ^ 19) with 524288 in Hc. change (2 ^ 18 + 1) with 262145 in Hc.
  rewrite Z.abs_mul, (Z.abs_eq (2 ^ (- e))) in Hc by lia.
  destruct (Z.eq_dec count us) as [?|Hne]; [done|].
  assert (1 ≤ Z.abs (count - us)) by lia.
  assert (1 * 2 ^ (- e) ≤ Z.abs (count - us) * 2 ^ (- e))
    by (apply Z.mul_le_mono_nonneg_r; lia).
  lia.
Qed.

(** [timedelta] on a binary64 number of units that passed [ge=1] and lies
    within the range: it returns the number times the factor, rounded to a
    nearest microsecond. *)
Lemma new_with_binary64 (x : Float.t) (n factor bound : Z) (Fm : positive) (Fe : Z) :
  valid_binary Float.prec Float.emax x = true → Float.ge_int x 1 = true →
  Float.trunc x = Ok n → n ≤ bound →
  Float.of_Z factor = S754_finite false Fm Fe →
  Zpos (digits2_pos Fm) = 53 → Fe ≤ 0 → Zpos Fm = factor * 2 ^ (- Fe) →
  0 < factor < 2 ^ 32 →
  (bound + 1) * factor ≤ 86400000000000000000 → 2 ^ 53 ≤ bound * factor →
  ∃ td, Timedelta.new_with (NFloat x) factor = Ok td ∧
        Float.close (Timedelta.total_microseconds td) x factor.
Proof.
  intros Hvalid Hge Hn Hbound HF HFd HFe HFm Hfactor Hmax Hmin.
  destruct (ge_1_cases x Hge) as [->|(m & e & ->)]; [done|].
  pose proof (float_ge_1_trunc_nonneg _ _ Hge Hn) as Hn0.
  cbn [Float.trunc cond_Zopp] in Hn. cbn [Float.close cond_Zopp].
  destruct (Z.leb_spec 0 e) as [He|He].
  - (* a whole number *)
    injection Hn as <-. rewrite Z.shiftl_mul_pow2 in * by done.
    assert (Hwhole : num_is_whole (NFloat (S754_finite false m e)) (Zpos m * 2 ^ e)).
    { split; cbn [Float.trunc Float.frac cond_Zopp];
        destruct (Z.leb_spec 0 e); try lia; [|done].
      by rewrite Z.shiftl_mul_pow2. }
    rewrite (new_with_whole _ _ factor Hwhole).
    destruct (of_microseconds_in_range (Zpos m * 2 ^ e * factor)) as [td Htd]; [nia|].
    exists td. split; [done|]. by rewrite (of_microseconds_total _ _ Htd).
  - injection Hn as <-. rewrite Z.shiftr_div_pow2 in * by lia.
    destruct (new_with_float_close m e factor Fm Fe Hvalid He HF HFd HFe HFm Hfactor)
      as (us & -> & Hclose).
    destruct (valid_binary_finite _ _ _ Hvalid) as (_ & _ & _ & _ & Hm53).
    pose proof (pow2_pos (- e) ltac:(lia)) as HE.
    pose proof (Z.div_mod (Zpos m) (2 ^ (- e)) ltac:(lia)) as Hdm.
    pose proof (Z.mod_pos_bound (Zpos m) (2 ^ (- e)) HE) as Hr.
    assert (Hrange : 0 ≤ us < 86400000000000000000).
    { assert (Hlt : Z.abs (us * 2 ^ (- e) - Zpos m * factor) < 2 ^ (- e)).
      { change (2 ^ 19) with 524288 in Hclose. change (2 ^ 18 + 1) with 262145 in Hclose.
        lia. }
      apply Z.abs_lt in Hlt. revert Hlt Hdm Hr Hn0 Hbound Hm53 HE.
      generalize (Zpos m `div` 2 ^ (- e)). generalize (Zpos m `mod` 2 ^ (- e)).
      generalize (2 ^ (- e)). generalize (Zpos m).
      intros M E r n [Hlo Hhi] -> Hr Hn0 Hbound Hm53 HE.
      assert (Hnr : 0 ≤ (E * n + r) * factor) by nia.
      split.
      { assert (- E < us * E) by lia. nia. }
      assert (Hup : (E * n + r) * factor ≤ (n + 1) * factor * E - factor).
      { replace ((n + 1) * factor * E - factor) with ((E * n + (E - 1)) * factor) by ring.
        apply Z.mul_le_mono_nonneg_r; lia. }
      destruct (Z.le_gt_cases E factor) as [HEf|HEf].
      - assert (us * E < (n + 1) * factor * E) by lia.
        assert (us < (n + 1) * factor).
        { apply (Z.mul_lt_mono_pos_r E); lia. }
        assert ((n + 1) * factor ≤ (bound + 1) * factor)
          by (apply Z.mul_le_mono_nonneg_r; lia).
        lia.
      - assert (n * E ≤ E * n + r) by lia.
        assert (n * factor ≤ n * E) by (apply Z.mul_le_mono_nonneg_l; lia).
        assert (n * factor < bound * factor) by lia.
        assert (n < bound).
        { apply (Z.mul_lt_mono_pos_r factor); lia. }
        assert (us * E < ((n + 1) * factor + 1) * E) by lia.
        assert (us < (n + 1) * factor + 1).
        { apply (Z.mul_lt_mono_pos_r E); lia. }
        assert ((n + 1) * factor ≤ bound * factor)
          by (apply Z.mul_le_mono_nonneg_r; lia).
        lia. }
    destruct (of_microseconds_in_range us) as [td Htd]; [lia|].
    exists td. split; [done|]. by rewrite (of_microseconds_total _ _ Htd).
Qed.

Lemma of_microseconds_overflow (us : Z) :
  86400000000000000000 ≤ us → Timedelta.of_microseconds us = Raise OverflowError.
Proof.
  intros Hus. unfold Timedelta.of_microseconds.
  unfold Timedelta.seconds_per_day, Timedelta.us_per_second, Timedelta.MAX_DELTA_DAYS.
  rewrite Z.div_div by done. change (1000000 * 86400) with 86400000000.
  assert (1000000000 ≤ us `div` 86400000000) by (apply Z.div_le_lower_bound; lia).
  destruct (Z.leb_spec (Z.opp 999999999) (us `div` 86400000000)),
    (Z.leb_spec (us `div` 86400000000) 999999999); simpl; first [done | lia].
Qed.

(** Past the range, [timedelta] raises. *)
Lemma new_with_binary64_overflow (x : Float.t) (n factor bound : Z) (Fm : positive) (Fe : Z) :
  valid_binary Float.prec Float.emax x = true → Float.ge_int x 1 = true →
  Float.trunc x = Ok n → bound < n →
  Float.of_Z factor = S754_finite false Fm Fe →
  Zpos (digits2_pos Fm) = 53 → Fe ≤ 0 → Zpos Fm = factor * 2 ^ (- Fe) →
  0 < factor < 2 ^ 32 →
  86400000000000000000 ≤ (bound + 1) * factor →
  Timedelta.new_with (NFloat x) factor = Raise OverflowError.
Proof.
  intros Hvalid Hge Hn Hbound HF HFd HFe HFm Hfactor Hmax.
  destruct (ge_1_cases x Hge) as [->|(m & e & ->)]; [done|].
  assert (Hnf : (bound + 1) * factor ≤ n * factor)
    by (apply Z.mul_le_mono_nonneg_r; lia).
  cbn [Float.trunc cond_Zopp] in Hn.
  destruct (Z.leb_spec 0 e) as [He|He].
  - injection Hn as <-. rewrite Z.shiftl_mul_pow2 in * by done.
    assert (Hwhole : num_is_whole (NFloat (S754_finite false m e)) (Zpos m * 2 ^ e)).
    { split; cbn [Float.trunc Float.frac cond_Zopp];
        destruct (Z.leb_spec 0 e); try lia; [|done].
      by rewrite Z.shiftl_mul_pow2. }
    rewrite (new_with_whole _ _ factor Hwhole). apply of_microseconds_overflow. lia.
  - injection Hn as <-. rewrite Z.shiftr_div_pow2 in * by lia.
    destruct (new_with_float_close m e factor Fm Fe Hvalid He HF HFd HFe HFm Hfactor)
      as (us & -> & Hclose).
    apply of_microseconds_overflow.
    pose proof (pow2_pos (- e) ltac:(lia)) as HE.
    pose proof (Z.div_mod (Zpos m) (2 ^ (- e)) ltac:(lia)) as Hdm.
    pose proof (Z.mod_pos_bound (Zpos m) (2 ^ (- e)) HE) as Hr.
    assert (Hlt : Z.abs (us * 2 ^ (- e) - Zpos m * factor) < 2 ^ (- e)).
    { change (2 ^ 19) with 524288 in Hclose. change (2 ^ 18 + 1) with 262145 in Hclose.
      lia. }
    apply Z.abs_lt in Hlt. revert Hlt Hdm Hr Hnf HE.
    generalize (Zpos m `div` 2 ^ (- e)). generalize (Zpos m `mod` 2 ^ (- e)).
    generalize (2 ^ (- e)). generalize (Zpos m).
    intros M E r n [Hlo Hhi] -> Hr Hnf HE.
    assert (n * factor * E ≤ (E * n + r) * factor).
    { replace (n * factor * E) with ((E * n) * factor) by ring.
      apply Z.mul_le_mono_nonneg_r; lia. }
    assert ((n * factor - 1) * E < us * E) by lia.
    assert (n * factor - 1 < us) by (apply (Z.mul_lt_mono_pos_r E); lia).
    lia.
Qed.

(** The two factors, as floats. *)
Lemma new_with_hours (x : Float.t) (n : Z) :
  valid_binary Float.prec Float.emax x = true → Float.ge_int x 1 = true →
  Float.trunc x = Ok n → n ≤ 23999999999 →
  ∃ td, Timedelta.of_hours (NFloat x) = Ok td ∧
        Float.close (Timedelta.total_microseconds td) x 3600000000.
Proof.
  intros Hvalid Hge Hn Hbound. unfold Timedelta.of_hours, Timedelta.us_per_hour.
  apply (new_with_binary64 x n 3600000000 23999999999 7549747200000000 (-21));
    [done | done | done | done | vm_compute; reflexivity | reflexivity | lia
    | vm_compute; reflexivity | .. ].
  - change (2 ^ 32) with 4294967296. lia.
  - lia.
  - change (2 ^ 53) with 9007199254740992. lia.
Qed.

Lemma new_with_hours_overflow (x : Float.t) (n : Z) :
  valid_binary Float.prec Float.emax x = true → Float.ge_int x 1 = true →
  Float.trunc x = Ok n → 24000000000 ≤ n →
  Timedelta.of_hours (NFloat x) = Raise OverflowError.
Proof.
  intros Hvalid Hge Hn Hbound. unfold Timedelta.of_hours, Timedelta.us_per_hour.
  apply (new_with_binary64_overflow x n 3600000000 23999999999 7549747200000000 (-21));
    [done | done | done | lia | vm_compute; reflexivity | reflexivity | lia
    | vm_compute; reflexivity | .. ].
  - change (2 ^ 32) with 4294967296. lia.
  - lia.
Qed.

Lemma new_with_minutes (x : Float.t) (n : Z) :
  valid_binary Float.prec Float.emax x = true → Float.ge_int x 1 = true →
  Float.trunc x = Ok n → n ≤ 1439999999999 →
  ∃ td, Timedelta.of_minutes (NFloat x) = Ok td ∧
        Float.close (Timedelta.total_microseconds td) x 60000000.
Proof.
  intros Hvalid Hge Hn Hbound. unfold Timedelta.of_minutes, Timedelta.us_per_minute.
  apply (new_with_binary64 x n 60000000 1439999999999 8053063680000000 (-27));
    [done | done | done | done | vm_compute; reflexivity | reflexivity | lia
    | vm_compute; reflexivity | .. ].
  - change (2 ^ 32) with 4294967296. lia.
  - lia.
  - change (2 ^ 53) with 9007199254740992. lia.
Qed.

Lemma new_with_minutes_overflow (x : Float.t) (n : Z) :
  valid_binary Float.prec Float.emax x = true → Float.ge_int x 1 = true →
  Float.trunc x = Ok n → 1440000000000 ≤ n →
  Timedelta.of_minutes (NFloat x) = Raise OverflowError.
Proof.
  intros Hvalid Hge Hn Hbound. unfold Timedelta.of_minutes, Timedelta.us_per_minute.
  apply (new_with_binary64_overflow x n 60000000 1439999999999 8053063680000000 (-27));
    [done | done | done | lia | vm_compute; reflexivity | reflexivity | lia
    | vm_compute; reflexivity | .. ].
  - change (2 ^ 32) with 4294967296. lia.
  - lia.
Qed.

(** C6 (as amended). Derived time intervals: a successfully constructed
    [StrategySettings] holds both fields; whenever [history_duration] (a
    binary64 float, or the default) is below 24000000000 hours,
    [history_timedelta] returns, without failing, a duration that is less
    than one microsecond away from [history_duration] hours, and is exactly
    [history_duration] hours when that is a whole number of microseconds;
    [timeframe_timedelta] does the same with minutes whenever
    [timeframe_duration] is below 1440000000000 minutes. From these bounds
    on, each raises [OverflowError]. In particular a whole number [n] of
    hours or minutes within the bounds gives the duration of exactly [n]
    hours or minutes. Both accessors are functions of the stored field
    alone. *)
Theorem timedelta_accessors (data : gmap string PyVal) (self : gmap string PyNum) :
  StrategySettings.new data = Ok self →
  ∃ h t,
    StrategySettings.history_duration self = Ok h ∧
    StrategySettings.timeframe_duration self = Ok t ∧
    (num_binary64 h → ∀ n, num_trunc h = Ok n → n ≤ 23999999999 →
       ∃ td, StrategySettings.history_timedelta self = Ok td ∧
             num_close (Timedelta.total_microseconds td) h 3600000000 ∧
             ∀ us, num_exactly us h 3600000000 → Timedelta.total_microseconds td = us) ∧
    (num_binary64 t → ∀ n, num_trunc t = Ok n → n ≤ 1439999999999 →
       ∃ td, StrategySettings.timeframe_timedelta self = Ok td ∧
             num_close (Timedelta.total_microseconds td) t 60000000 ∧
             ∀ us, num_exactly us t 60000000 → Timedelta.total_microseconds td = us) ∧
    (num_binary64 h → ∀ n, num_trunc h = Ok n → 24000000000 ≤ n →
       StrategySettings.history_timedelta self = Raise OverflowError) ∧
    (num_binary64 t → ∀ n, num_trunc t = Ok n → 1440000000000 ≤ n →
       StrategySettings.timeframe_timedelta self = Raise OverflowError) ∧
    (∀ n, num_is_whole h n → n ≤ 23999999999 →
          ∃ td, StrategySettings.history_timedelta self = Ok td ∧
                Timedelta.total_microseconds td = n * 3600000000) ∧
    (∀ n, num_is_whole t n → n ≤ 1439999999999 →
          ∃ td, StrategySettings.timeframe_timedelta self = Ok td ∧
                Timedelta.total_microseconds td = n * 60000000) ∧
    (∀ other : gmap string PyNum,
          StrategySettings.history_duration other = StrategySettings.history_duration self →
          StrategySettings.history_timedelta other = StrategySettings.history_timedelta self) ∧
    (∀ other : gmap string PyNum,
          StrategySettings.timeframe_duration other = StrategySettings.timeframe_duration self →
          StrategySettings.timeframe_timedelta other = StrategySettings.timeframe_timedelta self).
Proof.
  intros Hnew. pose proof Hnew as (h & t & -> & Hhv & Htv)%settings_new_inv.
  destruct (settings_new_nonneg data h t Hnew) as [Hhpos Htpos].
  destruct (settings_read h t) as [Hh Ht].
  exists h, t. split; [done|]. split; [done|].
  unfold StrategySettings.history_timedelta, StrategySettings.timeframe_timedelta.
  rewrite Hh, Ht. cbn [mbind result_bind]. split_and!.
  - intros Hvalid n Hn Hrange.
    assert (Hclose : ∃ td, Timedelta.of_hours h = Ok td ∧
                           num_close (Timedelta.total_microseconds td) h 3600000000).
    { destruct (data !! "history_duration") as [v|].
      - destruct Hhv as (x & _ & -> & Hx). by apply (new_with_hours x n).
      - subst h. exists (Timedelta.mk 14 0 0). split; vm_compute; reflexivity. }
    destruct Hclose as (td & Htd & Hclose). exists td. split; [done|]. split; [done|].
    intros us Hus. destruct h as [z|x]; simpl in *; [congruence|].
    by apply (close_exactly _ _ x 3600000000).
  - intros Hvalid n Hn Hrange.
    assert (Hclose : ∃ td, Timedelta.of_minutes t = Ok td ∧
                           num_close (Timedelta.total_microseconds td) t 60000000).
    { destruct (data !! "timeframe_duration") as [v|].
      - destruct Htv as (x & _ & -> & Hx). by apply (new_with_minutes x n).
      - subst t. exists (Timedelta.mk 0 900 0). split; vm_compute; reflexivity. }
    destruct Hclose as (td & Htd & Hclose). exists td. split; [done|]. split; [done|].
    intros us Hus. destruct t as [z|x]; simpl in *; [congruence|].
    by apply (close_exactly _ _ x 60000000).
  - intros Hvalid n Hn Hrange. destruct (data !! "history_duration") as [v|].
    + destruct Hhv as (x & _ & -> & Hx). by apply (new_with_hours_overflow x n).
    + subst h. injection Hn as <-. lia.
  - intros Hvalid n Hn Hrange. destruct (data !! "timeframe_duration") as [v|].
    + destruct Htv as (x & _ & -> & Hx). by apply (new_with_minutes_overflow x n).
    + subst t. injection Hn as <-. lia.
  - intros n Hwhole Hn. pose proof (Hhpos n (num_is_whole_trunc _ _ Hwhole)).
    unfold Timedelta.of_hours. rewrite (new_with_whole h n _ Hwhole).
    destruct (of_microseconds_in_range (n * Timedelta.us_per_hour)) as [td Htd].
    { unfold Timedelta.us_per_hour. lia. }
    exists td. split; [done|]. by apply of_microseconds_total in Htd.
  - intros n Hwhole Hn. pose proof (Htpos n (num_is_whole_trunc _ _ Hwhole)).
    unfold Timedelta.of_minutes. rewrite (new_with_whole t n _ Hwhole).
    destruct (of_microseconds_in_range (n * Timedelta.us_per_minute)) as [td Htd].
    { unfold Timedelta.us_per_minute. lia. }
    exists td. split; [done|]. by apply of_microseconds_total in Htd.
  - intros other Heq. by rewrite Heq.
  - intros other Heq. by rewrite Heq.
Qed.

End TimedeltaBinary64.

Lemma timedelta_accessors_witness :
  let x := S754_finite false 6755399441055744 (-52) in
  let data : gmap string PyVal := {[ "history_duration" := VFloat x ]} in
  let self : gmap string PyNum :=
    <["timeframe_duration" := NInt 15]> (<["history_duration" := NFloat x]> ∅) in
  StrategySettings.new data = Ok self ∧
  num_binary64 (NFloat x) ∧
  num_trunc (NFloat x) = Ok 1%Z ∧
  num_exactly 5400000000 (NFloat x) 3600000000 ∧
  ∃ td, StrategySettings.history_timedelta self = Ok td ∧
        Timedelta.total_microseconds td = 5400000000%Z.
Proof.
  intros x data self.
  assert (Hnew : StrategySettings.new data = Ok self) by (vm_compute; reflexivity).
  assert (Hvalid : num_binary64 (NFloat x)) by reflexivity.
  assert (Htrunc : num_trunc (NFloat x) = Ok 1%Z) by reflexivity.
  assert (Hexact : num_exactly 5400000000 (NFloat x) 3600000000) by reflexivity.
  split; [exact Hnew|]. split; [exact Hvalid|]. split; [exact Htrunc|]. split; [exact Hexact|].
  destruct (timedelta_accessors data self Hnew) as (h & t & Hh & _ & Hclose & _).
  assert (Heq : h = NFloat x).
  { vm_compute in Hh. injection Hh as <-. reflexivity. }
  rewrite Heq in Hclose.
  destruct (Hclose Hvalid 1%Z Htrunc ltac:(lia)) as (td & Htd & _ & Hus).
  exists td. split; [exact Htd | exact (Hus _ Hexact)].
Defined.

(** The accessors do fail, and do round: [+inf] and [24000000000.0] pass
    [ge=1] and make [history_timedelta] raise [OverflowError]; and the two
    distinct values [1.0] and [1 + 2^-52] both give the duration of one hour. *)
Lemma timedelta_accessors_counterexample :
  let one := S754_finite false 4503599627370496 (-52) in
  let next := S754_finite false 4503599627370497 (-52) in
  (∃ self, StrategySettings.new {[ "history_duration" := VFloat (S754_infinity false) ]} = Ok self ∧
           StrategySettings.history_timedelta self = Raise OverflowError)
  ∧ (∃ self, StrategySettings.new {[ "history_duration" := VFloat (Float.of_Z 24000000000) ]} = Ok self ∧
             StrategySettings.history_timedelta self = Raise OverflowError)
  ∧ (∃ s1 s2,
       StrategySettings.new {[ "history_duration" := VFloat one ]} = Ok s1 ∧
       StrategySettings.new {[ "history_duration" := VFloat next ]} = Ok s2 ∧
       StrategySettings.history_duration s1 = Ok (NFloat one) ∧
       StrategySettings.history_duration s2 = Ok (NFloat next) ∧
       one ≠ next ∧
       StrategySettings.history_timedelta s1 = Ok (Timedelta.mk 0 3600 0) ∧
       StrategySettings.history_timedelta s2 = Ok (Timedelta.mk 0 3600 0)).
Proof.
  intros one next. split_and!.
  - exists (<["timeframe_duration" := NInt 15]>
              (<["history_duration" := NFloat (S754_infinity false)]> ∅)).
    split; vm_compute; reflexivity.
  - exists (<["timeframe_duration" := NInt 15]>
              (<["history_duration" := NFloat (Float.of_Z 24000000000)]> ∅)).
    split; vm_compute; reflexivity.
  - exists (<["timeframe_duration" := NInt 15]> (<["history_duration" := NFloat one]> ∅)),
           (<["timeframe_duration" := NInt 15]> (<["history_duration" := NFloat next]> ∅)).
    split_and!; try (vm_compute; reflexivity). done.
Qed.

(** ** ResourceRecommendation *)

Lemma recommendation_new_unfold (data : gmap string (option Decimal)) :
  ResourceRecommendation.new data =
    Ok (<["limit" := default None (data !! "limit")]>
          (<["request" := default None (data !! "request")]> ∅)).
Proof.
  unfold ResourceRecommendation.new, Pydantic.init, Pydantic.validate_model,
    ResourceRecommendation.fields.
  cbn [Pydantic.validate_fields]. unfold Pydantic.validate_field.
  cbn [Pydantic.name Pydantic.required Pydantic.default Pydantic.validate].
  unfold ResourceRecommendation.optional_decimal.
  destruct (data !! "request") as [r|]; cbn [mbind result_bind]; cbn beta iota;
    destruct (data !! "limit") as [l|]; reflexivity.
Qed.

(** C8 (as amended). The recommendation fields carry no sign constraint:
    constructing a [ResourceRecommendation] from [Decimal] or [None] values
    always succeeds, and [request] and [limit] hold what was supplied, of
    either sign ([None] when omitted). *)
Theorem recommendation_stores_input (data : gmap string (option Decimal)) :
  ∃ self, ResourceRecommendation.new data = Ok self ∧
          ResourceRecommendation.request self = Ok (default None (data !! "request")) ∧
          ResourceRecommendation.limit self = Ok (default None (data !! "limit")).
Proof.
  eexists. split; [apply recommendation_new_unfold|].
  unfold ResourceRecommendation.request, ResourceRecommendation.limit, Pydantic.getattr.
  rewrite lookup_insert_eq, lookup_insert_ne by done. by rewrite lookup_insert_eq.
Qed.

(** A negative request is constructed and stored. *)
Lemma recommendation_negative_request :
  let minus_one := DFinite true 1 0 in
  ∃ self, ResourceRecommendation.new {[ "request" := Some minus_one ]} = Ok self ∧
          ResourceRecommendation.request self = Ok (Some minus_one) ∧
          Dec.ge_zero minus_one = Ok false.
Proof.
  intros minus_one.
  exists (<["limit" := None]> (<["request" := Some minus_one]> ∅)).
  split_and!; vm_compute; reflexivity.
Qed.

(** C9. Default construction: [ResourceRecommendation()] with neither field
    supplied succeeds, with [request] and [limit] both [None]. *)
Theorem recommendation_default :
  ∃ self, ResourceRecommendation.new ∅ = Ok self ∧
          ResourceRecommendation.request self = Ok None ∧
          ResourceRecommendation.limit self = Ok None.
Proof.
  exists (<["limit" := None]> (<["request" := None]> ∅)).
  split_and!; vm_compute; reflexivity.
Qed.

(** C10. Unknown settings keys are ignored: adding keys other than the two
    declared fields to a raw mapping that validates changes nothing: the
    construction succeeds with the same object, which stores the declared
    fields only. *)
Theorem settings_extra_keys_ignored (data extra : gmap string PyVal) (self : gmap string PyNum) :
  extra !! "history_duration" = None →
  extra !! "timeframe_duration" = None →
  StrategySettings.new data = Ok self →
  StrategySettings.new (extra ∪ data) = Ok self ∧
  ∀ k, is_Some (self !! k) → k = "history_duration" ∨ k = "timeframe_duration".
Proof.
  intros Hh Ht Hnew. split.
  - rewrite <- Hnew. unfold StrategySettings.new. apply init_ext.
    intros f Hf. unfold StrategySettings.fields in Hf.
    apply elem_of_cons in Hf as [->|Hf]; [by apply lookup_union_r|].
    apply list_elem_of_singleton in Hf as ->. by apply lookup_union_r.
  - intros k Hk. unfold StrategySettings.new in Hnew.
    pose proof (init_stored _ _ _ k Hnew Hk) as Hin.
    unfold StrategySettings.fields in Hin. rewrite !fmap_cons in Hin.
    apply elem_of_cons in Hin as [->|Hin]; [by left|].
    apply elem_of_cons in Hin as [->|Hin]; [by right|].
    by apply elem_of_nil in Hin.
Qed.

Lemma settings_extra_keys_ignored_witness :
  let data : gmap string PyVal := {[ "history_duration" := VFloat (Float.of_Z 168) ]} in
  let extra : gmap string PyVal :=
    {[ "cpu_percentile" := VFloat (Float.of_Z 99); "memory_buffer_percentage" := VNone ]} in
  let self : gmap string PyNum :=
    <["timeframe_duration" := NInt 15]>
      (<["history_duration" := NFloat (Float.of_Z 168)]> ∅) in
  extra !! "history_duration" = None ∧
  extra !! "timeframe_duration" = None ∧
  StrategySettings.new data = Ok self ∧
  StrategySettings.new (extra ∪ data) = Ok self ∧
  ∀ k, is_Some (self !! k) → k = "history_duration" ∨ k = "timeframe_duration".
Proof.
  intros data extra self.
  assert (Hh : extra !! "history_duration" = None) by reflexivity.
  assert (Ht : extra !! "timeframe_duration" = None) by reflexivity.
  assert (Hnew : StrategySettings.new data = Ok self) by (vm_compute; reflexivity).
  split; [exact Hh|]. split; [exact Ht|]. split; [exact Hnew|].
  exact (settings_extra_keys_ignored data extra self Hh Ht Hnew).
Defined.

(** * Further properties of the module *)

(** ** str.title *)

Lemma lower_upper_ascii (c : ascii) :
  Str.lower_ascii (Str.upper_ascii c) = Str.lower_ascii c.
Proof. destruct c as [[] [] [] [] [] [] [] []]; reflexivity. Qed.

(** On ASCII text, [title] changes the case of letters only. *)
Lemma lower_title_from (b : bool) (s : string) :
  Str.is_ascii s = true → Str.lower (Str.title_from b s) = Str.lower s.
Proof.
  revert b. induction s as [|c s IH]; intros b; simpl; [done|].
  intros [_ Hs]%andb_true_iff.
  rewrite IH by done. by destruct b; rewrite ?lower_ascii_idemp, ?lower_upper_ascii.
Qed.

(** ** dict: fresh keys *)

Lemma dict_get_elem_of {V} (d : Dict.t V) (k : string) (v : V) :
  Dict.get k d = Some v → (k, v) ∈ d.
Proof.
  induction d as [|[k' v'] d IH]; simpl; [done|].
  destruct (decide (k' = k)) as [->|Hne].
  - intros [= ->]. apply list_elem_of_here.
  - intros H. apply list_elem_of_further, IH, H.
Qed.

Lemma dict_setitem_fresh {V} (d : Dict.t V) (k : string) (v : V) :
  k ∉ Dict.keys d → Dict.setitem k v d = d ++ [(k, v)].
Proof.
  unfold Dict.keys. induction d as [|[k' v'] d IH]; [done|].
  rewrite fmap_cons, not_elem_of_cons. intros [Hne Hk]. cbn [Dict.setitem].
  rewrite decide_False by done. simpl. by rewrite IH.
Qed.

Lemma dict_fold_fresh {A V} (key : A → string) (val : A → V) (l : list A) (d : Dict.t V) :
  NoDup (Dict.keys d ++ (key <$> l)) →
  fold_left (λ d x, Dict.setitem (key x) (val x) d) l d
  = d ++ ((λ x, (key x, val x)) <$> l).
Proof.
  revert d. induction l as [|x l IH]; intros d Hnd; simpl.
  - by rewrite app_nil_r.
  - rewrite fmap_cons in Hnd.
    assert (Hx : key x ∉ Dict.keys d).
    { apply NoDup_app in Hnd as (_ & Hd & _). intros Hin.
      apply (Hd _ Hin), list_elem_of_here. }
    rewrite dict_setitem_fresh by done. rewrite IH.
    + by rewrite <- app_assoc.
    + unfold Dict.keys in *. rewrite fmap_app. simpl.
      rewrite <- app_assoc. done.
Qed.

Lemma comprehension_distinct {A V} (key : A → string) (val : A → V) (l : list A) :
  NoDup (key <$> l) →
  Dict.comprehension key val l = (λ x, (key x, val x)) <$> l.
Proof. intros Hnd. unfold Dict.comprehension. by rewrite dict_fold_fresh. Qed.

Lemma dict_keys_fold_length {A V} (key : A → string) (val : A → V) (l : list A) (d : Dict.t V) :
  (length (fold_left (λ d x, Dict.setitem (key x) (val x) d) l d) ≤ length d + length l)%nat.
Proof.
  revert d. induction l as [|x l IH]; intros d; simpl; [lia|].
  etrans; [apply IH|].
  assert (length (Dict.setitem (key x) (val x) d) ≤ S (length d))%nat; [|lia].
  clear. induction d as [|[k v] d IH]; simpl; [lia|]. case_decide; simpl; lia.
Qed.

Section RegistryMore.
Variable display_name : PyType → string.

(** X1. The import in [get_all] is a one-time trigger: after a call the
    package counts as imported, the classes are those there were, followed
    (on the first import only) by those of the package; a further [get_all]
    returns the same mapping, and neither it nor [find] changes the state
    again. *)
Theorem get_all_stable (cls cls' : PyType) (name : string) (w w' : World)
    (strategies : Dict.t PyType) :
  BaseStrategy.get_all display_name cls w = (Ok strategies, w') →
  strategies_imported w' = true ∧
  classes w' = classes w ++ (if strategies_imported w then [] else strategies_package w) ∧
  BaseStrategy.get_all display_name cls w' = (Ok strategies, w') ∧
  (BaseStrategy.get_all display_name cls' w').2 = w' ∧
  (BaseStrategy.find display_name cls' name w').2 = w' ∧
  (BaseStrategy.find display_name cls name w).2 = w'.
Proof.
  intros Hget.
  pose proof (get_all_again display_name _ _ _ _ Hget) as Hagain.
  destruct (get_all_inv display_name cls w) as (w1 & subs & Hi & _ & Hg).
  rewrite Hget in Hg. injection Hg as -> <-.
  assert (Himp : strategies_imported w' = true ∧
                 classes w' = classes w ++
                   (if strategies_imported w then [] else strategies_package w)).
  { unfold import_strategies in Hi. destruct (strategies_imported w) eqn:Hw.
    - injection Hi as <-. by rewrite app_nil_r.
    - by injection Hi as <-. }
  destruct Himp as [Himp Hcls].
  assert (Hfix : ∀ c, ∃ d, BaseStrategy.get_all display_name c w' = (Ok d, w')).
  { intros c. destruct (get_all_inv display_name c w') as (w2 & subs2 & Hi2 & _ & Hg2).
    unfold import_strategies in Hi2. rewrite Himp in Hi2. injection Hi2 as <-. eauto. }
  split_and!; try done.
  - by destruct (Hfix cls') as [d ->].
  - destruct (Hfix cls') as [d Hd]. rewrite (find_unfold _ _ _ _ _ _ Hd). by destruct (Dict.mem _ _).
  - rewrite (find_unfold _ _ _ _ _ _ Hget). by destruct (Dict.mem _ _).
Qed.

(** X2. The keys of the mapping are lower-case and pairwise distinct, and
    there are at most as many as subclasses. *)
Theorem get_all_keys (cls : PyType) (w w' : World) (strategies : Dict.t PyType)
    (subs : list PyType) :
  BaseStrategy.get_all display_name cls w = (Ok strategies, w') →
  subclasses cls w' = (Ok subs, w') →
  (∀ k, k ∈ Dict.keys strategies → Str.lower k = k) ∧
  NoDup (Dict.keys strategies) ∧
  (length strategies ≤ length subs)%nat.
Proof.
  intros Hget Hsubs. pose proof (get_all_keys_NoDup _ _ _ _ _ Hget) as Hnd.
  apply get_all_subclasses in Hget as (subs' & Hs & ->).
  rewrite Hs in Hsubs. injection Hsubs as ->.
  split_and!; [|done|].
  - intros k Hk. unfold Dict.keys in Hk.
    apply list_elem_of_fmap in Hk as ([k' T] & -> & Hin).
    apply comprehension_elem_of in Hin as (x & _ & -> & _). apply lower_idemp.
  - apply (dict_keys_fold_length _ _ subs []).
Qed.

(** X3. Only direct subclasses are listed: every entry of the mapping holds,
    under its own lower-cased display name, a class that is loaded and names
    [cls] among its bases. *)
Theorem get_all_sound (cls : PyType) (w w' : World) (strategies : Dict.t PyType)
    (k : string) (T : PyType) :
  BaseStrategy.get_all display_name cls w = (Ok strategies, w') →
  (k, T) ∈ strategies →
  k = Str.lower (display_name T) ∧
  T ∈ classes w' ∧
  existsb (Class.same cls) (Class.bases T) = true.
Proof.
  intros (subs & Hs & ->)%get_all_subclasses Hin.
  apply comprehension_elem_of in Hin as (x & Hx & -> & ->).
  unfold subclasses in Hs. injection Hs as <-.
  apply list_elem_of_filter in Hx as [Hb Hx]. done.
Qed.

(** X4. Every direct subclass can be looked up: for a class that names [cls]
    among its bases and is loaded, or is defined by the package when that
    has not been imported yet, [find] called with its display name succeeds,
    with a direct subclass of the same lower-cased display name. *)
Theorem find_covers (cls : PyType) (w w' : World) (strategies : Dict.t PyType) (c : PyType) :
  BaseStrategy.get_all display_name cls w = (Ok strategies, w') →
  c ∈ classes w ∨ (strategies_imported w = false ∧ c ∈ strategies_package w) →
  existsb (Class.same cls) (Class.bases c) = true →
  Str.lower (display_name c) ∈ Dict.keys strategies ∧
  ∃ T, BaseStrategy.find display_name cls (display_name c) w = (Ok T, w') ∧
       Str.lower (display_name T) = Str.lower (display_name c) ∧
       existsb (Class.same cls) (Class.bases T) = true.
Proof.
  intros Hget Hc Hb.
  destruct (get_all_inv display_name cls w) as (w1 & subs & Hi & Hs & Hg).
  rewrite Hget in Hg. injection Hg as -> <-.
  assert (Hin : c ∈ subs).
  { unfold subclasses in Hs. injection Hs as <-.
    apply list_elem_of_filter. split; [done|].
    unfold import_strategies in Hi. destruct (strategies_imported w) eqn:Hw.
    - injection Hi as <-. by destruct Hc as [?|[? _]].
    - injection Hi as <-. simpl. apply elem_of_app. destruct Hc as [?|[_ ?]]; auto. }
  pose proof (comprehension_keys (λ x, Str.lower (display_name x)) (λ x, x) subs c Hin) as Hk.
  split; [done|].
  apply dict_mem_keys in Hk. unfold Dict.mem in Hk.
  destruct (Dict.get (Str.lower (display_name c))
              (Dict.comprehension (λ x, Str.lower (display_name x)) (λ x, x) subs))
    as [T|] eqn:HT; [|done].
  exists T. split; [by apply (find_hit _ _ _ _ _ _ _ Hget)|].
  apply dict_get_elem_of in HT.
  apply comprehension_elem_of in HT as (x & Hx & Hkx & ->).
  split; [done|].
  unfold subclasses in Hs. injection Hs as <-.
  by apply list_elem_of_filter in Hx as [? _].
Qed.

(** X5. Without name collisions nothing is lost: when the lower-cased display
    names of the subclasses are pairwise distinct, the mapping lists every
    subclass under its name, in creation order, and [find] called with the
    display name of a subclass returns that very subclass. *)
Theorem get_all_without_collisions (cls : PyType) (w w' : World)
    (strategies : Dict.t PyType) (subs : list PyType) :
  BaseStrategy.get_all display_name cls w = (Ok strategies, w') →
  subclasses cls w' = (Ok subs, w') →
  NoDup ((λ c, Str.lower (display_name c)) <$> subs) →
  strategies = (λ c, (Str.lower (display_name c), c)) <$> subs ∧
  ∀ c, c ∈ subs → BaseStrategy.find display_name cls (display_name c) w = (Ok c, w').
Proof.
  intros Hget Hsubs Hnd.
  pose proof Hget as (subs' & Hs & Heq)%get_all_subclasses.
  rewrite Hs in Hsubs. injection Hsubs as ->.
  rewrite comprehension_distinct in Heq by done.
  split; [done|]. intros c Hc.
  apply (find_hit _ _ _ _ _ strategies); [done|].
  apply (get_all_values _ cls w w'); [done|].
  rewrite Heq. unfold Dict.values. rewrite <- list_fmap_compose.
  apply list_elem_of_fmap. by exists c.
Qed.

(** X6. [find] succeeds exactly when the lower-cased name is a key of the
    mapping, with the value stored under it; any failure is the [ValueError]
    that echoes the name as it was given and lists the keys, never a
    [KeyError]. *)
Theorem find_outcomes (cls : PyType) (name : string) (w w' : World)
    (strategies : Dict.t PyType) :
  BaseStrategy.get_all display_name cls w = (Ok strategies, w') →
  (∀ T, BaseStrategy.find display_name cls name w = (Ok T, w') ↔
        Dict.get (Str.lower name) strategies = Some T) ∧
  (∀ e w'', BaseStrategy.find display_name cls name w = (Raise e, w'') →
        w'' = w' ∧
        (Str.lower name ∉ Dict.keys strategies) ∧
        e = ValueError ("Unknown strategy name: " +:+ name +:+ ". Available strategies: "
                          +:+ Str.join ", " (Dict.keys strategies))).
Proof.
  intros Hget. rewrite (find_unfold _ _ _ _ _ _ Hget).
  unfold Dict.mem, Dict.getitem.
  destruct (Dict.get (Str.lower name) strategies) as [T0|] eqn:HT.
  - split; [|done]. intros T. split; congruence.
  - split; [done|]. intros e w'' [= <- <-].
    split_and!; [done | by apply dict_get_None_keys | done].
Qed.

(** X7. With no subclass of [cls] loaded the mapping is empty, and [find]
    fails for every name, its message ending in an empty list of names. *)
Theorem find_empty_registry (cls : PyType) (name : string) (w w' : World)
    (strategies : Dict.t PyType) :
  BaseStrategy.get_all display_name cls w = (Ok strategies, w') →
  (∀ c, c ∈ classes w' → existsb (Class.same cls) (Class.bases c) = false) →
  strategies = [] ∧
  BaseStrategy.find display_name cls name w
    = (Raise (ValueError ("Unknown strategy name: " +:+ name +:+ ". Available strategies: ")), w').
Proof.
  intros Hget Hnone.
  pose proof Hget as (subs & Hs & Heq)%get_all_subclasses.
  assert (subs = []) as ->.
  { unfold subclasses in Hs. injection Hs as <-.
    destruct (filter _ (classes w')) as [|c l] eqn:Hf; [done|].
    assert (Hc : c ∈ filter (λ c, existsb (Class.same cls) (Class.bases c) = true) (classes w'))
      by (rewrite Hf; apply list_elem_of_here).
    apply list_elem_of_filter in Hc as [Hb Hc]. rewrite (Hnone c Hc) in Hb. done. }
  subst strategies. split; [done|].
  by rewrite (find_unfold _ _ _ _ _ _ Hget).
Qed.

(** X8. The printed name of a strategy with an ASCII name resolves to its
    class: for an instance whose class is a value of the mapping and has a
    display name of ASCII characters only, [find(str(instance))] returns
    that class, whatever settings the instance holds. *)
Theorem find_str_roundtrip {S : Type} (cls : PyType) (w w' : World)
    (strategies : Dict.t PyType) (self : BaseStrategy.Strategy S) :
  BaseStrategy.get_all display_name cls w = (Ok strategies, w') →
  BaseStrategy.type_of self ∈ Dict.values strategies →
  Str.is_ascii (display_name (BaseStrategy.type_of self)) = true →
  BaseStrategy.find display_name cls (BaseStrategy.__str__ display_name self) w
    = (Ok (BaseStrategy.type_of self), w').
Proof.
  intros Hget Hin Hascii. apply (find_hit _ _ _ _ _ strategies); [done|].
  unfold BaseStrategy.__str__, Str.title. rewrite lower_title_from by done.
  by apply (get_all_values _ cls w w').
Qed.

End RegistryMore.

Lemma get_all_stable_witness :
  BaseStrategy.get_all Example.display_name BaseStrategy Example.fresh
    = (Ok Example.strategies, Example.loaded) ∧
  strategies_imported Example.loaded = true ∧
  classes Example.loaded = classes Example.fresh ++ strategies_package Example.fresh ∧
  BaseStrategy.get_all Example.display_name BaseStrategy Example.loaded
    = (Ok Example.strategies, Example.loaded) ∧
  (BaseStrategy.find Example.display_name Example.SimpleStrategy "simple" Example.loaded).2
    = Example.loaded.
Proof.
  assert (Hget : BaseStrategy.get_all Example.display_name BaseStrategy Example.fresh
                 = (Ok Example.strategies, Example.loaded)) by reflexivity.
  destruct (get_all_stable Example.display_name BaseStrategy Example.SimpleStrategy "simple"
              Example.fresh Example.loaded Example.strategies Hget)
    as (H1 & H2 & H3 & _ & H5 & _).
  split; [exact Hget|]. split; [exact H1|]. split; [exact H2|]. split; [exact H3 | exact H5].
Defined.

Lemma get_all_keys_witness :
  BaseStrategy.get_all Example.display_name BaseStrategy Example.extended
    = (Ok [("simple", Example.SIMPLEStrategy); ("margin", Example.MarginStrategy)],
       Example.extended) ∧
  subclasses BaseStrategy Example.extended
    = (Ok [Example.SimpleStrategy; Example.MarginStrategy; Example.SIMPLEStrategy],
       Example.extended) ∧
  (∀ k, k ∈ ["simple"; "margin"] → Str.lower k = k) ∧
  NoDup ["simple"; "margin"] ∧
  (2 ≤ 3)%nat.
Proof.
  assert (Hget : BaseStrategy.get_all Example.display_name BaseStrategy Example.extended
    = (Ok [("simple", Example.SIMPLEStrategy); ("margin", Example.MarginStrategy)],
       Example.extended)) by reflexivity.
  assert (Hsubs : subclasses BaseStrategy Example.extended
    = (Ok [Example.SimpleStrategy; Example.MarginStrategy; Example.SIMPLEStrategy],
       Example.extended)) by reflexivity.
  split; [exact Hget|]. split; [exact Hsubs|].
  exact (get_all_keys Example.display_name BaseStrategy Example.extended Example.extended
           _ _ Hget Hsubs).
Defined.

Lemma get_all_sound_witness :
  BaseStrategy.get_all Example.display_name BaseStrategy Example.fresh
    = (Ok Example.strategies, Example.loaded) ∧
  ("margin", Example.MarginStrategy) ∈ Example.strategies ∧
  "margin" = Str.lower (Example.display_name Example.MarginStrategy) ∧
  Example.MarginStrategy ∈ classes Example.loaded ∧
  existsb (Class.same BaseStrategy) (Class.bases Example.MarginStrategy) = true.
Proof.
  assert (Hget : BaseStrategy.get_all Example.display_name BaseStrategy Example.fresh
                 = (Ok Example.strategies, Example.loaded)) by reflexivity.
  assert (Hin : ("margin", Example.MarginStrategy) ∈ Example.strategies) by elem_of_concrete.
  split; [exact Hget|]. split; [exact Hin|].
  exact (get_all_sound Example.display_name BaseStrategy Example.fresh Example.loaded
           Example.strategies "margin" Example.MarginStrategy Hget Hin).
Defined.

Lemma find_covers_witness :
  BaseStrategy.get_all Example.display_name BaseStrategy Example.fresh
    = (Ok Example.strategies, Example.loaded) ∧
  (strategies_imported Example.fresh = false ∧
   Example.MarginStrategy ∈ strategies_package Example.fresh) ∧
  existsb (Class.same BaseStrategy) (Class.bases Example.MarginStrategy) = true ∧
  Str.lower (Example.display_name Example.MarginStrategy) ∈ Dict.keys Example.strategies ∧
  ∃ T, BaseStrategy.find Example.display_name BaseStrategy
         (Example.display_name Example.MarginStrategy) Example.fresh = (Ok T, Example.loaded) ∧
       Str.lower (Example.display_name T)
         = Str.lower (Example.display_name Example.MarginStrategy) ∧
       existsb (Class.same BaseStrategy) (Class.bases T) = true.
Proof.
  assert (Hget : BaseStrategy.get_all Example.display_name BaseStrategy Example.fresh
                 = (Ok Example.strategies, Example.loaded)) by reflexivity.
  assert (Hc : strategies_imported Example.fresh = false ∧
               Example.MarginStrategy ∈ strategies_package Example.fresh)
    by (split; [reflexivity | elem_of_concrete]).
  assert (Hb : existsb (Class.same BaseStrategy) (Class.bases Example.MarginStrategy) = true)
    by reflexivity.
  split; [exact Hget|]. split; [exact Hc|]. split; [exact Hb|].
  exact (find_covers Example.display_name BaseStrategy Example.fresh Example.loaded
           Example.strategies Example.MarginStrategy Hget (or_intror Hc) Hb).
Defined.

Lemma get_all_without_collisions_witness :
  BaseStrategy.get_all Example.display_name BaseStrategy Example.fresh
    = (Ok Example.strategies, Example.loaded) ∧
  subclasses BaseStrategy Example.loaded
    = (Ok [Example.SimpleStrategy; Example.MarginStrategy], Example.loaded) ∧
  NoDup ((λ c, Str.lower (Example.display_name c))
           <$> [Example.SimpleStrategy; Example.MarginStrategy]) ∧
  Example.strategies
    = (λ c, (Str.lower (Example.display_name c), c))
        <$> [Example.SimpleStrategy; Example.MarginStrategy] ∧
  ∀ c, c ∈ [Example.SimpleStrategy; Example.MarginStrategy] →
       BaseStrategy.find Example.display_name BaseStrategy (Example.display_name c) Example.fresh
         = (Ok c, Example.loaded).
Proof.
  assert (Hget : BaseStrategy.get_all Example.display_name BaseStrategy Example.fresh
                 = (Ok Example.strategies, Example.loaded)) by reflexivity.
  assert (Hsubs : subclasses BaseStrategy Example.loaded
    = (Ok [Example.SimpleStrategy; Example.MarginStrategy], Example.loaded)) by reflexivity.
  assert (Hnd : NoDup ((λ c, Str.lower (Example.display_name c))
                         <$> [Example.SimpleStrategy; Example.MarginStrategy])).
  { apply (bool_decide_unpack _). vm_compute. exact I. }
  split; [exact Hget|]. split; [exact Hsubs|]. split; [exact Hnd|].
  exact (get_all_without_collisions Example.display_name BaseStrategy Example.fresh
           Example.loaded Example.strategies _ Hget Hsubs Hnd).
Defined.

Lemma find_outcomes_witness :
  BaseStrategy.get_all Example.display_name BaseStrategy Example.fresh
    = (Ok Example.strategies, Example.loaded) ∧
  (BaseStrategy.find Example.display_name BaseStrategy "MARGIN" Example.fresh
     = (Ok Example.MarginStrategy, Example.loaded) ↔
   Dict.get (Str.lower "MARGIN") Example.strategies = Some Example.MarginStrategy).
Proof.
  assert (Hget : BaseStrategy.get_all Example.display_name BaseStrategy Example.fresh
                 = (Ok Example.strategies, Example.loaded)) by reflexivity.
  split; [exact Hget|].
  exact (proj1 (find_outcomes Example.display_name BaseStrategy "MARGIN" Example.fresh
                  Example.loaded Example.strategies Hget) Example.MarginStrategy).
Defined.

Lemma find_empty_registry_witness :
  BaseStrategy.get_all Example.display_name Example.MarginStrategy Example.fresh
    = (Ok [], Example.loaded) ∧
  (∀ c, c ∈ classes Example.loaded →
        existsb (Class.same Example.MarginStrategy) (Class.bases c) = false) ∧
  BaseStrategy.find Example.display_name Example.MarginStrategy "margin" Example.fresh
    = (Raise (ValueError "Unknown strategy name: margin. Available strategies: "),
       Example.loaded).
Proof.
  assert (Hget : BaseStrategy.get_all Example.display_name Example.MarginStrategy Example.fresh
                 = (Ok [], Example.loaded)) by reflexivity.
  assert (Hnone : ∀ c, c ∈ classes Example.loaded →
            existsb (Class.same Example.MarginStrategy) (Class.bases c) = false).
  { apply Forall_forall. vm_compute. repeat constructor. }
  split; [exact Hget|]. split; [exact Hnone|].
  exact (proj2 (find_empty_registry Example.display_name Example.MarginStrategy "margin"
                  Example.fresh Example.loaded [] Hget Hnone)).
Defined.

Lemma find_str_roundtrip_witness :
  let self := BaseStrategy.__init__ Example.MarginStrategy tt in
  BaseStrategy.get_all Example.display_name BaseStrategy Example.fresh
    = (Ok Example.strategies, Example.loaded) ∧
  BaseStrategy.type_of self ∈ Dict.values Example.strategies ∧
  Str.is_ascii (Example.display_name (BaseStrategy.type_of self)) = true ∧
  BaseStrategy.__str__ Example.display_name self = "Margin" ∧
  BaseStrategy.find Example.display_name BaseStrategy "Margin" Example.fresh
    = (Ok Example.MarginStrategy, Example.loaded).
Proof.
  intros self.
  assert (Hget : BaseStrategy.get_all Example.display_name BaseStrategy Example.fresh
                 = (Ok Example.strategies, Example.loaded)) by reflexivity.
  assert (Hin : BaseStrategy.type_of self ∈ Dict.values Example.strategies)
    by elem_of_concrete.
  assert (Hascii : Str.is_ascii (Example.display_name (BaseStrategy.type_of self)) = true)
    by reflexivity.
  split; [exact Hget|]. split; [exact Hin|]. split; [exact Hascii|]. split; [reflexivity|].
  exact (find_str_roundtrip Example.display_name BaseStrategy Example.fresh Example.loaded
           Example.strategies self Hget Hin Hascii).
Defined.


(** ** get_settings_type along the hierarchy *)

(** A single sequence without repetition linearizes to itself. *)
Lemma merge_chain (l : list PyType) (fuel : nat) :
  (length l ≤ fuel)%nat → Class.distinct l = true → Class.merge fuel [l] = Some l.
Proof.
  revert fuel. induction l as [|c tl IH]; intros fuel Hlen Hd.
  - by destruct fuel.
  - destruct fuel as [|fuel]; [simpl in Hlen; lia|].
    cbn [Class.distinct] in Hd.
    apply andb_true_iff in Hd as [[Hcc Hct]%andb_true_iff Hd].
    apply negb_true_iff in Hct.
    cbn [Class.merge]. rewrite filter_cons_True by done. rewrite filter_nil.
    cbn [Class.pick_head]. unfold Class.good_head. cbn [existsb Class.in_tail].
    rewrite Hct. cbn [orb negb fmap list_fmap Class.drop_head]. rewrite Hcc.
    rewrite IH; [done | simpl in Hlen; lia | done].
Qed.

Lemma merge_drop_empty (l : list PyType) (fuel : nat) :
  Class.merge fuel [l; []] = Class.merge fuel [l].
Proof. destruct fuel, l; reflexivity. Qed.

(** The linearization of a class with one plain base is the class followed
    by the linearization of the base. *)
Lemma mro_single_base (uid : positive) (name : string) (C : PyType) (l : list PyType) :
  Class.mro C = Some l → Class.distinct l = true →
  Class.mro (TClass uid name [C]) = Some (TClass uid name [C] :: l).
Proof.
  intros Hl Hd. destruct C as [cu cn cb| |]; [|done..].
  change (Class.mro (TClass uid name [TClass cu cn cb]))
    with (ls ← Class.all_some [Class.mro (TClass cu cn cb)];
          cons (TClass uid name [TClass cu cn cb])
            <$> Class.merge (S (Class.total_length (ls ++ [[TClass cu cn cb]])))
                  (ls ++ [[TClass cu cn cb]])).
  rewrite Hl. cbn [Class.all_some foldr mbind option_bind app].
  destruct (mro_head _ _ Hl) as [tl ->].
  cbn [Class.distinct] in Hd.
  apply andb_true_iff in Hd as [[Hcc Hct]%andb_true_iff Hd].
  apply negb_true_iff in Hct.
  cbn [Class.merge]. rewrite !filter_cons_True by done. rewrite filter_nil.
  cbn [Class.pick_head]. unfold Class.good_head. cbn [existsb Class.in_tail].
  rewrite Hct. cbn [orb negb fmap list_fmap Class.drop_head]. rewrite Hcc.
  assert (Hm : Class.merge (Class.total_length [TClass cu cn cb :: tl; [TClass cu cn cb]])
                 [tl; []] = Some tl).
  { rewrite merge_drop_empty. apply merge_chain; [|done].
    cbn [Class.total_length foldr length]. lia. }
  rewrite Hm. done.
Qed.

(** X9. A class that derives from a class without subscripting it inherits
    the settings type: with one plain base [C], whose linearization holds no
    class twice, [get_settings_type()] answers what it answers on [C]. *)
Theorem get_settings_type_inherited (uid : positive) (name : string) (C : PyType)
    (l : list PyType) :
  Class.mro C = Some l → Class.distinct l = true →
  BaseStrategy.get_settings_type (TClass uid name [C]) = BaseStrategy.get_settings_type C.
Proof.
  intros Hl Hd. unfold BaseStrategy.get_settings_type, Class.getattr_orig_bases.
  rewrite (mro_single_base uid name C l Hl Hd), Hl.
  destruct C as [cu cn cb| |]; [|done..].
  done.
Qed.

Lemma get_settings_type_inherited_witness :
  Class.mro Example.MarginStrategy
    = Some [Example.MarginStrategy; BaseStrategy; ABC; Generic; object] ∧
  Class.distinct [Example.MarginStrategy; BaseStrategy; ABC; Generic; object] = true ∧
  BaseStrategy.get_settings_type (TClass 30 "TunedMarginStrategy" [Example.MarginStrategy])
    = Ok Example.MarginSettings.
Proof.
  assert (Hl : Class.mro Example.MarginStrategy
    = Some [Example.MarginStrategy; BaseStrategy; ABC; Generic; object]) by reflexivity.
  assert (Hd : Class.distinct [Example.MarginStrategy; BaseStrategy; ABC; Generic; object]
               = true) by reflexivity.
  split; [exact Hl|]. split; [exact Hd|].
  exact (get_settings_type_inherited 30 "TunedMarginStrategy" Example.MarginStrategy _ Hl Hd).
Defined.

(** X10. The subscripted base has to come first: on a class whose first
    written base is not subscripted while a later one is,
    [get_settings_type()] raises [IndexError]. *)
Theorem get_settings_type_first_base_plain (uid : positive) (name : string)
    (b : PyType) (rest : list PyType) :
  Class.is_alias b = false →
  existsb Class.is_alias rest = true →
  is_Some (Class.mro (TClass uid name (b :: rest))) →
  BaseStrategy.get_settings_type (TClass uid name (b :: rest)) = Raise IndexError.
Proof.
  intros Hb Hrest Hmro. unfold BaseStrategy.get_settings_type.
  rewrite (getattr_orig_bases_own _ (b :: rest)); [|by simpl; rewrite Hb, Hrest|done].
  cbn. by destruct b.
Qed.

Lemma get_settings_type_first_base_plain_witness :
  Class.is_alias Example.AuditMixin = false ∧
  existsb Class.is_alias [TAlias BaseStrategy [Example.MarginSettings]] = true ∧
  is_Some (Class.mro (TClass 31 "AuditedStrategy"
             [Example.AuditMixin; TAlias BaseStrategy [Example.MarginSettings]])) ∧
  BaseStrategy.get_settings_type
    (TClass 31 "AuditedStrategy"
       [Example.AuditMixin; TAlias BaseStrategy [Example.MarginSettings]])
    = Raise IndexError.
Proof.
  assert (Hb : Class.is_alias Example.AuditMixin = false) by reflexivity.
  assert (Hrest : existsb Class.is_alias [TAlias BaseStrategy [Example.MarginSettings]] = true)
    by reflexivity.
  assert (Hmro : is_Some (Class.mro (TClass 31 "AuditedStrategy"
             [Example.AuditMixin; TAlias BaseStrategy [Example.MarginSettings]]))).
  { vm_compute. eexists. reflexivity. }
  split; [exact Hb|]. split; [exact Hrest|]. split; [exact Hmro|].
  exact (get_settings_type_first_base_plain 31 "AuditedStrategy" Example.AuditMixin _
           Hb Hrest Hmro).
Defined.

(** ** Settings validation, case by case *)

(** X11. Construction succeeds exactly when each of the two fields is
    either omitted or a value that [float(v)] converts, without raising, to
    a float that is at least 1: a float, an int, a [Decimal], or any other
    object. *)
Theorem settings_new_succeeds_iff (data : gmap string PyVal) :
  (∃ self, StrategySettings.new data = Ok self) ↔
  (data !! "history_duration" = None ∨
   ∃ v x, data !! "history_duration" = Some v ∧
          StrategySettings.float_call v = Ok x ∧ Float.ge_int x 1 = true) ∧
  (data !! "timeframe_duration" = None ∨
   ∃ v x, data !! "timeframe_duration" = Some v ∧
          StrategySettings.float_call v = Ok x ∧ Float.ge_int x 1 = true).
Proof.
  split.
  - intros [self (h & t & _ & Hh & Ht)%settings_new_inv]. split.
    + destruct (data !! "history_duration") as [v|]; [right|by left].
      destruct Hh as (x & Hcall & _ & Hx). by exists v, x.
    + destruct (data !! "timeframe_duration") as [v|]; [right|by left].
      destruct Ht as (x & Hcall & _ & Hx). by exists v, x.
  - rewrite settings_new_unfold.
    intros [[->|(vh & h & -> & Hh & Hhge)] [->|(vt & t & -> & Ht & Htge)]];
      rewrite ?float_ge_call, ?Hh, ?Ht, ?Hhge, ?Htge; eauto.
Qed.

(** X12. Every violation is reported, in declaration order: when both fields
    are rejected ([None], or a float that is not at least 1), the
    [ValidationError] holds exactly two errors, the one of [history_duration]
    first, each of the kind of its violation. *)
Theorem settings_errors_accumulate (data : gmap string PyVal) (vh vt : PyVal) :
  data !! "history_duration" = Some vh →
  data !! "timeframe_duration" = Some vt →
  match vh with VNone => True | VFloat x => Float.ge_int x 1 = false | _ => False end →
  match vt with VNone => True | VFloat x => Float.ge_int x 1 = false | _ => False end →
  StrategySettings.new data =
    Raise (ValidationError
             [("history_duration",
               match vh with VNone => NoneIsNotAllowedError | _ => NumberNotGeError 1 end);
              ("timeframe_duration",
               match vt with VNone => NoneIsNotAllowedError | _ => NumberNotGeError 1 end)]).
Proof.
  intros Hh Ht Hvh Hvt. rewrite settings_new_unfold, Hh, Ht.
  destruct vh as [|xh| | |], vt as [|xt| | |]; try done;
    simpl; rewrite ?Hvh, ?Hvt; reflexivity.
Qed.

Lemma settings_errors_accumulate_witness :
  let zero := S754_zero false in
  let data : gmap string PyVal :=
    {[ "history_duration" := VFloat zero; "timeframe_duration" := VNone ]} in
  data !! "history_duration" = Some (VFloat zero) ∧
  data !! "timeframe_duration" = Some VNone ∧
  Float.ge_int zero 1 = false ∧
  StrategySettings.new data =
    Raise (ValidationError [("history_duration", NumberNotGeError 1);
                            ("timeframe_duration", NoneIsNotAllowedError)]).
Proof.
  intros zero data.
  assert (Hh : data !! "history_duration" = Some (VFloat zero)) by reflexivity.
  assert (Ht : data !! "timeframe_duration" = Some VNone) by reflexivity.
  assert (Hz : Float.ge_int zero 1 = false) by reflexivity.
  split; [exact Hh|]. split; [exact Ht|]. split; [exact Hz|].
  exact (settings_errors_accumulate data (VFloat zero) VNone Hh Ht Hz I).
Defined.

(** X13. An explicit [None] is not replaced by the default, and a NaN is not
    accepted: either makes the construction raise [ValidationError], with a
    none-not-allowed error, respectively a not-ge error, for that field,
    whatever the other field holds, provided [float(v)] raises nothing but
    [TypeError] or [ValueError] on it. *)
Theorem settings_none_and_nan_rejected (data : gmap string PyVal) (field other : string)
    (v : PyVal) :
  (field = "history_duration" ∧ other = "timeframe_duration") ∨
  (field = "timeframe_duration" ∧ other = "history_duration") →
  data !! field = Some v →
  v = VNone ∨ v = VFloat S754_nan →
  (∀ v' exc, data !! other = Some v' → StrategySettings.float_call v' = Raise exc →
             StrategySettings.caught exc = true) →
  ∃ errors,
    StrategySettings.new data = Raise (ValidationError errors) ∧
    (field, match v with VNone => NoneIsNotAllowedError | _ => NumberNotGeError 1 end)
      ∈ errors.
Proof.
  intros Hfield Hv Hbad Hother.
  apply (settings_new_rejects data field other v); [done..| |done].
  by destruct Hbad as [-> | ->].
Qed.

Lemma settings_none_and_nan_rejected_witness :
  let data : gmap string PyVal :=
    {[ "history_duration" := VInt 168; "timeframe_duration" := VFloat S754_nan ]} in
  (("timeframe_duration" = "history_duration" ∧ "history_duration" = "timeframe_duration") ∨
   ("timeframe_duration" = "timeframe_duration" ∧ "history_duration" = "history_duration")) ∧
  data !! "timeframe_duration" = Some (VFloat S754_nan) ∧
  (VFloat S754_nan = VNone ∨ VFloat S754_nan = VFloat S754_nan) ∧
  (∀ v' exc, data !! "history_duration" = Some v' →
             StrategySettings.float_call v' = Raise exc →
             StrategySettings.caught exc = true) ∧
  ∃ errors,
    StrategySettings.new data = Raise (ValidationError errors) ∧
    ("timeframe_duration", NumberNotGeError 1) ∈ errors.
Proof.
  intros data.
  assert (Hf : ("timeframe_duration" = "history_duration" ∧
                "history_duration" = "timeframe_duration") ∨
               ("timeframe_duration" = "timeframe_duration" ∧
                "history_duration" = "history_duration")) by (right; split; reflexivity).
  assert (Hv : data !! "timeframe_duration" = Some (VFloat S754_nan)) by reflexivity.
  assert (Hb : VFloat S754_nan = VNone ∨ VFloat S754_nan = VFloat S754_nan)
    by (right; reflexivity).
  assert (Ho : ∀ v' exc, data !! "history_duration" = Some v' →
             StrategySettings.float_call v' = Raise exc →
             StrategySettings.caught exc = true).
  { intros v' exc Hv' Hcall. exfalso.
    assert (Hd : data !! "history_duration" = Some (VInt 168)) by reflexivity.
    rewrite Hd in Hv'. injection Hv' as <-. vm_compute in Hcall. discriminate Hcall. }
  split; [exact Hf|]. split; [exact Hv|]. split; [exact Hb|]. split; [exact Ho|].
  exact (settings_none_and_nan_rejected data "timeframe_duration" "history_duration"
           (VFloat S754_nan) Hf Hv Hb Ho).
Defined.

(** ** What [ge=1] means for a float *)

Section GeOne.
Local Open Scope Z_scope.

(** X14. On a binary64 value, passing [ge=1] means what it says: the float
    is positive infinity, or its integral part is at least 1. *)
Theorem ge_1_integral_part (x : Float.t) :
  valid_binary Float.prec Float.emax x = true →
  (Float.ge_int x 1 = true ↔
   x = S754_infinity false ∨ ∃ n, Float.trunc x = Ok n ∧ 1 ≤ n).
Proof.
  intros Hvalid. destruct x as [s|s| |s m e].
  - split; [done|]. intros [?|(n & [= <-] & ?)]; [done | lia].
  - destruct s; (split; [intros H|intros [?|(n & ? & _)]]); try done. by left.
  - split; [done|]. by intros [?|(n & ? & _)].
  - destruct s.
    + split; [done|]. intros [?|(n & [= <-] & Hn)]; [done|]. simpl in Hn.
      destruct (0 <=? e).
      * pose proof (Z.shiftl_nonneg (Zpos m) e). lia.
      * pose proof (Z.shiftr_nonneg (Zpos m) (- e)). lia.
    + rewrite ge_1_finite. simpl in Hvalid.
      apply andb_true_iff in Hvalid as [Hcanon _].
      unfold canonical_mantissa, fexp, emin, Float.prec, Float.emax in Hcanon.
      apply Z.eqb_eq in Hcanon.
      destruct (digits2_pos_spec m) as [Hlo Hhi].
      assert (Hcase : (Zpos (digits2_pos m) = 53 ∧ -1074 ≤ e) ∨
                      (e = -1074 ∧ Zpos (digits2_pos m) ≤ 53)) by lia.
      assert (Hm53 : Zpos m < 2 ^ 53).
      { assert (2 ^ Zpos (digits2_pos m) ≤ 2 ^ 53) by (apply Z.pow_le_mono_r; lia). lia. }
      simpl Float.trunc. cbn [cond_Zopp].
      destruct (Z.leb_spec 0 e) as [He|He].
      * rewrite Z.shiftl_mul_pow2 by done. pose proof (pow2_pos e He).
        split; [intros _; right; eexists; split; [reflexivity | nia] | intros _; left; lia].
      * rewrite Z.shiftr_div_pow2 by lia.
        split.
        -- intros Hge. right. eexists. split; [reflexivity|].
           assert (He52 : -52 ≤ e) by lia.
           assert (Hm : 2 ^ (- e) ≤ Zpos m).
           { destruct Hge as [Hge|[-> Hge]]; [|by simpl].
             destruct Hcase as [[Hd _]|[-> _]]; [|lia].
             rewrite Hd in Hlo. change (2 ^ (53 - 1)) with (2 ^ 52) in Hlo.
             assert (2 ^ (- e) ≤ 2 ^ 52) by (apply Z.pow_le_mono_r; lia). lia. }
           apply Z.div_le_lower_bound; [apply pow2_pos; lia | lia].
        -- intros [?|(n & [= <-] & Hn)]; [done|].
           destruct (Z.lt_ge_cases e (-52)) as [Hlt|Hge].
           ++ assert (2 ^ 53 ≤ 2 ^ (- e)) by (apply Z.pow_le_mono_r; lia).
              rewrite Z.div_small in Hn by lia. lia.
           ++ destruct (Z.eq_dec e (-52)) as [->|Hne]; [|left; lia].
              right. split; [done|]. change (- -52) with 52 in Hn.
              change 4503599627370496 with (2 ^ 52).
              destruct (Z.lt_ge_cases (Zpos m) (2 ^ 52)) as [Hsmall|?]; [|done].
              rewrite Z.div_small in Hn by lia. lia.
Qed.

Lemma ge_1_integral_part_witness :
  let x := S754_finite false 6755399441055744 (-52) in
  valid_binary Float.prec Float.emax x = true ∧
  (Float.ge_int x 1 = true ↔
   x = S754_infinity false ∨ ∃ n, Float.trunc x = Ok n ∧ 1 ≤ n).
Proof.
  intros x.
  assert (Hvalid : valid_binary Float.prec Float.emax x = true) by reflexivity.
  split; [exact Hvalid|]. exact (ge_1_integral_part x Hvalid).
Defined.

End GeOne.

(** ** The accessors on constructed settings *)

Lemma of_microseconds_outcomes (us : Z) :
  (∃ td, Timedelta.of_microseconds us = Ok td) ∨
  Timedelta.of_microseconds us = Raise OverflowError.
Proof. unfold Timedelta.of_microseconds. case_match; eauto. Qed.

Lemma new_with_outcomes (x : Float.t) (factor : Z) :
  Float.ge_int x 1 = true → Float.fbelow 32 (Float.of_Z factor) →
  (∃ td, Timedelta.new_with (NFloat x) factor = Ok td) ∨
  Timedelta.new_with (NFloat x) factor = Raise OverflowError.
Proof.
  intros [->|(m & e & ->)]%ge_1_cases Hf; [by right|].
  destruct (new_with_close (NFloat (S754_finite false m e)) _ factor eq_refl Hf)
    as (us & -> & _).
  apply of_microseconds_outcomes.
Qed.

(** X15. On a constructed settings object the only way the accessors fail is
    [OverflowError]: [history_timedelta] and [timeframe_timedelta] each
    return a duration or raise [OverflowError], never [AttributeError] nor
    the [ValueError] of a NaN. *)
Theorem timedelta_accessors_only_overflow (data : gmap string PyVal)
    (self : gmap string PyNum) :
  StrategySettings.new data = Ok self →
  ((∃ td, StrategySettings.history_timedelta self = Ok td) ∨
   StrategySettings.history_timedelta self = Raise OverflowError) ∧
  ((∃ td, StrategySettings.timeframe_timedelta self = Ok td) ∨
   StrategySettings.timeframe_timedelta self = Raise OverflowError).
Proof.
  intros (h & t & -> & Hh & Ht)%settings_new_inv.
  destruct (settings_read h t) as [Hrh Hrt].
  unfold StrategySettings.history_timedelta, StrategySettings.timeframe_timedelta.
  rewrite Hrh, Hrt. cbn [mbind result_bind].
  unfold Timedelta.of_hours, Timedelta.of_minutes. split.
  - destruct (data !! "history_duration") as [v|].
    + destruct Hh as (x & _ & -> & Hx). apply new_with_outcomes; [done | by vm_compute].
    + subst h. left. eexists. vm_compute. reflexivity.
  - destruct (data !! "timeframe_duration") as [v|].
    + destruct Ht as (x & _ & -> & Hx). apply new_with_outcomes; [done | by vm_compute].
    + subst t. left. eexists. vm_compute. reflexivity.
Qed.

Lemma timedelta_accessors_only_overflow_witness :
  let data : gmap string PyVal := {[ "history_duration" := VFloat (S754_infinity false) ]} in
  let self : gmap string PyNum :=
    <["timeframe_duration" := NInt 15]>
      (<["history_duration" := NFloat (S754_infinity false)]> ∅) in
  StrategySettings.new data = Ok self ∧
  ((∃ td, StrategySettings.history_timedelta self = Ok td) ∨
   StrategySettings.history_timedelta self = Raise OverflowError) ∧
  ((∃ td, StrategySettings.timeframe_timedelta self = Ok td) ∨
   StrategySettings.timeframe_timedelta self = Raise OverflowError).
Proof.
  intros data self.
  assert (Hnew : StrategySettings.new data = Ok self) by (vm_compute; reflexivity).
  split; [exact Hnew|]. exact (timedelta_accessors_only_overflow data self Hnew).
Defined.

Section WholeUnits.
Local Open Scope Z_scope.

Lemma of_microseconds_units (n unit per_day : Z) :
  0 < unit → 0 < per_day → per_day * unit = 86400 →
  Timedelta.of_microseconds (n * (unit * 1000000)) =
    if (- 999999999 <=? n / per_day) && (n / per_day <=? 999999999)
    then Ok (Timedelta.mk (n / per_day) (n `mod` per_day * unit) 0)
    else Raise OverflowError.
Proof.
  intros Hunit Hper Hday. unfold Timedelta.of_microseconds.
  unfold Timedelta.us_per_second, Timedelta.seconds_per_day, Timedelta.MAX_DELTA_DAYS.
  replace (n * (unit * 1000000)) with (n * unit * 1000000) by lia.
  rewrite Z.div_mul, Z.mod_mul by done.
  replace 86400 with (per_day * unit) by done.
  rewrite Z.div_mul_cancel_r, Z.mul_mod_distr_r by lia.
  done.
Qed.

(** X16. Whole hours and minutes come out in [timedelta]'s normal form: on a
    constructed settings object whose [history_duration] is the whole number
    [n <= 23999999999], [history_timedelta] is [n / 24] days and
    [(n mod 24) * 3600] seconds; whose [timeframe_duration] is the whole
    number [n <= 1439999999999], [timeframe_timedelta] is [n / 1440] days and
    [(n mod 1440) * 60] seconds; no microseconds in either. *)
Theorem timedelta_accessors_normal_form (data : gmap string PyVal)
    (self : gmap string PyNum) :
  StrategySettings.new data = Ok self →
  (∀ h n, StrategySettings.history_duration self = Ok h → num_is_whole h n →
          n ≤ 23999999999 →
          StrategySettings.history_timedelta self
            = Ok (Timedelta.mk (n / 24) (n `mod` 24 * 3600) 0)) ∧
  (∀ t n, StrategySettings.timeframe_duration self = Ok t → num_is_whole t n →
          n ≤ 1439999999999 →
          StrategySettings.timeframe_timedelta self
            = Ok (Timedelta.mk (n / 1440) (n `mod` 1440 * 60) 0)).
Proof.
  intros Hnew. pose proof Hnew as (h0 & t0 & -> & _ & _)%settings_new_inv.
  destruct (settings_new_nonneg data h0 t0 Hnew) as [Hhpos Htpos].
  destruct (settings_read h0 t0) as [Hrh Hrt].
  unfold StrategySettings.history_timedelta, StrategySettings.timeframe_timedelta.
  rewrite Hrh, Hrt. cbn [mbind result_bind].
  unfold Timedelta.of_hours, Timedelta.of_minutes. split.
  - intros h n [= <-] Hwhole Hn. pose proof (Hhpos n (num_is_whole_trunc _ _ Hwhole)).
    rewrite (new_with_whole h0 n _ Hwhole).
    change Timedelta.us_per_hour with (3600 * 1000000).
    rewrite (of_microseconds_units n 3600 24) by done.
    assert (0 ≤ n / 24 ≤ 999999999) as [Hlo Hhi].
    { split; [apply Z.div_pos; lia | apply Z.lt_succ_r, Z.div_lt_upper_bound; lia]. }
    destruct (Z.leb_spec (-999999999) (n / 24)), (Z.leb_spec (n / 24) 999999999);
      cbn [andb]; first [reflexivity | exfalso; lia].
  - intros t n [= <-] Hwhole Hn. pose proof (Htpos n (num_is_whole_trunc _ _ Hwhole)).
    rewrite (new_with_whole t0 n _ Hwhole).
    change Timedelta.us_per_minute with (60 * 1000000).
    rewrite (of_microseconds_units n 60 1440) by done.
    assert (0 ≤ n / 1440 ≤ 999999999) as [Hlo Hhi].
    { split; [apply Z.div_pos; lia | apply Z.lt_succ_r, Z.div_lt_upper_bound; lia]. }
    destruct (Z.leb_spec (-999999999) (n / 1440)), (Z.leb_spec (n / 1440) 999999999);
      cbn [andb]; first [reflexivity | exfalso; lia].
Qed.

(** X17. Past the range of [timedelta] the accessors raise: on a constructed
    settings object whose [history_duration] is a whole number of at least
    24000000000 hours, [history_timedelta] raises [OverflowError]; whose
    [timeframe_duration] is a whole number of at least 1440000000000
    minutes, [timeframe_timedelta] raises [OverflowError]. *)
Theorem timedelta_accessors_overflow (data : gmap string PyVal)
    (self : gmap string PyNum) :
  StrategySettings.new data = Ok self →
  (∀ h n, StrategySettings.history_duration self = Ok h → num_is_whole h n →
          24000000000 ≤ n →
          StrategySettings.history_timedelta self = Raise OverflowError) ∧
  (∀ t n, StrategySettings.timeframe_duration self = Ok t → num_is_whole t n →
          1440000000000 ≤ n →
          StrategySettings.timeframe_timedelta self = Raise OverflowError).
Proof.
  intros _.
  unfold StrategySettings.history_timedelta, StrategySettings.timeframe_timedelta.
  unfold Timedelta.of_hours, Timedelta.of_minutes. split.
  - intros h n -> Hwhole Hn. cbn [mbind result_bind].
    rewrite (new_with_whole h n _ Hwhole).
    change Timedelta.us_per_hour with (3600 * 1000000).
    rewrite (of_microseconds_units n 3600 24) by done.
    assert (1000000000 ≤ n / 24) by (apply Z.div_le_lower_bound; lia).
    destruct (Z.leb_spec (-999999999) (n / 24)), (Z.leb_spec (n / 24) 999999999);
      cbn [andb]; first [reflexivity | exfalso; lia].
  - intros t n -> Hwhole Hn. cbn [mbind result_bind].
    rewrite (new_with_whole t n _ Hwhole).
    change Timedelta.us_per_minute with (60 * 1000000).
    rewrite (of_microseconds_units n 60 1440) by done.
    assert (1000000000 ≤ n / 1440) by (apply Z.div_le_lower_bound; lia).
    destruct (Z.leb_spec (-999999999) (n / 1440)), (Z.leb_spec (n / 1440) 999999999);
      cbn [andb]; first [reflexivity | exfalso; lia].
Qed.

End WholeUnits.

Lemma timedelta_accessors_normal_form_witness :
  let data : gmap string PyVal := {[ "history_duration" := VFloat (Float.of_Z 100) ]} in
  let self : gmap string PyNum :=
    <["timeframe_duration" := NInt 15]> (<["history_duration" := NFloat (Float.of_Z 100)]> ∅) in
  StrategySettings.new data = Ok self ∧
  StrategySettings.history_duration self = Ok (NFloat (Float.of_Z 100)) ∧
  num_is_whole (NFloat (Float.of_Z 100)) 100 ∧
  (100 ≤ 23999999999)%Z ∧
  StrategySettings.history_timedelta self = Ok (Timedelta.mk 4 14400 0).
Proof.
  intros data self.
  assert (Hnew : StrategySettings.new data = Ok self) by (vm_compute; reflexivity).
  assert (Hh : StrategySettings.history_duration self = Ok (NFloat (Float.of_Z 100)))
    by (vm_compute; reflexivity).
  assert (Hwhole : num_is_whole (NFloat (Float.of_Z 100)) 100) by (split; reflexivity).
  assert (Hn : (100 ≤ 23999999999)%Z) by lia.
  split; [exact Hnew|]. split; [exact Hh|]. split; [exact Hwhole|]. split; [exact Hn|].
  exact (proj1 (timedelta_accessors_normal_form data self Hnew)
           (NFloat (Float.of_Z 100)) 100%Z Hh Hwhole Hn).
Defined.

Lemma timedelta_accessors_overflow_witness :
  let data : gmap string PyVal :=
    {[ "timeframe_duration" := VFloat (Float.of_Z 1440000000000) ]} in
  let self : gmap string PyNum :=
    <["timeframe_duration" := NFloat (Float.of_Z 1440000000000)]>
      (<["history_duration" := NInt 336]> ∅) in
  StrategySettings.new data = Ok self ∧
  StrategySettings.timeframe_duration self = Ok (NFloat (Float.of_Z 1440000000000)) ∧
  num_is_whole (NFloat (Float.of_Z 1440000000000)) 1440000000000 ∧
  (1440000000000 ≤ 1440000000000)%Z ∧
  StrategySettings.timeframe_timedelta self = Raise OverflowError.
Proof.
  intros data self.
  assert (Hnew : StrategySettings.new data = Ok self) by (vm_compute; reflexivity).
  assert (Ht : StrategySettings.timeframe_duration self
               = Ok (NFloat (Float.of_Z 1440000000000))) by (vm_compute; reflexivity).
  assert (Hwhole : num_is_whole (NFloat (Float.of_Z 1440000000000)) 1440000000000)
    by (split; reflexivity).
  assert (Hn : (1440000000000 ≤ 1440000000000)%Z) by lia.
  split; [exact Hnew|]. split; [exact Ht|]. split; [exact Hwhole|]. split; [exact Hn|].
  exact (proj2 (timedelta_accessors_overflow data self Hnew)
           (NFloat (Float.of_Z 1440000000000)) 1440000000000%Z Ht Hwhole Hn).
Defined.

(** ** ResourceRecommendation *)

(** X18. For a recommendation, [None] and nothing are the same, and nothing
    else is kept: two raw mappings whose [request] and [limit] agree once an
    omitted key is read as [None] construct the same object, whatever other
    keys they hold, and the object stores exactly the two fields. *)
Theorem recommendation_none_is_omitted (data data' : gmap string (option Decimal)) :
  default None (data !! "request") = default None (data' !! "request") →
  default None (data !! "limit") = default None (data' !! "limit") →
  ResourceRecommendation.new data = ResourceRecommendation.new data' ∧
  ∃ self, ResourceRecommendation.new data = Ok self ∧
          ∀ k, is_Some (self !! k) ↔ k = "request" ∨ k = "limit".
Proof.
  intros Hr Hl. rewrite !recommendation_new_unfold, Hr, Hl. split; [done|].
  eexists. split; [done|]. intros k. split.
  - intros Hk. destruct (decide (k = "limit")) as [->|Hnl]; [by right|].
    destruct (decide (k = "request")) as [->|Hnr]; [by left|].
    rewrite !lookup_insert_ne, lookup_empty in Hk by done. by destruct Hk.
  - intros [-> | ->].
    + rewrite lookup_insert_ne, lookup_insert_eq by done. done.
    + rewrite lookup_insert_eq. done.
Qed.

Lemma recommendation_none_is_omitted_witness :
  let data : gmap string (option Decimal) :=
    {[ "request" := None; "limit" := Some (DFinite false 5 (-1)); "info" := None ]} in
  let data' : gmap string (option Decimal) := {[ "limit" := Some (DFinite false 5 (-1)) ]} in
  default None (data !! "request") = default None (data' !! "request") ∧
  default None (data !! "limit") = default None (data' !! "limit") ∧
  ResourceRecommendation.new data = ResourceRecommendation.new data'.
Proof.
  intros data data'.
  assert (Hr : default None (data !! "request") = default None (data' !! "request"))
    by reflexivity.
  assert (Hl : default None (data !! "limit") = default None (data' !! "limit"))
    by reflexivity.
  split; [exact Hr|]. split; [exact Hl|].
  exact (proj1 (recommendation_none_is_omitted data data' Hr Hl)).
Defined.
